(** * arduino-genmakefile: a shallow embedding and its verified properties

    The development follows the layout of [arduino-genmakefile.py]:
    Python's [str] methods and the [os.path] functions the script calls,
    the file system they observe, then the classes [Constants], [Path],
    [Config], [Makefile] and [Qmake] and the [main] driver.  Definitions
    come first, theorems afterwards. *)

From Stdlib Require Import String Ascii List Bool Arith Lia.
From stdpp Require Import base option list strings gmap fin_maps.
Import ListNotations.
Open Scope string_scope.
Open Scope list_scope.

(* ===================================================================== *)
(** * Python strings *)
(* ===================================================================== *)

Module Str.

(** [s.startswith(pre)] *)
Definition startswith (s pre : string) : bool := String.prefix pre s.

(** [s[n:]] *)
Fixpoint drop (n : nat) (s : string) : string :=
  match n, s with
  | 0, _ => s
  | S _, EmptyString => EmptyString
  | S n', String _ s' => drop n' s'
  end.

(** [s[:n]] *)
Fixpoint take (n : nat) (s : string) : string :=
  match n, s with
  | 0, _ => EmptyString
  | S _, EmptyString => EmptyString
  | S n', String c s' => String c (take n' s')
  end.

(** [s.endswith(suf)] *)
Definition endswith (s suf : string) : bool :=
  String.eqb (drop (String.length s - String.length suf) s) suf
  && Nat.leb (String.length suf) (String.length s).

(** [sub in s] *)
Fixpoint contains (sub s : string) : bool :=
  String.prefix sub s ||
  match s with
  | EmptyString => false
  | String _ s' => contains sub s'
  end.

(** [s.replace(old, new)] for a non-empty [old]: the occurrences are
    replaced from the left and do not overlap.  [fuel] bounds the number
    of characters skipped after a match and is the length of [s]. *)
Fixpoint replace_aux (fuel : nat) (old new s : string) : string :=
  match fuel with
  | 0 => s
  | S fuel' =>
      if String.prefix old s
      then new +:+ replace_aux fuel' old new (drop (String.length old) s)
      else match s with
           | EmptyString => EmptyString
           | String c s' => String c (replace_aux fuel' old new s')
           end
  end.

Definition replace (s old new : string) : string :=
  match old with
  | EmptyString => s
  | _ => replace_aux (S (String.length s)) old new s
  end.

(** [s.replace(old, new, 1)] for a non-empty [old]. *)
Fixpoint replace_first (s old new : string) : string :=
  if String.prefix old s
  then new +:+ drop (String.length old) s
  else match s with
       | EmptyString => EmptyString
       | String c s' => String c (replace_first s' old new)
       end.

(** [s.split("/")]: never empty, the empty string splits to one empty
    component. *)
Fixpoint split_slash (s : string) : list string :=
  match s with
  | EmptyString => [EmptyString]
  | String c s' =>
      if Ascii.eqb c "/" then EmptyString :: split_slash s'
      else match split_slash s' with
           | [] => [String c EmptyString]
           | h :: t => String c h :: t
           end
  end.

(** [(s[:i], s[i:])] for [i = s.rfind("/") + 1]. *)
Fixpoint rpartition_slash (s : string) : string * string :=
  match s with
  | EmptyString => (EmptyString, EmptyString)
  | String c s' =>
      let '(h, t) := rpartition_slash s' in
      match h with
      | String _ _ => (String c h, t)
      | EmptyString =>
          if Ascii.eqb c "/" then ("/", t) else (EmptyString, String c t)
      end
  end.

(** [s.rstrip("/")] *)
Fixpoint rstrip_slash (s : string) : string :=
  match s with
  | EmptyString => EmptyString
  | String c s' =>
      match rstrip_slash s' with
      | EmptyString => if Ascii.eqb c "/" then EmptyString else String c EmptyString
      | r => String c r
      end
  end.

(** [s == "/" * len(s)] *)
Fixpoint all_slashes (s : string) : bool :=
  match s with
  | EmptyString => true
  | String c s' => Ascii.eqb c "/" && all_slashes s'
  end.

(** ["/" not in s] *)
Fixpoint no_slash (s : string) : bool :=
  match s with
  | EmptyString => true
  | String c s' => negb (Ascii.eqb c "/") && no_slash s'
  end.

(** [(s[:i], s[i:])] for [i = s.rfind(".")], and the whole of [s] with an
    empty second part when [s] has no dot. *)
Fixpoint rpartition_dot (s : string) : option (string * string) :=
  match s with
  | EmptyString => None
  | String c s' =>
      match rpartition_dot s' with
      | Some (h, t) => Some (String c h, t)
      | None => if Ascii.eqb c "." then Some (EmptyString, s) else None
      end
  end.

(** [s == "." * len(s)] *)
Fixpoint all_dots (s : string) : bool :=
  match s with
  | EmptyString => true
  | String c s' => Ascii.eqb c "." && all_dots s'
  end.

(** [list(s)]: iterating a string yields its one-character strings. *)
Fixpoint chars (s : string) : list string :=
  match s with
  | EmptyString => []
  | String c s' => String c EmptyString :: chars s'
  end.

(** The concatenation of the elements of [l], as [str.join] on the
    empty separator. *)
Definition concat_all (l : list string) : string := String.concat EmptyString l.

(** Characters are code points below 256.  [c.isspace()]: *)
Definition is_space (c : ascii) : bool :=
  existsb (Nat.eqb (nat_of_ascii c)) [9; 10; 11; 12; 13; 28; 29; 30; 31; 32; 133; 160].

(** [s.split()]: the maximal runs of characters that are not white
    space. *)
Fixpoint split_ws (s : string) : list string :=
  match s with
  | EmptyString => []
  | String c s' =>
      if is_space c then split_ws s'
      else match s' with
           | EmptyString => [String c EmptyString]
           | String c2 _ =>
               if is_space c2 then String c EmptyString :: split_ws s'
               else match split_ws s' with
                    | [] => [String c EmptyString]
                    | h :: t => String c h :: t
                    end
           end
  end.

(** A line boundary of [str.splitlines]. *)
Definition is_linebreak (c : ascii) : bool :=
  existsb (Nat.eqb (nat_of_ascii c)) [10; 11; 12; 13; 28; 29; 30; 133].

(** [s.splitlines()]: the lines without their boundaries; a carriage
    return followed by a line feed is one boundary. *)
Fixpoint splitlines (s : string) : list string :=
  match s with
  | EmptyString => []
  | String c s' =>
      if is_linebreak c then
        EmptyString ::
          (if Nat.eqb (nat_of_ascii c) 13 then
             match s' with
             | EmptyString => []
             | String c2 s'' =>
                 if Nat.eqb (nat_of_ascii c2) 10 then splitlines s'' else splitlines s'
             end
           else splitlines s')
      else match splitlines s' with
           | [] => [String c EmptyString]
           | l :: ls => String c l :: ls
           end
  end.

(** The text before the first double quote of [s] and the text after
    it; [None] when [s] has no double quote. *)
Fixpoint until_quote (s : string) : option (string * string) :=
  match s with
  | EmptyString => None
  | String c s' =>
      if Nat.eqb (nat_of_ascii c) 34 then Some (EmptyString, s')
      else match until_quote s' with
           | Some (a, b) => Some (String c a, b)
           | None => None
           end
  end.

(** [re.findall] on the pattern of a double quote, any characters but a
    double quote, and a double quote, with the group of the characters
    between: the matches are taken from the left and do not overlap.
    [fuel] bounds the number of matches and is the length of [s]. *)
Fixpoint findall_quoted (fuel : nat) (s : string) : list string :=
  match fuel with
  | 0 => []
  | S fuel' =>
      match until_quote s with
      | None => []
      | Some (_, opened) =>
          match until_quote opened with
          | None => []
          | Some (inner, rest) => inner :: findall_quoted fuel' rest
          end
      end
  end.

(** [c.isprintable()] *)
Definition is_printable (c : ascii) : bool :=
  let n := nat_of_ascii c in
  Nat.leb 32 n && Nat.ltb n 127 || Nat.leb 161 n && negb (Nat.eqb n 173).

Definition hex_digit (n : nat) : ascii :=
  nth n (list_ascii_of_string "0123456789abcdef") "0"%char.

(** The characters of [repr(s)] between the quotes, [quote] being the
    quote chosen. *)
Fixpoint repr_body (quote : ascii) (s : string) : string :=
  match s with
  | EmptyString => EmptyString
  | String c s' =>
      let n := nat_of_ascii c in
      (if Ascii.eqb c quote || Ascii.eqb c "\"%char then String "\" (String c EmptyString)
       else if Nat.eqb n 9 then "\t"
       else if Nat.eqb n 10 then "\n"
       else if Nat.eqb n 13 then "\r"
       else if is_printable c then String c EmptyString
       else String "\" (String "x" (String (hex_digit (n / 16))
                                    (String (hex_digit (n mod 16)) EmptyString))))
      +:+ repr_body quote s'
  end.

(** [repr(s)]: in single quotes, or in double quotes when [s] holds a
    single quote and no double quote. *)
Definition repr (s : string) : string :=
  let quote :=
    if contains "'" s && negb (contains (String (Ascii.ascii_of_nat 34) EmptyString) s)
    then Ascii.ascii_of_nat 34 else "'"%char in
  String quote (repr_body quote s +:+ String quote EmptyString).

End Str.

(* ===================================================================== *)
(** * [os.path] on POSIX (the [posixpath] module) *)
(* ===================================================================== *)

Module PosixPath.

(** [os.path.isabs] *)
Definition isabs (s : string) : bool := Str.startswith s "/".

(** [os.path.join(a, b)] *)
Definition join (a b : string) : string :=
  if Str.startswith b "/" then b
  else if String.eqb a EmptyString || Str.endswith a "/" then a +:+ b
  else a +:+ "/" +:+ b.

(** [os.path.join] applied to the elements of a non-empty [l]. *)
Definition join_list (l : list string) : string :=
  match l with
  | [] => EmptyString
  | a :: l' => fold_left join l' a
  end.

(** [os.path.split] *)
Definition split (p : string) : string * string :=
  let '(head, tail) := Str.rpartition_slash p in
  let head :=
    if negb (String.eqb head EmptyString) && negb (Str.all_slashes head)
    then Str.rstrip_slash head else head in
  (head, tail).

(** [os.path.dirname] *)
Definition dirname (p : string) : string := fst (split p).

(** [os.path.basename] *)
Definition basename (p : string) : string := snd (Str.rpartition_slash p).

(** [os.path.splitext(p)[-1]]: the extension starts at the last dot of
    the last component, unless only dots precede it there. *)
Definition splitext (p : string) : string * string :=
  let '(head, name) := Str.rpartition_slash p in
  match Str.rpartition_dot name with
  | Some (stem, ext) =>
      if Str.all_dots stem then (p, EmptyString) else (head +:+ stem, ext)
  | None => (p, EmptyString)
  end.

(** One step of the loop of [os.path.normpath]; the components kept so
    far are held most recent first. *)
Definition norm_step (initial_slashes : nat) (new_comps : list string)
    (comp : string) : list string :=
  if String.eqb comp EmptyString || String.eqb comp "." then new_comps
  else if negb (String.eqb comp "..") then comp :: new_comps
  else match new_comps with
       | [] => if Nat.eqb initial_slashes 0 then comp :: new_comps else new_comps
       | last :: before =>
           if String.eqb last ".." then comp :: new_comps else before
       end.

Definition slashes (n : nat) : string := String.concat EmptyString (repeat "/" n).

(** [os.path.normpath] *)
Definition normpath (path : string) : string :=
  if String.eqb path EmptyString then "."
  else
    let initial_slashes :=
      if Str.startswith path "/"
      then if Str.startswith path "//" && negb (Str.startswith path "///")
           then 2 else 1
      else 0 in
    let comps := rev (fold_left (norm_step initial_slashes) (Str.split_slash path) []) in
    let path := slashes initial_slashes +:+ String.concat "/" comps in
    if String.eqb path EmptyString then "." else path.

(** [os.path.abspath] with the working directory [cwd]. *)
Definition abspath (cwd path : string) : string :=
  if isabs path then normpath path else normpath (join cwd path).

(** The length of [os.path.commonprefix([l1, l2])] on component lists. *)
Fixpoint common_prefix_len (l1 l2 : list string) : nat :=
  match l1, l2 with
  | a :: l1', b :: l2' => if String.eqb a b then S (common_prefix_len l1' l2') else 0
  | _, _ => 0
  end.

(** [[x for x in s.split("/") if x]] *)
Definition nonempty_comps (s : string) : list string :=
  List.filter (fun x => negb (String.eqb x EmptyString)) (Str.split_slash s).

(** [os.path.relpath(path, start)] for a non-empty [path]; the empty
    path raises [ValueError] and is handled by the caller. *)
Definition relpath (cwd path start : string) : string :=
  let start_list := nonempty_comps (abspath cwd start) in
  let path_list := nonempty_comps (abspath cwd path) in
  let i := common_prefix_len start_list path_list in
  let rel_list := repeat ".." (length start_list - i) ++ List.skipn i path_list in
  match rel_list with
  | [] => "."
  | _ => join_list rel_list
  end.

(** [os.path.expanduser] for the current user: [home] is the value of
    [HOME] (or the password database entry), [None] when neither is
    available.  The [~user] form is left as it is. *)
Definition expanduser (home : option string) (path : string) : string :=
  if negb (Str.startswith path "~") then path
  else
    let after := Str.drop 1 path in
    if String.eqb after EmptyString || Str.startswith after "/" then
      match home with
      | None => path
      | Some userhome =>
          let r := Str.rstrip_slash userhome +:+ after in
          if String.eqb r EmptyString then "/" else r
      end
    else path.

End PosixPath.

Import PosixPath.

(* ===================================================================== *)
(** * The file system *)
(* ===================================================================== *)

(** Python's exceptions, as far as the script raises or meets them.
    [Exception] is what [Error.exit_on_error] raises; [RecursionError] is
    raised when the interpreter's recursion limit is exceeded. *)
Inductive exn : Type :=
  | ValueError (msg : string)
  | FileNotFoundError (msg : string)
  | FileExistsError (msg : string)
  | IsADirectoryError (msg : string)
  | NotADirectoryError (msg : string)
  | OSError (msg : string)
  | YAMLError
  | TypeError
  | AttributeError
  | IndexError
  | RecursionError
  | Exception (msg : string).

Inductive result (A : Type) : Type :=
  | Ok (a : A)
  | Raise (e : exn).
Arguments Ok {A} a.
Arguments Raise {A} e.

Module FS.

(** What a name denotes: a regular file with its text, a directory, or a
    symbolic link with its target. *)
Inductive node : Type :=
  | File (content : string)
  | Dir
  | Symlink (target : string).

(** A file system maps absolute normalized names to nodes; the root is
    always a directory. *)
Definition node_at (fs : gmap string node) (p : string) : option node :=
  if String.eqb p "/" then Some Dir else fs !! p.

Section WithCwd.
Variable cwd : string.
Variable fs : gmap string node.

(** [os.lstat] on a name whose directory part is already resolved. *)
Definition lstat (p : string) : option node :=
  node_at fs (if isabs p then p else abspath cwd p).

Definition seen_lookup (k : string) (seen : list (string * option string))
  : option (option string) :=
  snd <$> List.find (fun e => String.eqb (fst e) k) seen.

(** The loop [while rest: name, _, rest = rest.partition("/")] of
    [posixpath._joinrealpath], run over [rest.split("/")]; what is
    left of [rest] is the remaining components joined again.  [seen]
    is the dictionary of the links met so far, [None] while a link is
    being resolved.  [resolve] is the recursive call on the target of
    a link; it is [None] when the nesting of links being resolved has
    used up its bound, and the link is then treated as a loop. *)
Fixpoint realpath_loop
    (resolve : option (string -> string -> list (string * option string)
                       -> string * bool * list (string * option string)))
    (names : list string) (path : string) (seen : list (string * option string))
  : string * bool * list (string * option string) :=
  match names with
  | [] => (path, true, seen)
  | name :: names' =>
      if String.eqb name EmptyString || String.eqb name "." then
        realpath_loop resolve names' path seen
      else if String.eqb name ".." then
        if String.eqb path EmptyString then realpath_loop resolve names' ".." seen
        else
          let '(p, n) := split path in
          realpath_loop resolve names'
            (if String.eqb n ".." then join (join p "..") ".." else p) seen
      else
        let newpath := join path name in
        match lstat newpath with
        | Some (Symlink target) =>
            match seen_lookup newpath seen with
            | Some (Some cached) => realpath_loop resolve names' cached seen
            | Some None => (join newpath (String.concat "/" names'), false, seen)
            | None =>
                match resolve with
                | None => (join newpath (String.concat "/" names'), false, seen)
                | Some resolve_link =>
                    let '(p, ok, seen') :=
                      resolve_link path target ((newpath, None) :: seen) in
                    if ok then realpath_loop resolve names' p ((newpath, Some p) :: seen')
                    else (join p (String.concat "/" names'), false, seen')
                end
            end
        | _ => realpath_loop resolve names' newpath seen
        end
  end.

(** [posixpath._joinrealpath(path, rest, strict=False, seen)] *)
Fixpoint joinrealpath (fuel : nat) (path rest : string)
    (seen : list (string * option string)) {struct fuel}
  : string * bool * list (string * option string) :=
  let path := if isabs rest then "/" else path in
  let rest := if isabs rest then Str.drop 1 rest else rest in
  realpath_loop
    (match fuel with
     | 0 => None
     | S fuel' => Some (joinrealpath fuel')
     end)
    (Str.split_slash rest) path seen.

(** [os.path.realpath(filename)]: every link being resolved is a
    distinct link of the file system, so their nesting never exceeds
    the number of names. *)
Definition realpath (filename : string) : string :=
  abspath cwd (fst (fst (joinrealpath (size fs) EmptyString filename []))).

(** The path walk of the system call behind [os.stat], from the
    directory [cur] along [names]: every link is followed, [links] of
    them at most, and a step over [.], [..] or the empty name that a
    slash leaves is refused unless the name reached is a directory.
    The names of a file system lie under directories, so a name below
    a regular file or below a missing name is absent by itself. *)
Fixpoint walk (links : nat) (cur : string) (names : list string) {struct links}
  : option string :=
  (fix go (cur : string) (names : list string) {struct names} : option string :=
     match names with
     | [] => Some cur
     | name :: names' =>
         if String.eqb name EmptyString || String.eqb name "." then
           match node_at fs cur with
           | Some Dir => go cur names'
           | _ => None
           end
         else if String.eqb name ".." then
           match node_at fs cur with
           | Some Dir => go (dirname cur) names'
           | _ => None
           end
         else
           match node_at fs (join cur name) with
           | Some (Symlink target) =>
               match links with
               | 0 => None
               | S links' =>
                   if String.eqb target EmptyString then None
                   else walk links' (if isabs target then "/" else cur)
                          (Str.split_slash target ++ names')
               end
           | _ => go (join cur name) names'
           end
     end) cur names.

(** The number of links one path walk follows at most. *)
Definition MAXSYMLINKS : nat := 40.

(** [os.stat]: the node a name denotes once every link is followed;
    [None] when the call fails. *)
Definition stat (p : string) : option node :=
  if String.eqb p EmptyString then None
  else
    match walk MAXSYMLINKS (if isabs p then "/" else cwd) (Str.split_slash p) with
    | Some q => node_at fs q
    | None => None
    end.

(** [os.path.exists], [os.path.isfile], [os.path.isdir] *)
Definition exists_ (p : string) : bool :=
  match stat p with Some _ => true | None => false end.
Definition isfile (p : string) : bool :=
  match stat p with Some (File _) => true | _ => false end.
Definition isdir (p : string) : bool :=
  match stat p with Some Dir => true | _ => false end.

(** [os.path.getsize(p) == 0] on a regular file. *)
Definition is_empty (p : string) : bool :=
  match stat p with Some (File c) => String.eqb c EmptyString | _ => false end.

(** [open(p, "r").read()] *)
Definition read (p : string) : result string :=
  match stat p with
  | Some (File c) => Ok c
  | Some Dir => Raise (IsADirectoryError p)
  | _ => Raise (FileNotFoundError p)
  end.

(** The name under which the last component of [p] is stored: the
    directory part is resolved, the last component is not followed. *)
Definition lkey (p : string) : string :=
  join (realpath (dirname p)) (basename p).

(** [os.remove(p)]: unlinks a file or a link, not a directory. *)
Definition remove (p : string) : result (gmap string node) :=
  match node_at fs (lkey p) with
  | None => Raise (FileNotFoundError p)
  | Some Dir => Raise (IsADirectoryError p)
  | Some _ => Ok (delete (lkey p) fs)
  end.

(** [open(p, "a").write(data)]: appends to the file [p] denotes and
    creates it in an existing directory when it is absent. *)
Definition append (p data : string) : result (gmap string node) :=
  let key := realpath p in
  match node_at fs key with
  | Some (File c) => Ok (<[key := File (c +:+ data)]> fs)
  | Some Dir => Raise (IsADirectoryError p)
  | Some (Symlink _) => Raise (OSError p)
  | None =>
      match stat (dirname key) with
      | Some Dir => Ok (<[key := File data]> fs)
      | Some _ => Raise (NotADirectoryError p)
      | None => Raise (FileNotFoundError p)
      end
  end.

End WithCwd.

Definition LF : ascii := "010"%char.
Definition CR : ascii := "013"%char.

(** Text mode translates the line endings ["\r\n"] and ["\r"] on input. *)
Fixpoint universal_newlines (s : string) : string :=
  match s with
  | EmptyString => EmptyString
  | String c s' =>
      if Ascii.eqb c CR then
        String LF
          match s' with
          | EmptyString => EmptyString
          | String c2 s'' =>
              if Ascii.eqb c2 LF then universal_newlines s''
              else universal_newlines s'
          end
      else String c (universal_newlines s')
  end.

(** The lines of a text, each with its terminator. *)
Fixpoint lines_of (s : string) : list string :=
  match s with
  | EmptyString => []
  | String c s' =>
      if Ascii.eqb c LF then String LF EmptyString :: lines_of s'
      else match lines_of s' with
           | [] => [String c EmptyString]
           | l :: ls => String c l :: ls
           end
  end.

(** [file.readlines()] in text mode *)
Definition readlines (content : string) : list string :=
  lines_of (universal_newlines content).

End FS.

Import FS.

Definition nl : string := String LF EmptyString.

(* ===================================================================== *)
(** * The interpreter state *)
(* ===================================================================== *)

(** [Path.Type] *)
Inductive PathType : Type := Relative | Absolute | User.

(** An instance of class [Path]: [basedir] is not set on an absolute
    path. *)
Record PathObj : Type := mkPath {
  _type : PathType;
  basedir : option string;
  path : string
}.

(** A value of a parsed YAML mapping: null, a string, a number or a
    sequence of strings. *)
Inductive yvalue : Type :=
  | YNull
  | YStr (s : string)
  | YNum (n : Z)
  | YSeq (items : list string).

(** A key of a parsed YAML mapping: a string, or a scalar of another
    type, as the keys [1:], [on:] and [~:] give; [KOther] stands for
    the remaining types of keys (a float, a date, bytes). *)
Inductive ykey : Type :=
  | KStr (s : string)
  | KNum (n : Z)
  | KBool (b : bool)
  | KNull
  | KOther.

(** A parsed YAML document: a mapping with its keys in order, or a
    document of another kind (an empty file, a scalar, a sequence). *)
Inductive yaml : Type :=
  | YMap (entries : list (ykey * yvalue))
  | YOther.

(** What the three runs of [make] in [get_defines] (clean, build,
    clean) end with: the output of the build, or the error output of
    the run that failed with [CalledProcessError]. *)
Inductive build : Type :=
  | Built (output : string)
  | BuildFailed (stderr : string).

(** What the process is started with and the collaborators it calls:
    the working directory, the home directory of [~], [sys.argv], the
    directory of the script, the YAML parser ([None] for a [YAMLError]),
    the recursive glob and the runs of [make] on a Makefile. *)
Record Env : Type := mkEnv {
  cwd : string;
  home : option string;
  argv : list string;
  script_dir : string;
  safe_load : string -> option yaml;
  iglob : gmap string node -> string -> list string;
  make_build : gmap string node -> string -> build;
  addr_of : PathObj -> string
}.

(** The state the script reads and writes: the file system, the class
    attribute [Config.extra_config_stack], the standard output, and a
    record of the files handed to [yaml.safe_load], in order. *)
Record world : Type := mkWorld {
  fs : gmap string node;
  extra_config_stack : list PathObj;
  stdout : list string;
  yaml_loads : list string
}.

(** A computation reads and updates the state and returns or raises; the
    state survives a raised exception. *)
Definition M (A : Type) : Type := world -> result A * world.

Definition ret {A} (a : A) : M A := fun w => (Ok a, w).
Definition raise {A} (e : exn) : M A := fun w => (Raise e, w).
Definition bind {A B} (m : M A) (k : A -> M B) : M B :=
  fun w => match m w with
           | (Ok a, w') => k a w'
           | (Raise e, w') => (Raise e, w')
           end.
Definition lift {A} (f : gmap string node -> result A) : M A :=
  fun w => (f (fs w), w).
Definition gets {A} (f : world -> A) : M A := fun w => (Ok (f w), w).
Definition modify (f : world -> world) : M unit := fun w => (Ok tt, f w).

Notation "'let*' x ':=' m 'in' k" := (bind m (fun x => k))
  (at level 10, x pattern, m at level 100, k at level 200).
Notation "m ';;' k" := (bind m (fun _ => k))
  (at level 100, k at level 200, right associativity).

Definition set_fs (f : gmap string node) (w : world) : world :=
  mkWorld f (extra_config_stack w) (stdout w) (yaml_loads w).
Definition set_stack (s : list PathObj) (w : world) : world :=
  mkWorld (fs w) s (stdout w) (yaml_loads w).

(** [print(line)] *)
Definition print (line : string) : M unit :=
  modify (fun w => mkWorld (fs w) (extra_config_stack w) (stdout w ++ [line]) (yaml_loads w)).

(** [for x in l: body(x)] *)
Fixpoint for_each {A} (l : list A) (body : A -> M unit) : M unit :=
  match l with
  | [] => ret tt
  | x :: l' => body x ;; for_each l' body
  end.

(** Results without state. *)
Definition rbind {A B} (r : result A) (k : A -> result B) : result B :=
  match r with
  | Ok a => k a
  | Raise e => Raise e
  end.

Fixpoint rmap_list {A B} (f : A -> result B) (l : list A) : result (list B) :=
  match l with
  | [] => Ok []
  | x :: l' => rbind (f x) (fun y => rbind (rmap_list f l') (fun ys => Ok (y :: ys)))
  end.

Module Constants.

Definition generated_by_us_string : string :=
  "# Generated by arduino-genmakefile" +:+ nl.

Definition header_strings (env : Env) : list string :=
  let cmd_line :=
    match argv env with
    | [] => []
    | a0 :: rest => basename a0 :: rest
    end in
  [generated_by_us_string;
   "#" +:+ nl;
   "# Command line:" +:+ nl;
   "# " +:+ String.concat " " cmd_line +:+ nl;
   nl].

Definition default_debug_command : string := "cat $$SERIALPORT".
Definition default_baudrate : string := "115200".

End Constants.

Module Error.

Definition exit_on_error {A} (message : string) : M A :=
  raise (Exception message).

Definition exit_on_exception {A} (message : string) (exception : exn) : M A :=
  print message ;; raise exception.

End Error.

(* ===================================================================== *)
(** * class [Path] *)
(* ===================================================================== *)

Module Path.

(** [pathlib.PurePosixPath(p).with_suffix(suffix)] as a string: the
    last component loses its suffix, if it has one, and gets [suffix]. *)
Definition pathlib_root (p : string) : string :=
  if Str.startswith p "/"
  then if Str.startswith p "//" && negb (Str.startswith p "///") then "//" else "/"
  else EmptyString.

Definition pathlib_parts (p : string) : list string :=
  List.filter (fun x => negb (String.eqb x EmptyString || String.eqb x "."))
              (Str.split_slash p).

Definition pathlib_stem (name : string) : string :=
  match Str.rpartition_dot name with
  | Some (h, t) =>
      if negb (String.eqb h EmptyString) && Nat.leb 2 (String.length t) then h else name
  | None => name
  end.

Definition with_suffix (p suffix : string) : result string :=
  if Str.contains "/" suffix then Raise (ValueError ("Invalid suffix " +:+ Str.repr suffix))
  else if (negb (String.eqb suffix EmptyString) && negb (Str.startswith suffix "."))
          || String.eqb suffix "."
  then Raise (ValueError ("Invalid suffix " +:+ Str.repr suffix))
  else match rev (pathlib_parts p) with
       | [] =>
           Raise (ValueError
                    ("PosixPath("
                     +:+ Str.repr (if String.eqb (pathlib_root p) EmptyString then "."
                                   else pathlib_root p)
                     +:+ ") has an empty name"))
       | name :: before =>
           Ok (pathlib_root p
               +:+ String.concat "/" (rev before ++ [pathlib_stem name +:+ suffix]))
       end.

(** [Path.to_string] on a [Path] object. *)
Definition to_string (p : PathObj) : string := path p.

(** [os.path.relpath], which refuses the empty path. *)
Definition relpath_checked (cwd path start : string) : result string :=
  if String.eqb path EmptyString then Raise (ValueError "no path specified")
  else Ok (relpath cwd path start).

(** The iteration of [for x in v] over a YAML value. *)
Definition py_iter (v : yvalue) : result (list string) :=
  match v with
  | YSeq l => Ok l
  | YStr s => Ok (Str.chars s)
  | YNull | YNum _ => Raise TypeError
  end.

Section WithEnv.
Variable env : Env.

Section Reading.
Variable f : gmap string node.

Definition check_basedir_valid (basedir : option string) : result bool :=
  match basedir with
  | None => Raise (ValueError "Base dir is None")
  | Some b =>
      if negb (isabs b) then
        Raise (ValueError ("Base dir " +:+ b +:+ " is not valid (should be absolute)"))
      else if exists_ (cwd env) f b && negb (isdir (cwd env) f b) then
        Raise (ValueError ("Base dir " +:+ b
                           +:+ " is not valid (exists and is not a directory"))
      else Ok true
  end.

(** [Path.__init__(path, basedir)], both already through
    [Path.to_string]. *)
Definition init (path : string) (basedir : option string) : result PathObj :=
  if Str.startswith path "~/" then
    Ok (mkPath User (Some (expanduser (home env) "~/"))
          (realpath (cwd env) f (expanduser (home env) path)))
  else if isabs path then
    Ok (mkPath Absolute None (realpath (cwd env) f path))
  else
    rbind (check_basedir_valid basedir) (fun _ =>
    Ok (mkPath Relative basedir
          (realpath (cwd env) f (join (default EmptyString basedir) path)))).

(** [Path.__eq__] *)
Definition eq (self other : PathObj) : bool :=
  String.eqb (path self) (path other).

(** [x in l] on a list of [Path] objects. *)
Definition mem (x : PathObj) (l : list PathObj) : bool :=
  existsb (fun y => eq y x) l.

Definition to_relative (self : PathObj) (basedir : string) : result PathObj :=
  rbind (check_basedir_valid (Some basedir)) (fun _ =>
  rbind (relpath_checked (cwd env) (path self) basedir) (fun rel =>
  init rel (Some basedir))).

Definition rel_path (self : PathObj) : result string :=
  match _type self with
  | Absolute => Raise (ValueError "Calling rel_path() on an absolute path")
  | _ => relpath_checked (cwd env) (path self) (default "." (basedir self))
  end.

Definition with_extension (self : PathObj) (extension : string) : result PathObj :=
  rbind (with_suffix (path self) extension) (fun p =>
  Ok (mkPath (_type self) (basedir self) p)).

Definition isuser (self : PathObj) : bool :=
  match _type self with User => true | _ => false end.
Definition isabs (self : PathObj) : bool :=
  match _type self with Absolute => true | _ => false end.
Definition isrel (self : PathObj) : bool :=
  match _type self with Relative => true | _ => false end.

(** [str(self)]: class [Path] defines neither [__str__] nor
    [__repr__], so this is the default of [object]. *)
Definition str (self : PathObj) : string :=
  "<__main__.Path object at " +:+ addr_of env self +:+ ">".

Definition exists_ (self : PathObj) : bool := FS.exists_ (cwd env) f (path self).
Definition isfile (self : PathObj) : bool := FS.isfile (cwd env) f (path self).
Definition isdir (self : PathObj) : bool := FS.isdir (cwd env) f (path self).
Definition isemptyfile (self : PathObj) : bool :=
  isfile self && FS.is_empty (cwd env) f (path self).

Definition basename (self : PathObj) : string := PosixPath.basename (path self).

Definition parent_dir (self : PathObj) : PathObj :=
  mkPath (_type self) (basedir self) (dirname (path self)).

Definition read_lines (self : PathObj) : result (list string) :=
  rbind (FS.read (cwd env) f (path self)) (fun c => Ok (readlines c)).

Definition generated_by_us (self : PathObj) : result bool :=
  rbind (read_lines self) (fun lines =>
  Ok (existsb (fun line => Str.startswith line Constants.generated_by_us_string) lines)).

Definition list_from_key (key : yvalue) (config_dir : PathObj)
  : result (list PathObj) :=
  rbind (py_iter key) (rmap_list (fun p => init p (Some (path config_dir)))).

Fixpoint check_files_exist (paths : list PathObj) : result unit :=
  match paths with
  | [] => Ok tt
  | p :: paths' =>
      if negb (exists_ p) then Raise (FileNotFoundError (path p +:+ " doesn't exist"))
      else if negb (isfile p) then Raise (FileExistsError (path p +:+ " is not a file"))
      else check_files_exist paths'
  end.

Fixpoint check_dirs_exist (paths : list PathObj) : result unit :=
  match paths with
  | [] => Ok tt
  | p :: paths' =>
      if negb (exists_ p) then Raise (FileNotFoundError (path p +:+ " doesn't exist"))
      else if negb (isdir p) then Raise (FileExistsError (path p +:+ " is not a directory"))
      else check_dirs_exist paths'
  end.

End Reading.

(** [os.remove(self.path)] *)
Definition os_remove (self : PathObj) : M unit :=
  fun w => match FS.remove (cwd env) (fs w) (path self) with
           | Ok f' => (Ok tt, set_fs f' w)
           | Raise e => (Raise e, w)
           end.

Definition safely_remove_or_exit (self : PathObj) : M unit :=
  let* present := gets (fun w => exists_ (fs w) self) in
  if negb present then ret tt
  else
    let* plain := gets (fun w => isfile (fs w) self) in
    (if negb plain then
       Error.exit_on_error
         (path self +:+ " cannot be safely removed (not a file), please remove it manually")
     else ret tt) ;;
    let* ours := lift (fun f => generated_by_us f self) in
    let* empty := gets (fun w => isemptyfile (fs w) self) in
    (if negb ours && negb empty then
       Error.exit_on_error
         (path self
          +:+ " cannot be safely removed (not empty, not generated by us), please remove it manually")
     else ret tt) ;;
    os_remove self.

Definition write_lines (self : PathObj) (lines : list string) : M unit :=
  fun w => match FS.append (cwd env) (fs w) (path self) (Str.concat_all lines) with
           | Ok f' => (Ok tt, set_fs f' w)
           | Raise e => (Raise e, w)
           end.

End WithEnv.

End Path.

(* ===================================================================== *)
(** * class [Config] *)
(* ===================================================================== *)

Module Config.

Record t : Type := mk {
  main_paths : list PathObj;
  paths : list PathObj;
  fqbn : yvalue;
  cflags : list string;
  debug_command : yvalue;
  baudrate : yvalue;
  lib_paths : list PathObj;
  qmake_dirs : list PathObj;
  qmake_exclude_dirs : list PathObj
}.

Definition title_string (title : string) : string := " * " +:+ title +:+ ":".
Definition item_string (item : string) : string := "   - " +:+ item.

(** [key == name] for a string [name]: a key of another type is never
    equal to it. *)
Definition key_is (key : ykey) (name : string) : bool :=
  match key with
  | KStr s => String.eqb s name
  | _ => false
  end.

(** A key used where Python needs a [str], as in [text + key]. *)
Definition key_str (key : ykey) : result string :=
  match key with
  | KStr s => Ok s
  | _ => Raise TypeError
  end.

(** [dict.get(key)] on the entries of a mapping. *)
Definition entries_get (key : string) (entries : list (ykey * yvalue)) : option yvalue :=
  snd <$> List.find (fun e => key_is (fst e) key) entries.

(** [self.__str__()]; the concatenation with [self.fqbn] needs a
    string. *)
Definition to_str (self : t) : result string :=
  match fqbn self with
  | YStr board =>
      Ok (String.concat nl
            ([title_string "main configuration paths"]
             ++ map (fun p => item_string (path p)) (main_paths self)
             ++ [title_string "sub configurations"]
             ++ map (fun p => item_string (path p))
                  (List.filter (fun p => negb (Path.mem p (main_paths self))) (paths self))
             ++ [title_string "fqbn"; item_string board]
             ++ [title_string "libs"]
             ++ map (fun p => item_string (path p)) (lib_paths self)
             ++ [title_string "cflags"]
             ++ map item_string (cflags self)))
  | _ => Raise TypeError
  end.

Section WithEnv.
Variable env : Env.

(** [with open(path.path, "r") as file: data = yaml.safe_load(file)] *)
Definition load (p : PathObj) : M yaml :=
  let* content := lift (fun f => FS.read (cwd env) f (path p)) in
  modify (fun w => mkWorld (fs w) (extra_config_stack w) (stdout w)
                     (yaml_loads w ++ [path p])) ;;
  match safe_load env content with
  | Some data => ret data
  | None => raise YAMLError
  end.

Definition push (p : PathObj) : M unit :=
  modify (fun w => set_stack (extra_config_stack w ++ [p]) w).
Definition pop : M unit :=
  modify (fun w => set_stack (removelast (extra_config_stack w)) w).

(** [data.get("configs", [])], ready to be iterated. *)
Definition configs_of (data : yaml) : result (list string) :=
  match data with
  | YOther => Raise AttributeError
  | YMap entries =>
      match entries_get "configs" entries with
      | None => Ok []
      | Some v => Path.py_iter v
      end
  end.

(** The report [get_extra_configs] prints when [p] is already on the
    stack, before it exits. *)
Definition report_cycle (p : PathObj) (stack : list PathObj) : M unit :=
  print ("Circular configuration inclusion detected while parsing " +:+ path p) ;;
  print "Inclusion stack: " ;;
  for_each stack (fun stack_item => print (" - " +:+ path stack_item)) ;;
  Error.exit_on_error "Aborting due to circular configuration inclusion".

(** The loop [for config in data.get("configs", [])] of
    [get_extra_configs(path)]; [recurse] is the recursive call. *)
Fixpoint configs_loop (recurse : PathObj -> M (list PathObj)) (p : PathObj)
    (configs : list string) (acc : list PathObj) : M (list PathObj) :=
  match configs with
  | [] => ret acc
  | config :: configs' =>
      let* config_path :=
        lift (fun f => Path.init env f config (Some (path (Path.parent_dir p)))) in
      let* sub := recurse config_path in
      configs_loop recurse p configs' (acc ++ [config_path] ++ sub)
  end.

(** [Config.get_extra_configs(path)]; [depth] is what is left of the
    interpreter's recursion limit. *)
Fixpoint get_extra_configs (depth : nat) (p : PathObj) : M (list PathObj) :=
  match depth with
  | 0 => raise RecursionError
  | S depth' =>
      let* stack := gets extra_config_stack in
      (if Path.mem p stack then report_cycle p stack else ret tt) ;;
      push p ;;
      let* data := load p in
      let* configs := lift (fun _ => configs_of data) in
      let* r := configs_loop (get_extra_configs depth') p configs [] in
      pop ;;
      ret r
  end.

(** The first loop of [__init__]: every main path followed by its
    expanded inclusions. *)
Fixpoint expand (depth : nat) (paths : list PathObj) (acc : list PathObj)
  : M (list PathObj) :=
  match paths with
  | [] => ret acc
  | p :: paths' =>
      let* sub := get_extra_configs depth p in
      expand depth paths' (acc ++ [p] ++ sub)
  end.

(** One iteration of [for key in data.keys()]; the text of the warning
    is built before it is printed. *)
Definition merge_key (p : PathObj) (self : t) (entry : ykey * yvalue) : M t :=
  let '(key, value) := entry in
  if key_is key "fqbn" then
    ret (mk (main_paths self) (paths self) value (cflags self) (debug_command self)
           (baudrate self) (lib_paths self) (qmake_dirs self) (qmake_exclude_dirs self))
  else if key_is key "cflags" then
    let* items := lift (fun _ => Path.py_iter value) in
    ret (mk (main_paths self) (paths self) (fqbn self) (cflags self ++ items)
           (debug_command self) (baudrate self) (lib_paths self) (qmake_dirs self)
           (qmake_exclude_dirs self))
  else if key_is key "debug_command" then
    ret (mk (main_paths self) (paths self) (fqbn self) (cflags self) value
           (baudrate self) (lib_paths self) (qmake_dirs self) (qmake_exclude_dirs self))
  else if key_is key "baudrate" then
    ret (mk (main_paths self) (paths self) (fqbn self) (cflags self) (debug_command self)
           value (lib_paths self) (qmake_dirs self) (qmake_exclude_dirs self))
  else if key_is key "libs" then
    let* l := lift (fun f => Path.list_from_key env f value (Path.parent_dir p)) in
    ret (mk (main_paths self) (paths self) (fqbn self) (cflags self) (debug_command self)
           (baudrate self) (lib_paths self ++ l) (qmake_dirs self) (qmake_exclude_dirs self))
  else if key_is key "qmake_dirs" then
    let* l := lift (fun f => Path.list_from_key env f value (Path.parent_dir p)) in
    ret (mk (main_paths self) (paths self) (fqbn self) (cflags self) (debug_command self)
           (baudrate self) (lib_paths self) (qmake_dirs self ++ l) (qmake_exclude_dirs self))
  else if key_is key "qmake_exclude_dirs" then
    let* l := lift (fun f => Path.list_from_key env f value (Path.parent_dir p)) in
    ret (mk (main_paths self) (paths self) (fqbn self) (cflags self) (debug_command self)
           (baudrate self) (lib_paths self) (qmake_dirs self) (qmake_exclude_dirs self ++ l))
  else if key_is key "configs" then
    ret self
  else
    let* name := lift (fun _ => key_str key) in
    print ("Warning: unhandled key " +:+ name +:+ " in configuration file "
           +:+ Path.str env p) ;;
    ret self.

Fixpoint merge_keys (p : PathObj) (entries : list (ykey * yvalue)) (self : t) : M t :=
  match entries with
  | [] => ret self
  | entry :: entries' =>
      let* self' := merge_key p self entry in
      merge_keys p entries' self'
  end.

(** The body of [for path in self.paths]: the file is opened and
    parsed again, then its keys are merged. *)
Definition merge_layer (self : t) (p : PathObj) : M t :=
  let* data :=
    (fun w => match load p w with
              | (Raise YAMLError, w') =>
                  Error.exit_on_exception "Failed parsing configuration file" YAMLError w'
              | (Raise e, w') =>
                  Error.exit_on_exception "Failed opening configuration file" e w'
              | r => r
              end) in
  match data with
  | YOther => raise AttributeError
  | YMap entries => merge_keys p entries self
  end.

Fixpoint merge_layers (layers : list PathObj) (self : t) : M t :=
  match layers with
  | [] => ret self
  | p :: layers' =>
      let* self' := merge_layer self p in
      merge_layers layers' self'
  end.

(** [Config.__init__(paths)] *)
Definition init (depth : nat) (paths : list PathObj) : M t :=
  let* all := expand depth paths [] in
  let* self :=
    merge_layers all
      (mk paths all YNull [] (YStr "cat $$SERIALPORT") (YStr "115200") [] [] []) in
  (match fqbn self with
   | YNull => Error.exit_on_error "Missing fqbn field in configuration"
   | _ => ret tt
   end) ;;
  print EmptyString ;;
  print "Loaded configuration:" ;;
  let* text := lift (fun _ => to_str self) in
  print text ;;
  print EmptyString ;;
  ret self.

End WithEnv.

End Config.

(* ===================================================================== *)
(** * class [Makefile] *)
(* ===================================================================== *)

Definition dquote : string := String (Ascii.ascii_of_nat 34) EmptyString.
Definition tab : string := String (Ascii.ascii_of_nat 9) EmptyString.

(** A value used where Python needs a [str]. *)
Definition as_str (v : yvalue) : result string :=
  match v with
  | YStr s => Ok s
  | _ => Raise TypeError
  end.

Module Makefile.

Record t : Type := mk {
  path : PathObj;
  config : Config.t;
  sketch_path : PathObj;
  template_path : PathObj
}.

Section WithEnv.
Variable env : Env.

(** [Makefile.__init__] *)
Definition init (f : gmap string node) (config : Config.t)
    (path template_path sketch_path : PathObj) : result t :=
  rbind (Path.to_relative env f sketch_path (Path.to_string (Path.parent_dir path)))
    (fun sketch => Ok (mk path config sketch template_path)).

Definition lib_path_string (f : gmap string node) (self : t) (lib_path : PathObj)
  : result string :=
  if Path.isuser lib_path then
    rbind (Path.rel_path env lib_path) (fun r => Ok (join "$(HOME)" r))
  else if Path.isrel lib_path then
    rbind (Path.to_relative env f lib_path (Path.to_string (Path.parent_dir (path self))))
      (fun rel =>
    rbind (Path.rel_path env rel) (fun r => Ok (join "$(MAKEFILE_DIR)" r)))
  else Ok (Path.str env lib_path).

Definition replace_tokens (f : gmap string node) (self : t) (line : string)
    (sketch_path : PathObj) : result (list string) :=
  if Str.contains "LIBS_PLACEHOLDER" line then
    rbind (Path.check_dirs_exist env f (Config.lib_paths (config self))) (fun _ =>
    rmap_list
      (fun lib_path =>
         rbind (lib_path_string f self lib_path) (fun s =>
         Ok (tab +:+ tab +:+ "--library " +:+ dquote +:+ s +:+ dquote +:+ " \" +:+ nl)))
      (Config.lib_paths (config self)))
  else if Str.contains "FQBN_PLACEHOLDER" line then
    rbind (as_str (Config.fqbn (config self))) (fun v =>
    Ok [Str.replace line "FQBN_PLACEHOLDER" v])
  else if Str.contains "BINDIR_PLACEHOLDER" line then
    let bindir_suffix :=
      Str.replace_first (Path.basename (path self)) "Makefile" EmptyString in
    Ok [Str.replace line "BINDIR_PLACEHOLDER" ("bin" +:+ bindir_suffix)]
  else if Str.contains "BINFILE_PLACEHOLDER" line then
    rbind (Path.with_extension sketch_path ".ino.bin") (fun b =>
    Ok [Str.replace line "BINFILE_PLACEHOLDER" (basename (Path.to_string b))])
  else if Str.contains "CFLAGS_PLACEHOLDER" line then
    Ok [Str.replace line "CFLAGS_PLACEHOLDER"
          (String.concat " " (Config.cflags (config self)))]
  else if Str.contains "SKETCH_NOEXT_PLACEHOLDER" line then
    rbind (Path.to_relative env f sketch_path
             (Path.to_string (Path.parent_dir (path self)))) (fun rel =>
    rbind (Path.with_extension rel EmptyString) (fun noext =>
    rbind (Path.rel_path env noext) (fun r =>
    Ok [Str.replace line "SKETCH_NOEXT_PLACEHOLDER" r])))
  else if Str.contains "DEBUG_COMMAND_PLACEHOLDER" line then
    rbind (as_str (Config.debug_command (config self))) (fun v =>
    Ok [Str.replace line "DEBUG_COMMAND_PLACEHOLDER" v])
  else if Str.contains "BAUDRATE_PLACEHOLDER" line then
    rbind (as_str (Config.baudrate (config self))) (fun v =>
    Ok [Str.replace line "BAUDRATE_PLACEHOLDER" v])
  else Ok [line].

(** [for line in in_lines: out_lines += f(line)] *)
Fixpoint render (step : string -> result (list string)) (in_lines : list string)
    (out_lines : list string) : result (list string) :=
  match in_lines with
  | [] => Ok out_lines
  | line :: in_lines' =>
      rbind (step line) (fun l => render step in_lines' (out_lines ++ l))
  end.

Definition generate (self : t) : M unit :=
  Path.safely_remove_or_exit env (path self) ;;
  print ("Generating " +:+ Path.to_string (path self) +:+ "...") ;;
  let* in_lines := lift (fun f => Path.read_lines env f (template_path self)) in
  let* out_lines :=
    lift (fun f => render (fun line => replace_tokens f self line (sketch_path self))
                     in_lines (Constants.header_strings env)) in
  Path.write_lines env (path self) out_lines ;;
  print "Done".

End WithEnv.

End Makefile.

(* ===================================================================== *)
(** * class [Qmake] *)
(* ===================================================================== *)

Module Qmake.

Record t : Type := mk {
  path : PathObj;
  prifile_path : PathObj;
  config : Config.t;
  template_path : PathObj;
  prifile_template_path : PathObj;
  sketch_path : PathObj;
  makefile_path : PathObj;
  included_dirs : list PathObj;
  excluded_dirs : list PathObj;
  script_path : PathObj
}.

(** [define[2:].replace('\"', '\\\"')] *)
Definition to_qmake_define (define : string) : string :=
  Str.replace (Str.drop 2 define) ("\" +:+ dquote) ("\\\" +:+ dquote).

(** [Qmake.headers_dirs]; [prev_header_dir] is [None] before the first
    header. *)
Fixpoint headers_dirs_loop (headers : list PathObj) (prev_header_dir : option PathObj)
    (ret : list PathObj) : list PathObj :=
  match headers with
  | [] => ret
  | header :: headers' =>
      let header_dir := Path.parent_dir header in
      match prev_header_dir with
      | Some prev =>
          if Path.eq prev header_dir then headers_dirs_loop headers' prev_header_dir ret
          else headers_dirs_loop headers' (Some header_dir)
                 (if Path.mem header_dir ret then ret else ret ++ [header_dir])
      | None =>
          headers_dirs_loop headers' (Some header_dir)
            (if Path.mem header_dir ret then ret else ret ++ [header_dir])
      end
  end.

Definition headers_dirs (headers : list PathObj) : list PathObj :=
  headers_dirs_loop headers None [].

(** The exception of [cmd.split()[0]] on a command without a token. *)
Definition index_error : exn := IndexError.

(** What the scan of the build output in [get_defines] ends with: the
    definitions found, or the [IndexError] of [cmd.split()[0]]. *)
Inductive scan : Type :=
  | Defines (defines : list string)
  | IndexError.

(** The loop [for line in output.splitlines()]: a line that ends in a
    backslash is continued by the next one, and empty commands are
    left out. *)
Fixpoint command_lines (lines : list string) (cmd : string) (cmds : list string)
  : list string :=
  match lines with
  | [] => cmds
  | line :: lines' =>
      let cmd := cmd +:+ line in
      if Str.endswith cmd "\" then
        command_lines lines' (Str.take (String.length cmd - 1) cmd) cmds
      else
        command_lines lines' EmptyString
          (if String.eqb cmd EmptyString then cmds else cmds ++ [cmd])
  end.

(** The body of [for quoted_string in quoted_strings]. *)
Definition harvest_quoted (defines : list string) (quoted_string : string) : list string :=
  if Str.startswith quoted_string "-D" then
    let define := Str.replace quoted_string "BACKSLASH_QUOTE" ("\" +:+ dquote) in
    if existsb (String.eqb define) defines then defines else defines ++ [define]
  else defines.

(** The body of [for token in tokens]. *)
Definition harvest_token (defines : list string) (token : string) : list string :=
  if (Str.startswith token "-D" || Str.startswith token (dquote +:+ "-D")
      || Str.startswith token "'-D")
     && negb (Str.contains "BACKSLASH_QUOTE" token)
  then if existsb (String.eqb token) defines then defines else defines ++ [token]
  else defines.

(** The body of [for cmd in cmds]. *)
Definition harvest_command (defines : list string) (cmd : string) : scan :=
  match Str.split_ws cmd with
  | [] => IndexError
  | first :: _ =>
      if Str.endswith first "arduino-cli" then Defines defines
      else
        let cmd := Str.replace cmd ("\" +:+ dquote) "BACKSLASH_QUOTE" in
        let defines :=
          fold_left harvest_quoted (Str.findall_quoted (String.length cmd) cmd) defines in
        Defines (fold_left harvest_token (Str.split_ws cmd) defines)
  end.

Fixpoint harvest_commands (cmds : list string) (defines : list string) : scan :=
  match cmds with
  | [] => Defines defines
  | cmd :: cmds' =>
      match harvest_command defines cmd with
      | Defines defines' => harvest_commands cmds' defines'
      | IndexError => IndexError
      end
  end.

(** The part of [Qmake.get_defines] that follows the build: from the
    output of the build to the definitions. *)
Definition defines_of_output (output : string) : scan :=
  harvest_commands (command_lines (Str.splitlines output) EmptyString []) [].

Section WithEnv.
Variable env : Env.

(** [Qmake.__init__] *)
Definition init (f : gmap string node) (config : Config.t)
    (path template_path sketch_path makefile_path : PathObj) : result t :=
  rbind (Path.with_extension path ".pri") (fun prifile_path =>
  rbind (Path.with_extension template_path ".pri") (fun prifile_template_path =>
  rbind (Path.to_relative env f sketch_path (Path.to_string (Path.parent_dir path)))
    (fun sketch =>
  rbind (Path.with_extension path EmptyString) (fun script_path =>
  Ok (mk path prifile_path config template_path prifile_template_path sketch
        makefile_path
        ([Path.parent_dir sketch] ++ Config.lib_paths config ++ Config.qmake_dirs config)
        (Config.qmake_exclude_dirs config)
        script_path))))).

(** [Qmake.is_rawpath_excluded] *)
Fixpoint is_rawpath_excluded (raw_real_path : string) (excluded_dirs : list PathObj)
  : bool :=
  match excluded_dirs with
  | [] => false
  | excluded_dir :: excluded_dirs' =>
      if Str.startswith raw_real_path (Path.str env excluded_dir) then true
      else is_rawpath_excluded raw_real_path excluded_dirs'
  end.

Definition get_other_files (self : t) : list PathObj :=
  [makefile_path self] ++ Config.paths (config self).

(** [Qmake.raw_path_in_paths] *)
Fixpoint raw_path_in_paths (f : gmap string node) (raw_path : string)
    (paths : list PathObj) : bool :=
  match paths with
  | [] => false
  | p :: paths' =>
      if String.eqb (Path.str env p) (realpath (cwd env) f raw_path) then true
      else raw_path_in_paths f raw_path paths'
  end.

(** [Qmake.path_from_ancestor] *)
Definition path_from_ancestor (f : gmap string node)
    (ancestor qmake_path : PathObj) (raw_path : string) : result PathObj :=
  if Path.isuser ancestor then
    rbind (Path.relpath_checked (cwd env) raw_path (expanduser (home env) "~/"))
      (fun r => Path.init env f (join "~/" r) None)
  else if Path.isabs ancestor then Path.init env f raw_path None
  else
    rbind (Path.init env f raw_path None) (fun p =>
    Path.to_relative env f p (Path.to_string (Path.parent_dir qmake_path))).

(** The body of the inner loop of [get_files] for one [raw_path]; the
    state of the scan is [(ret, raw_paths)]. *)
Definition get_files_step (f : gmap string node) (self : t) (extensions : list string)
    (included_dir : PathObj) (acc : list PathObj * list string) (raw_path : string)
  : result (list PathObj * list string) :=
  let '(ret, raw_paths) := acc in
  let raw_real_path := realpath (cwd env) f raw_path in
  if is_rawpath_excluded raw_real_path (excluded_dirs self) then Ok acc
  else if negb (FS.isfile (cwd env) f raw_real_path) then Ok acc
  else if negb (existsb (String.eqb (snd (splitext raw_real_path))) extensions) then Ok acc
  else if existsb (String.eqb raw_real_path) raw_paths then Ok acc
  else
    rbind (path_from_ancestor f included_dir (path self) raw_real_path) (fun p =>
    Ok (ret ++ [p], raw_paths ++ [realpath (cwd env) f raw_real_path])).

Fixpoint rfold {A B} (step : A -> B -> result A) (l : list B) (acc : A) : result A :=
  match l with
  | [] => Ok acc
  | x :: l' => rbind (step acc x) (rfold step l')
  end.

(** [Qmake.get_files(extensions)] *)
Definition get_files (f : gmap string node) (self : t) (extensions : list string)
  : result (list PathObj) :=
  rbind
    (rfold
       (fun acc included_dir =>
          rfold (get_files_step f self extensions included_dir)
            (iglob env f (join (Path.to_string included_dir) "**")) acc)
       (included_dirs self) ([], []))
    (fun acc => Ok (fst acc)).

(** [Qmake.to_qmake_file_directive] *)
Definition to_qmake_file_directive (f : gmap string node)
    (file_path qmake_path : PathObj) : result string :=
  rbind
    (if Path.isuser file_path then
       rbind (Path.rel_path env file_path) (fun r => Ok ("$$HOME/" +:+ r))
     else if Path.isabs file_path then Ok (Path.to_string file_path)
     else
       rbind (Path.to_relative env f file_path
                (Path.to_string (Path.parent_dir qmake_path))) (fun rel =>
       Path.rel_path env rel))
    (fun path_string => Ok (tab +:+ path_string +:+ " \" +:+ nl)).

(** [Qmake.replace_tokens]; a line without a placeholder is returned
    as a string, which [out_lines += ...] then adds character by
    character. *)
Definition replace_tokens (f : gmap string node) (self : t) (line : string)
    (other_files headers sources includepaths : list PathObj) (defines : list string)
    (include_abs include_rel include_user : bool) : result (list string) :=
  let qmake_dir := Path.to_string (Path.parent_dir (path self)) in
  if Str.contains "TARGET_PLACEHOLDER" line then
    rbind (Path.with_extension (script_path self) EmptyString) (fun p =>
    rbind (Path.to_relative env f p qmake_dir) (fun rel =>
    rbind (Path.rel_path env rel) (fun r =>
    Ok [Str.replace line "TARGET_PLACEHOLDER" r])))
  else if Str.contains "MAKEFILE_PLACEHOLDER" line then
    rbind (Path.to_relative env f (makefile_path self) qmake_dir) (fun rel =>
    rbind (Path.rel_path env rel) (fun r =>
    Ok [Str.replace line "MAKEFILE_PLACEHOLDER" r]))
  else if Str.contains "PRIFILE_PLACEHOLDER" line then
    rbind (Path.to_relative env f (prifile_path self) qmake_dir) (fun rel =>
    rbind (Path.rel_path env rel) (fun r =>
    Ok [Str.replace line "PRIFILE_PLACEHOLDER" r]))
  else if Str.contains "DEFINES_PLACEHOLDER" line then
    Ok (map (fun define => tab +:+ to_qmake_define define +:+ " \" +:+ nl) defines)
  else
    let paths :=
      if Str.contains "OTHER_FILES_PLACEHOLDER" line then Some other_files
      else if Str.contains "SOURCES_PLACEHOLDER" line then Some sources
      else if Str.contains "HEADERS_PLACEHOLDER" line then Some headers
      else if Str.contains "INCLUDEPATH_PLACEHOLDER" line then Some includepaths
      else None in
    match paths with
    | Some paths =>
        rmap_list (fun p => to_qmake_file_directive f p (path self))
          (List.filter
             (fun p =>
                let isrel := Path.isrel p && negb (Path.isuser p) in
                isrel && include_rel || Path.isuser p && include_user
                || Path.isabs p && include_abs)
             paths)
    | None => Ok (Str.chars line)
    end.

(** [Qmake.get_defines]: the build is the toolchain's, and its effect
    on the file system is not followed. *)
Definition get_defines (makefile_path : PathObj) : M (list string) :=
  print "Building sketch to check proprocessor defines..." ;;
  let* run := gets (fun w => make_build env (fs w) (Path.to_string makefile_path)) in
  match run with
  | BuildFailed stderr =>
      print ("Got an exception while building the project, "
             +:+ "DEFINES variable won't be set in your qmake project") ;;
      print "Build output was:" ;;
      print EmptyString ;;
      print "***" ;;
      print stderr ;;
      print "***" ;;
      print EmptyString ;;
      ret []
  | Built output =>
      print "Done" ;;
      match defines_of_output output with
      | Defines defines => ret defines
      | IndexError => raise index_error
      end
  end.

(** [os.chmod(p, 0o755)]: the file must be there; permission bits are
    not kept. *)
Definition chmod (p : string) : M unit :=
  fun w => if FS.exists_ (cwd env) (fs w) p then (Ok tt, w)
           else (Raise (FileNotFoundError p), w).

(** [Qmake.create_runscript] *)
Definition create_runscript (self : t) : M unit :=
  Path.safely_remove_or_exit env (script_path self) ;;
  let* makefile_rel_path :=
    lift (fun f => Path.to_relative env f (makefile_path self)
                     (Path.to_string (Path.parent_dir (script_path self)))) in
  let* r := lift (fun _ => Path.rel_path env makefile_rel_path) in
  let out_lines :=
    ["#!/bin/sh" +:+ nl] ++ Constants.header_strings env
    ++ ["make -f " +:+ r +:+ " run" +:+ nl] in
  Path.write_lines env (script_path self) out_lines ;;
  chmod (Path.to_string (script_path self)).

(** [Qmake.generate] *)
Definition generate (self : t) : M unit :=
  Path.safely_remove_or_exit env (path self) ;;
  Path.safely_remove_or_exit env (prifile_path self) ;;
  print "Scanning files for qmake generation..." ;;
  print ("Getting " +:+ dquote +:+ "OTHER_FILES" +:+ dquote +:+ "...") ;;
  let other_files := get_other_files self in
  print ("Getting " +:+ dquote +:+ "HEADERS" +:+ dquote +:+ "...") ;;
  let* headers := lift (fun f => get_files f self [".h"; ".hpp"]) in
  print ("Getting " +:+ dquote +:+ "SOURCES" +:+ dquote +:+ "...") ;;
  let* sources := lift (fun f => get_files f self [".c"; ".cpp"]) in
  let sources := sketch_path self :: sources in
  print ("Getting " +:+ dquote +:+ "INCLUDEPATH" +:+ dquote +:+ "...") ;;
  let includepaths := headers_dirs headers in
  print "Done" ;;
  let* defines := get_defines (makefile_path self) in
  print ("Generating " +:+ Path.to_string (path self) +:+ "...") ;;
  let* in_lines := lift (fun f => Path.read_lines env f (template_path self)) in
  let* out_lines :=
    lift (fun f =>
            Makefile.render
              (fun line => replace_tokens f self line other_files headers sources
                             includepaths defines false true false)
              in_lines (Constants.header_strings env)) in
  Path.write_lines env (path self) out_lines ;;
  print "Done" ;;
  print ("Generating " +:+ Path.to_string (prifile_path self) +:+ "...") ;;
  let* in_lines := lift (fun f => Path.read_lines env f (prifile_template_path self)) in
  let* out_lines :=
    lift (fun f =>
            Makefile.render
              (fun line => replace_tokens f self line other_files headers sources
                             includepaths defines true false true)
              in_lines (Constants.header_strings env)) in
  Path.write_lines env (prifile_path self) out_lines ;;
  print "Done" ;;
  create_runscript self.

End WithEnv.

End Qmake.

(* ===================================================================== *)
(** * [Paths] and [main] *)
(* ===================================================================== *)

Module Paths.

Section WithEnv.
Variable env : Env.
Variable f : gmap string node.

Definition templates_dir : result PathObj :=
  Path.init env f (join (script_dir env) "templates") None.

Definition makefile_default_template_path : result PathObj :=
  rbind templates_dir (fun d => Path.init env f (join (Path.to_string d) "Makefile") None).

Definition qmake_default_template_path : result PathObj :=
  rbind templates_dir (fun d => Path.init env f (join (Path.to_string d) "qmake.pro") None).

End WithEnv.

End Paths.

(** The parsed command line. *)
Record Args : Type := mkArgs {
  sketch : string;
  config : list string;
  makefile : string;
  makefile_template : option string;
  qmake : option string;
  qmake_template : option string
}.

(** The truth value of an optional argument: absent and empty are both
    false. *)
Definition truthy (a : option string) : option string :=
  match a with
  | Some s => if String.eqb s EmptyString then None else Some s
  | None => None
  end.

(** What [main] has built when the required files have been checked. *)
Record Checked : Type := mkChecked {
  sketch_path : PathObj;
  config_paths : list PathObj;
  makefile_path : PathObj;
  makefile_template_path : PathObj;
  qmake_paths : option (PathObj * PathObj)
}.

Section Main.
Variable env : Env.

(** The first part of [main()], after [parser.parse_args()] and up to
    [Path.check_files_exist(required_files)]. *)
Definition main_checks (args : Args) : M Checked :=
  let base := Some (cwd env) in
  let* sketch_path := lift (fun f => Path.init env f (sketch args) base) in
  let* config_paths :=
    lift (fun f => rmap_list (fun c => Path.init env f c base) (config args)) in
  let required_files := [sketch_path] ++ config_paths in
  (if negb (Str.startswith (basename (makefile args)) "Makefile") then
     Error.exit_on_error
       ("Please use a Makefile base name starting with " +:+ dquote +:+ "Makefile" +:+ dquote)
   else ret tt) ;;
  let* makefile_path := lift (fun f => Path.init env f (makefile args) base) in
  let* makefile_template_path :=
    lift (fun f => match truthy (makefile_template args) with
                   | Some t => Path.init env f t base
                   | None => Paths.makefile_default_template_path env f
                   end) in
  let required_files := required_files ++ [makefile_template_path] in
  let* qmake_path :=
    lift (fun f => match truthy (qmake args) with
                   | Some q => rbind (Path.init env f q base) (fun p => Ok (Some p))
                   | None => Ok None
                   end) in
  let* qmake_paths :=
    match qmake_path with
    | Some qmake_path =>
        (if negb (Str.endswith (default EmptyString (qmake args)) ".pro") then
           Error.exit_on_error
             ("Please use a qmake file name ending with " +:+ dquote +:+ ".pro" +:+ dquote)
         else ret tt) ;;
        let* qmake_template_path :=
          lift (fun f => match truthy (qmake_template args) with
                         | Some t => Path.init env f t base
                         | None => Paths.qmake_default_template_path env f
                         end) in
        ret (Some (qmake_path, qmake_template_path))
    | None => ret None
    end in
  let required_files :=
    required_files ++ match qmake_paths with Some (_, t) => [t] | None => [] end in
  lift (fun f => Path.check_files_exist env f required_files) ;;
  ret (mkChecked sketch_path config_paths makefile_path makefile_template_path qmake_paths).

(** The last part of [main()], from [Makefile(...)] on.  The elapsed
    time of the final message is not computed. *)
Definition main_generate (c : Checked) (config : Config.t) : M unit :=
  let* makefile :=
    lift (fun f => Makefile.init env f config (makefile_path c) (makefile_template_path c)
                     (sketch_path c)) in
  Makefile.generate env makefile ;;
  match qmake_paths c with
  | Some (qmake_path, qmake_template_path) =>
      let* qmakefile :=
        lift (fun f => Qmake.init env f config qmake_path qmake_template_path
                         (sketch_path c) (makefile_path c)) in
      Qmake.generate env qmakefile
  | None => ret tt
  end ;;
  print "Files generated".

(** [main()]; [depth] is the recursion limit left to the configuration
    loader. *)
Definition main (depth : nat) (args : Args) : M unit :=
  let* c := main_checks args in
  let* config := Config.init env depth (config_paths c) in
  main_generate c config.

End Main.

(* ===================================================================== *)
(** * Canonical locations *)
(* ===================================================================== *)

(** A component of a normalized path: not empty, not [.] or [..], and
    without a slash. *)
Definition good_name (n : string) : bool :=
  negb (String.eqb n EmptyString) && negb (String.eqb n ".")
  && negb (String.eqb n "..") && Str.no_slash n.

(** The absolute path with the components [cs]. *)
Definition abs_of (cs : list string) : string := "/" +:+ String.concat "/" cs.

Definition is_link (o : option node) : bool :=
  match o with Some (Symlink _) => true | _ => false end.

(** No name reached from [pre] along [cs] is a symbolic link. *)
Fixpoint no_links_from (f : gmap string node) (pre : string) (cs : list string) : bool :=
  match cs with
  | [] => true
  | c :: cs' =>
      negb (is_link (node_at f (join pre c))) && no_links_from f (join pre c) cs'
  end.

(** [p] is a canonical location of [f]: absolute, normalized, and free of
    symbolic links. *)
Definition is_canonical (f : gmap string node) (p : string) : bool :=
  let cs := nonempty_comps p in
  String.eqb p (abs_of cs) && forallb good_name cs && no_links_from f "/" cs.

(** A component of a relative path: a name or [..]. *)
Definition rel_name (n : string) : bool :=
  negb (String.eqb n EmptyString) && Str.no_slash n.

(** The components of the relative path from [bs] to [ps]. *)
Definition rel_comps (bs ps : list string) : list string :=
  repeat ".." (length bs - common_prefix_len bs ps)
  ++ List.skipn (common_prefix_len bs ps) ps.

Definition rel_comps_or_dot (bs ps : list string) : list string :=
  match rel_comps bs ps with
  | [] => ["."]
  | l => l
  end.

(** The recursive call [_joinrealpath] has at its disposal with [fuel]
    nested links left. *)
Definition resolver (cwd : string) (f : gmap string node) (fuel : nat) :=
  match fuel with
  | 0 => None
  | S fuel' => Some (joinrealpath cwd f fuel')
  end.

(* ===================================================================== *)
(** * Invariants of [Path] objects *)
(* ===================================================================== *)

(** What [Path.__init__] establishes and [parent_dir] and
    [with_extension] keep: the location is absolute, a user path is based
    on the home directory, a relative path has a base directory and an
    absolute path has none. *)
Definition Path_wf (env : Env) (self : PathObj) : Prop :=
  isabs (path self) = true /\
  match _type self with
  | User => basedir self = Some (expanduser (home env) "~/")
  | Relative => exists b, basedir self = Some b
  | Absolute => basedir self = None
  end.

(* ===================================================================== *)
(** * File systems with the same links; lines of text *)
(* ===================================================================== *)

(** Two file systems have their symbolic links at the same names. *)
Definition same_links (f f' : gmap string node) : Prop :=
  forall q, is_link (node_at f q) = is_link (node_at f' q).

(** A text without a line feed, and one without a carriage return. *)
Fixpoint no_lf (s : string) : bool :=
  match s with
  | EmptyString => true
  | String c s' => negb (Ascii.eqb c LF) && no_lf s'
  end.

Fixpoint no_cr (s : string) : bool :=
  match s with
  | EmptyString => true
  | String c s' => negb (Ascii.eqb c CR) && no_cr s'
  end.

(** The marker line without its line feed. *)
Definition marker_text : string := "# Generated by arduino-genmakefile".

(* ===================================================================== *)
(** * What merging the layers means *)
(* ===================================================================== *)

(** The entries of a mapping whose keys are all strings. *)
Definition string_keyed (entries : list (string * yvalue)) : list (ykey * yvalue) :=
  map (fun e => (KStr (fst e), snd e)) entries.

(** A layer: a configuration file and the entries of its mapping, keyed
    by strings.  The entries of all layers in order, each with its
    declaring file: *)
Definition flatten (layers : list (PathObj * list (string * yvalue)))
  : list (PathObj * (string * yvalue)) :=
  flat_map (fun l => map (pair (fst l)) (snd l)) layers.

(** The strings a list-valued entry holds. *)
Definition items_of (v : yvalue) : list string :=
  match v with
  | YSeq l => l
  | YStr s => Str.chars s
  | _ => []
  end.

(** List-valued fields append: everything declared under [key], in order. *)
Definition appended (key : string) (es : list (PathObj * (string * yvalue))) : list string :=
  flat_map (fun e => if String.eqb (fst (snd e)) key then items_of (snd (snd e)) else []) es.

(** Scalar fields overwrite: the last value declared under [key], or
    [d] when there is none. *)
Definition last_value (key : string) (d : yvalue)
    (es : list (PathObj * (string * yvalue))) : yvalue :=
  match List.find (fun e => String.eqb (fst (snd e)) key) (rev es) with
  | Some e => snd (snd e)
  | None => d
  end.

(** The strings declared under [key], each with its declaring file. *)
Definition declared (key : string) (es : list (PathObj * (string * yvalue)))
  : list (PathObj * string) :=
  flat_map (fun e => if String.eqb (fst (snd e)) key
                     then map (pair (fst e)) (items_of (snd (snd e))) else []) es.

(** A declared path string resolved against the parent directory of its
    declaring file. *)
Definition resolve_declared (env : Env) (f : gmap string node) (d : PathObj * string)
  : result PathObj :=
  Path.init env f (snd d) (Some (dirname (path (fst d)))).

Definition known_key (key : string) : bool :=
  existsb (String.eqb key)
    ["fqbn"; "cflags"; "debug_command"; "baudrate"; "libs"; "qmake_dirs";
     "qmake_exclude_dirs"; "configs"].

(** One warning for every entry under an unrecognized key. *)
Definition warnings (env : Env) (es : list (PathObj * (string * yvalue))) : list string :=
  flat_map (fun e => if known_key (fst (snd e)) then []
                     else ["Warning: unhandled key " +:+ fst (snd e)
                           +:+ " in configuration file " +:+ Path.str env (fst e)]) es.

(** The file of a layer can be read and parses to its entries. *)
Definition layer_loads (env : Env) (f : gmap string node)
    (l : PathObj * list (string * yvalue)) : Prop :=
  exists content,
    FS.read (cwd env) f (path (fst l)) = Ok content
    /\ safe_load env content = Some (YMap (string_keyed (snd l))).

Definition is_ok {A} (r : result A) : bool :=
  match r with Ok _ => true | Raise _ => false end.

(** The list-valued entries of a layer can be iterated, and its path
    strings can be resolved. *)
Definition entry_ok (env : Env) (f : gmap string node) (p : PathObj)
    (e : string * yvalue) : bool :=
  if String.eqb (fst e) "cflags" then is_ok (Path.py_iter (snd e))
  else if String.eqb (fst e) "libs" || String.eqb (fst e) "qmake_dirs"
          || String.eqb (fst e) "qmake_exclude_dirs"
  then is_ok (Path.list_from_key env f (snd e) (Path.parent_dir p))
  else true.

Definition layer_ok (env : Env) (f : gmap string node)
    (l : PathObj * list (string * yvalue)) : bool :=
  forallb (entry_ok env f (fst l)) (snd l).

(** What has been merged from the entries [es] into [self], starting from
    [self0] in the world [w0]. *)
Record merged (env : Env) (self0 : Config.t) (w0 : world)
    (es : list (PathObj * (string * yvalue))) (self : Config.t) (w : world) : Prop :=
  mkMerged {
    merged_main_paths : Config.main_paths self = Config.main_paths self0;
    merged_paths : Config.paths self = Config.paths self0;
    merged_fqbn : Config.fqbn self = last_value "fqbn" (Config.fqbn self0) es;
    merged_cflags : Config.cflags self = Config.cflags self0 ++ appended "cflags" es;
    merged_debug_command :
      Config.debug_command self = last_value "debug_command" (Config.debug_command self0) es;
    merged_baudrate :
      Config.baudrate self = last_value "baudrate" (Config.baudrate self0) es;
    merged_lib_paths :
      exists l, rmap_list (resolve_declared env (fs w0)) (declared "libs" es) = Ok l
                /\ Config.lib_paths self = Config.lib_paths self0 ++ l;
    merged_qmake_dirs :
      exists l, rmap_list (resolve_declared env (fs w0)) (declared "qmake_dirs" es) = Ok l
                /\ Config.qmake_dirs self = Config.qmake_dirs self0 ++ l;
    merged_qmake_exclude_dirs :
      exists l, rmap_list (resolve_declared env (fs w0)) (declared "qmake_exclude_dirs" es)
                = Ok l
                /\ Config.qmake_exclude_dirs self = Config.qmake_exclude_dirs self0 ++ l;
    merged_stdout : stdout w = stdout w0 ++ warnings env es;
    merged_fs : fs w = fs w0;
    merged_stack : extra_config_stack w = extra_config_stack w0
  }.

(* ===================================================================== *)
(** * Properties of computations *)
(* ===================================================================== *)

(** A computation that leaves the file system as it is, whatever its
    outcome. *)
Definition fs_stable {A} (m : M A) : Prop :=
  forall w r w', m w = (r, w') -> fs w' = fs w.

(** A computation that, when it returns, has left the inclusion stack as
    it found it. *)
Definition balanced {A} (m : M A) : Prop :=
  forall w a w', m w = (Ok a, w') -> extra_config_stack w' = extra_config_stack w.

(** Two worlds with the same file system and the same inclusion stack. *)
Definition sim (w1 w2 : world) : Prop :=
  fs w1 = fs w2 /\ extra_config_stack w1 = extra_config_stack w2.

(** A computation whose outcome, file system and stack depend on the
    file system and the stack only, not on what was printed or loaded
    before. *)
Definition respects {A} (m : M A) : Prop :=
  forall w1 w2, sim w1 w2 -> fst (m w1) = fst (m w2) /\ sim (snd (m w1)) (snd (m w2)).

(** The lines [report_cycle] prints. *)
Definition cycle_report (p : PathObj) (stack : list PathObj) : list string :=
  ["Circular configuration inclusion detected while parsing " +:+ path p;
   "Inclusion stack: "]
  ++ map (fun stack_item => " - " +:+ path stack_item) stack.

Definition CircularInclusion : exn :=
  Exception "Aborting due to circular configuration inclusion".

Definition MissingRequiredField : exn :=
  Exception "Missing fqbn field in configuration".

(** A computation that leaves the whole state as it is. *)
Definition stateless {A} (m : M A) : Prop :=
  forall w r w', m w = (r, w') -> w' = w.

(** No entry sets the board identifier. *)
Definition no_fqbn (es : list (PathObj * (string * yvalue))) : bool :=
  forallb (fun e => negb (String.eqb (fst (snd e)) "fqbn")) es.

(* ===================================================================== *)
(** * Messages and generated texts *)
(* ===================================================================== *)



(** The content of a file that was written from the header on. *)
Definition headed (env : Env) (c : string) : Prop :=
  exists tail more, c = Str.concat_all (Constants.header_strings env ++ tail) +:+ more.

Definition fs_ex1 : gmap string node :=
  list_to_map
    [("/a", Dir); ("/a/link", Symlink "/x/y/z"); ("/x", Dir); ("/x/y", Dir);
     ("/x/y/z", Dir); ("/x/y/z/p", File "hello"); ("/a/rel", Symlink "../x/./y");
     ("/a/loop", Symlink "loop2"); ("/a/loop2", Symlink "/a/loop");
     ("/a/twice", Symlink "link/../../a/link")].

(* ===================================================================== *)
(** * Concrete worlds *)
(* ===================================================================== *)

(** A YAML parser given by the table of the documents it knows. *)
Definition table_load (tbl : list (string * yaml)) (content : string) : option yaml :=
  snd <$> List.find (fun e => String.eqb (fst e) content) tbl.

(** A project in [/proj], the script in [/opt/agm], the home directory
    [/home/u]. *)
Definition env_demo : Env :=
  mkEnv "/proj" (Some "/home/u")
    ["./arduino-genmakefile.py"; "--sketch"; "s.ino"] "/opt/agm"
    (table_load
       [("A", YMap (string_keyed [("configs", YSeq ["b.yaml"])]));
        ("B", YMap (string_keyed [("configs", YSeq ["a.yaml"])]));
        ("M", YMap (string_keyed [("configs", YSeq ["missing.yaml"])]));
        ("F", YMap (string_keyed [("fqbn", YStr "arduino:avr:uno");
                    ("libs", YSeq ["nolib"])]));
        ("D", YMap (string_keyed [("cflags", YSeq ["-DX"])]));
        ("X", YMap (string_keyed [("cflags", YSeq ["a"]); ("baudrate", YStr "9600");
                    ("colour", YStr "red"); ("libs", YSeq ["libA"])]));
        ("Y", YMap (string_keyed [("cflags", YSeq ["b"]); ("baudrate", YStr "57600")]));
        ("AD", YMap (string_keyed [("configs", YSeq ["d.yaml"; "b2.yaml"])]));
        ("BD", YMap (string_keyed [("configs", YSeq ["d.yaml"; "a2.yaml"])]))])
    (fun _ _ => []) (fun _ _ => Built EmptyString) (fun _ => "0x7f00").

Definition user_lib : PathObj := mkPath User (Some "/home/u/") "/home/u/Arduino/lib".

Definition fs_demo : gmap string node :=
  list_to_map
    [("/proj", Dir); ("/proj/a.yaml", File "A"); ("/proj/b.yaml", File "B");
     ("/proj/m.yaml", File "M"); ("/proj/f.yaml", File "F"); ("/proj/d.yaml", File "D");
     ("/proj/x.yaml", File "X"); ("/proj/y.yaml", File "Y");
     ("/proj/a2.yaml", File "AD"); ("/proj/b2.yaml", File "BD");
     ("/proj/s.ino", File "void setup(){}");
     ("/proj/Makefile", File (Constants.generated_by_us_string +:+ "old"));
     ("/opt", Dir); ("/opt/agm", Dir); ("/opt/agm/templates", Dir);
     ("/opt/agm/templates/Makefile",
      File ("LIBS_PLACEHOLDER" +:+ nl +:+ "x FQBN_PLACEHOLDER y" +:+ nl))].

Definition world_demo : world := mkWorld fs_demo [] [] [].




(** The layers X and Y: compile flags [a] then [b], baud rate 9600 then
    57600; X also has a library and a key that is not recognized. *)
Definition layer_X : PathObj * list (string * yvalue) :=
  (mkPath Relative (Some "/proj") "/proj/x.yaml",
   [("cflags", YSeq ["a"]); ("baudrate", YStr "9600"); ("colour", YStr "red");
    ("libs", YSeq ["libA"])]).

Definition layer_Y : PathObj * list (string * yvalue) :=
  (mkPath Relative (Some "/proj") "/proj/y.yaml",
   [("cflags", YSeq ["b"]); ("baudrate", YStr "57600")]).

Definition config_defaults (paths all : list PathObj) : Config.t :=
  Config.mk paths all YNull [] (YStr "cat $$SERIALPORT") (YStr "115200") [] [] [].

Definition proj_path (name : string) : PathObj :=
  mkPath Relative (Some "/proj") ("/proj/" +:+ name).

Definition args_no_fqbn : Args := mkArgs "s.ino" ["d.yaml"] "Makefile" None None None.

Definition layer_D : PathObj * list (string * yvalue) :=
  (proj_path "d.yaml", [("cflags", YSeq ["-DX"])]).

Definition checked_demo : Checked :=
  mkChecked (proj_path "s.ino") [proj_path "d.yaml"] (proj_path "Makefile")
    (mkPath Absolute None "/opt/agm/templates/Makefile") None.

(** A configuration without libraries, and the descriptors generated
    from it. *)
Definition config_demo : Config.t :=
  Config.mk [proj_path "f.yaml"] [proj_path "f.yaml"] (YStr "arduino:avr:uno") ["-DX"]
    (YStr "cat $$SERIALPORT") (YStr "115200") [] [] [].

Definition makefile_demo : Makefile.t :=
  Makefile.mk (proj_path "Makefile") config_demo (proj_path "s.ino")
    (mkPath Absolute None "/opt/agm/templates/Makefile").

Definition fs_qmake : gmap string node :=
  <["/opt/agm/templates/qmake.pro" :=
      File ("TARGET = TARGET_PLACEHOLDER" +:+ nl +:+ "include(PRIFILE_PLACEHOLDER)" +:+ nl)]>
    (<["/opt/agm/templates/qmake.pri" := File ("SOURCES += \" +:+ nl +:+ "SOURCES_PLACEHOLDER" +:+ nl)]>
       fs_demo).

Definition world_qmake : world := mkWorld fs_qmake [] [] [].

Definition qmake_demo : Qmake.t :=
  Qmake.mk (proj_path "proj.pro") (proj_path "proj.pri") config_demo
    (mkPath Absolute None "/opt/agm/templates/qmake.pro")
    (mkPath Absolute None "/opt/agm/templates/qmake.pri")
    (proj_path "s.ino") (proj_path "Makefile") [mkPath Relative (Some "/proj") "/proj"] []
    (proj_path "proj").

(** A configuration whose library directory does not exist, next to a
    descriptor of an earlier run. *)
Definition args_missing_lib : Args := mkArgs "s.ino" ["f.yaml"] "Makefile" None None None.

(** A project with headers, one of them under an excluded directory. *)
Definition fs_scan : gmap string node :=
  list_to_map
    [("/proj", Dir); ("/proj/ex", Dir); ("/proj/ex/a.h", File "a");
     ("/proj/b.h", File "b"); ("/proj/s.ino", File "void setup(){}")].

Definition env_scan : Env :=
  mkEnv "/proj" (Some "/home/u") ["./arduino-genmakefile.py"] "/opt/agm"
    (fun _ => None)
    (fun _ pattern =>
       if String.eqb pattern "/proj/**"
       then ["/proj/"; "/proj/ex"; "/proj/ex/a.h"; "/proj/b.h"; "/proj/s.ino"]
       else [])
    (fun _ _ => Built EmptyString) (fun _ => "0x7f00").

Definition config_scan : Config.t :=
  Config.mk [] [] (YStr "arduino:avr:uno") [] (YStr "cat $$SERIALPORT") (YStr "115200")
    [] [] [proj_path "ex"].

Definition qmake_scan : Qmake.t :=
  Qmake.mk (proj_path "proj.pro") (proj_path "proj.pri") config_scan
    (mkPath Absolute None "/opt/agm/templates/qmake.pro")
    (mkPath Absolute None "/opt/agm/templates/qmake.pri")
    (proj_path "s.ino") (proj_path "Makefile") [mkPath Relative (Some "/proj") "/proj"]
    [proj_path "ex"] (proj_path "proj").

(** A configuration file with a key that is not a string: the parser
    gives the key of the line [1: x] as the number 1.  Beside it, the
    same file with the key [colour]. *)
Definition number_key_text : string :=
  "fqbn: arduino:avr:uno" +:+ nl +:+ "1: x" +:+ nl.

Definition string_key_text : string :=
  "fqbn: arduino:avr:uno" +:+ nl +:+ "colour: x" +:+ nl.

Definition env_keys : Env :=
  mkEnv "/proj" (Some "/home/u") ["./arduino-genmakefile.py"] "/opt/agm"
    (table_load
       [(number_key_text, YMap [(KStr "fqbn", YStr "arduino:avr:uno"); (KNum 1, YStr "x")]);
        (string_key_text,
         YMap [(KStr "fqbn", YStr "arduino:avr:uno"); (KStr "colour", YStr "x")])])
    (fun _ _ => []) (fun _ _ => Built EmptyString) (fun _ => "0x7f00").

Definition fs_keys : gmap string node :=
  list_to_map
    [("/proj", Dir); ("/proj/k.yaml", File number_key_text);
     ("/proj/s.yaml", File string_key_text)].

Definition world_keys : world := mkWorld fs_keys [] [] [].

(* ===================================================================== *)
(** * Further notions used in the properties of the code *)
(* ===================================================================== *)

(** The paths of [l] added to [acc] in order, each location once. *)
Fixpoint distinct_locations (l acc : list PathObj) : list PathObj :=
  match l with
  | [] => acc
  | x :: l' => distinct_locations l' (if Path.mem x acc then acc else acc ++ [x])
  end.

(** A normalized absolute path: the components are names, and the path
    starts with one slash, or with exactly two. *)
Definition normalized (p : string) : Prop :=
  exists cs, forallb good_name cs = true /\ (p = abs_of cs \/ p = "/" +:+ abs_of cs).

(** The inclusions of a configuration file, as [get_extra_configs]
    returns them in the world [w]; none when it raises. *)
Definition inclusions (env : Env) (depth : nat) (w : world) (p : PathObj) : list PathObj :=
  match fst (Config.get_extra_configs env depth p w) with
  | Ok l => l
  | Raise _ => []
  end.

(** A computation that hands no file to the YAML parser. *)
Definition parses_nothing {A} (m : M A) : Prop :=
  forall w r w', m w = (r, w') -> yaml_loads w' = yaml_loads w.

(** What [get_defines] keeps: a text that starts with [-D], possibly
    after a quote. *)
Definition define_like (d : string) : Prop :=
  Str.startswith d "-D" = true
  \/ Str.startswith d (dquote +:+ "-D") = true
  \/ Str.startswith d "'-D" = true.

(** The definitions harvested so far are pairwise different and look
    like definitions. *)
Definition harvest_inv (defines : list string) : Prop :=
  NoDup defines /\ Forall define_like defines.

(** The world after [print(line)]. *)
Definition printed (line : string) (w : world) : world :=
  mkWorld (fs w) (extra_config_stack w) (stdout w ++ [line]) (yaml_loads w).

(** A line without a placeholder of the Makefile template. *)
Definition makefile_plain (line : string) : bool :=
  negb (Str.contains "LIBS_PLACEHOLDER" line)
  && negb (Str.contains "FQBN_PLACEHOLDER" line)
  && negb (Str.contains "BINDIR_PLACEHOLDER" line)
  && negb (Str.contains "BINFILE_PLACEHOLDER" line)
  && negb (Str.contains "CFLAGS_PLACEHOLDER" line)
  && negb (Str.contains "SKETCH_NOEXT_PLACEHOLDER" line)
  && negb (Str.contains "DEBUG_COMMAND_PLACEHOLDER" line)
  && negb (Str.contains "BAUDRATE_PLACEHOLDER" line).

(** A line without a placeholder of the qmake templates. *)
Definition qmake_plain (line : string) : bool :=
  negb (Str.contains "TARGET_PLACEHOLDER" line)
  && negb (Str.contains "MAKEFILE_PLACEHOLDER" line)
  && negb (Str.contains "PRIFILE_PLACEHOLDER" line)
  && negb (Str.contains "DEFINES_PLACEHOLDER" line)
  && negb (Str.contains "OTHER_FILES_PLACEHOLDER" line)
  && negb (Str.contains "SOURCES_PLACEHOLDER" line)
  && negb (Str.contains "HEADERS_PLACEHOLDER" line)
  && negb (Str.contains "INCLUDEPATH_PLACEHOLDER" line).

(** A line of text with its line feed, and no other line ending in it. *)
Definition terminated_line (l : string) : Prop :=
  exists m, l = m +:+ nl /\ no_lf m = true /\ no_cr m = true.

(** The names a scan meets, in scan order: each with the root it is
    found under, and resolved to its canonical location. *)
Definition scanned (env : Env) (f : gmap string node) (self : Qmake.t)
  : list (PathObj * string) :=
  flat_map (fun d => map (fun raw => (d, realpath (cwd env) f raw))
                       (iglob env f (join (Path.to_string d) "**")))
    (Qmake.included_dirs self).

(** A regular file with one of the extensions. *)
Definition wanted (env : Env) (f : gmap string node) (extensions : list string)
    (c : PathObj * string) : bool :=
  FS.isfile (cwd env) f (snd c)
  && existsb (String.eqb (snd (splitext (snd c)))) extensions.

(** The first occurrence of every location that is not in [seen]. *)
Fixpoint first_by_location (l : list (PathObj * string)) (seen : list string)
  : list (PathObj * string) :=
  match l with
  | [] => []
  | c :: l' =>
      if existsb (String.eqb (snd c)) seen then first_by_location l' seen
      else c :: first_by_location l' (seen ++ [snd c])
  end.

(* ===================================================================== *)
(** * Further concrete worlds *)
(* ===================================================================== *)

(** A template without a placeholder. *)
Definition plain_template : string :=
  "all:" +:+ nl +:+ tab +:+ "echo done" +:+ nl.

Definition fs_plain : gmap string node :=
  list_to_map
    [("/proj", Dir); ("/proj/s.ino", File "void setup(){}"); ("/opt", Dir);
     ("/opt/plain", File plain_template)].

Definition world_plain : world := mkWorld fs_plain [] [] [].

Definition makefile_plain_demo : Makefile.t :=
  Makefile.mk (proj_path "Makefile") config_demo (proj_path "s.ino")
    (mkPath Absolute None "/opt/plain").

(** A project whose top configuration includes two others, and a
    configuration whose board identifier is a number. *)
Definition env_incl : Env :=
  mkEnv "/proj" (Some "/home/u") ["./arduino-genmakefile.py"] "/opt/agm"
    (table_load
       [("T", YMap (string_keyed [("configs", YSeq ["f.yaml"; "sub/d.yaml"])]));
        ("F", YMap (string_keyed [("fqbn", YStr "arduino:avr:uno");
                    ("cflags", YSeq ["-Os"])]));
        ("D", YMap (string_keyed [("cflags", YSeq ["-DX"])]));
        ("N", YMap (string_keyed [("fqbn", YNum 328)]))])
    (fun _ _ => []) (fun _ _ => Built EmptyString) (fun _ => "0x7f00").

Definition fs_incl : gmap string node :=
  list_to_map
    [("/proj", Dir); ("/proj/sub", Dir); ("/proj/t.yaml", File "T");
     ("/proj/f.yaml", File "F"); ("/proj/sub/d.yaml", File "D");
     ("/proj/n.yaml", File "N")].

Definition world_incl : world := mkWorld fs_incl [] [] [].

Definition layer_N : PathObj * list (string * yvalue) :=
  (proj_path "n.yaml", [("fqbn", YNum 328)]).

(** The output of a build: a compiler command that gives a definition
    twice and one in quotes, and the command of the tool itself. *)
Definition build_output_demo : string :=
  "g++ -DX -DX " +:+ dquote +:+ "-DY=1" +:+ dquote +:+ " -c s.cpp" +:+ nl
  +:+ "arduino-cli compile -DNO" +:+ nl.

(** The same output with a line of blanks. *)
Definition build_output_blank : string := "g++ -DX" +:+ nl +:+ "   " +:+ nl.

(** Two roots that reach the same header, the second through a
    symbolic link. *)
Definition fs_roots : gmap string node :=
  list_to_map
    [("/proj", Dir); ("/proj/a.h", File "a"); ("/proj/s.ino", File "void setup(){}");
     ("/libs", Dir); ("/libs/a.h", Symlink "/proj/a.h"); ("/libs/b.h", File "b")].

Definition env_roots : Env :=
  mkEnv "/proj" (Some "/home/u") ["./arduino-genmakefile.py"] "/opt/agm"
    (fun _ => None)
    (fun _ pattern =>
       if String.eqb pattern "/proj/**" then ["/proj/"; "/proj/a.h"; "/proj/s.ino"]
       else if String.eqb pattern "/libs/**" then ["/libs/"; "/libs/a.h"; "/libs/b.h"]
       else [])
    (fun _ _ => Built EmptyString) (fun _ => "0x7f00").

Definition qmake_roots : Qmake.t :=
  Qmake.mk (proj_path "proj.pro") (proj_path "proj.pri") config_scan
    (mkPath Absolute None "/opt/agm/templates/qmake.pro")
    (mkPath Absolute None "/opt/agm/templates/qmake.pri")
    (proj_path "s.ino") (proj_path "Makefile")
    [mkPath Relative (Some "/proj") "/proj"; mkPath Absolute None "/libs"]
    [] (proj_path "proj").

(* ===================================================================== *)
(** * The library functions on examples *)
(* ===================================================================== *)

Example normpath_ex1 : normpath "/a/./b/../c//d/" = "/a/c/d". Proof. reflexivity. Qed.
Example normpath_ex2 : normpath "//a/.." = "//". Proof. reflexivity. Qed.
Example normpath_ex3 : normpath "a/../../b" = "../b". Proof. reflexivity. Qed.
Example normpath_ex4 : normpath "///a" = "/a". Proof. reflexivity. Qed.
Example relpath_ex1 : relpath "/cwd" "/x/y/z/p" "/a/link" = "../../x/y/z/p". Proof. reflexivity. Qed.
Example relpath_ex2 : relpath "/cwd" "/a/b" "/a/b" = ".". Proof. reflexivity. Qed.
Example relpath_ex3 : relpath "/cwd" "/a/b/c" "/a/" = "b/c". Proof. reflexivity. Qed.
Example split_ex1 : split "/a/b//" = ("/a/b", EmptyString). Proof. reflexivity. Qed.
Example split_ex2 : split "/a" = ("/", "a"). Proof. reflexivity. Qed.
Example split_ex3 : split "//" = ("//", EmptyString). Proof. reflexivity. Qed.
Example splitext_ex1 : splitext "/a.b/c.tar.gz" = ("/a.b/c.tar", ".gz"). Proof. reflexivity. Qed.
Example splitext_ex2 : splitext "/a.b/.bashrc" = ("/a.b/.bashrc", EmptyString). Proof. reflexivity. Qed.
Example splitext_ex3 : splitext "/a.b/..x.h" = ("/a.b/..x", ".h"). Proof. reflexivity. Qed.
Example splitext_ex4 : splitext "/a.b/c" = ("/a.b/c", EmptyString). Proof. reflexivity. Qed.
Example expand_ex1 : expanduser (Some "/home/u/") "~/x" = "/home/u/x". Proof. reflexivity. Qed.
Example expand_ex2 : expanduser (Some "/") "~" = "/". Proof. reflexivity. Qed.
Example replace_ex1 : Str.replace "aXXbXc" "X" "yy" = "ayyyybyyc". Proof. reflexivity. Qed.
Example replace_ex2 : Str.replace "aaa" "aa" "b" = "ba". Proof. reflexivity. Qed.
Example replace_ex3 : Str.replace_first "MakefileMakefile.x" "Makefile" EmptyString = "Makefile.x". Proof. reflexivity. Qed.
Example split_slash_ex : Str.split_slash "/a//b/" = [EmptyString; "a"; EmptyString; "b"; EmptyString]. Proof. reflexivity. Qed.
Example endswith_ex : Str.endswith "/a/" "/" = true /\ Str.endswith EmptyString "/" = false /\ Str.endswith "a" EmptyString = true. Proof. repeat split; reflexivity. Qed.
Example realpath_ex1 : realpath "/cwd" fs_ex1 "/a/link/p" = "/x/y/z/p". Proof. reflexivity. Qed.
Example realpath_ex2 : realpath "/cwd" fs_ex1 "/a/link/../../x/y/z/p" = "/x/x/y/z/p". Proof. reflexivity. Qed.
Example realpath_ex3 : realpath "/cwd" fs_ex1 "/a/rel/z/../q" = "/x/y/q". Proof. reflexivity. Qed.
Example realpath_ex4 : realpath "/cwd" fs_ex1 "/a/loop/r/../s" = "/a/loop/s". Proof. reflexivity. Qed.
Example realpath_ex5 : realpath "/a" fs_ex1 "link/p" = "/x/y/z/p". Proof. reflexivity. Qed.
Example realpath_ex6 : realpath "/a" fs_ex1 "/a/twice/p" = "/x/a/link/p". Proof. reflexivity. Qed.
Example realpath_ex7 : realpath "/a" fs_ex1 "//a/../.." = "/". Proof. reflexivity. Qed.
Example readlines_ex1 :
  readlines ("a" +:+ nl +:+ "b" +:+ String CR nl +:+ String CR "c") =
  ["a" +:+ nl; "b" +:+ nl; nl; "c"].
Proof. reflexivity. Qed.
Example with_suffix_ex1 : Path.with_suffix "/d/proj.pro" ".pri" = Ok "/d/proj.pri". Proof. reflexivity. Qed.
Example with_suffix_ex2 : Path.with_suffix "/d/proj.pro" EmptyString = Ok "/d/proj". Proof. reflexivity. Qed.
Example with_suffix_ex3 : Path.with_suffix "/d/sketch.ino" ".ino.bin" = Ok "/d/sketch.ino.bin". Proof. reflexivity. Qed.
Example with_suffix_ex4 : Path.with_suffix "/d/.hid" ".x" = Ok "/d/.hid.x". Proof. reflexivity. Qed.
Example with_suffix_ex5 : Path.with_suffix "/d/a.b.c" ".x" = Ok "/d/a.b.x". Proof. reflexivity. Qed.
Example with_suffix_ex6 : Path.with_suffix "/d/a." ".x" = Ok "/d/a..x". Proof. reflexivity. Qed.
Example with_suffix_ex7 :
  Path.with_suffix "/" ".x" = Raise (ValueError "PosixPath('/') has an empty name").
Proof. reflexivity. Qed.
Example with_suffix_ex8 : Path.with_suffix "/d/a" "x" = Raise (ValueError "Invalid suffix 'x'").
Proof. reflexivity. Qed.
Example exists_ex1 : FS.exists_ "/a" fs_ex1 "/a/link/p" = true. Proof. reflexivity. Qed.
Example exists_ex2 : FS.exists_ "/a" fs_ex1 "/x/y/z/p/../p" = false. Proof. reflexivity. Qed.
Example exists_ex3 : FS.exists_ "/a" fs_ex1 "/a/nothing/../link" = false. Proof. reflexivity. Qed.
Example exists_ex4 : FS.exists_ "/a" fs_ex1 "loop" = false. Proof. reflexivity. Qed.
Example isdir_ex1 : FS.isdir "/a" fs_ex1 "rel/z/" = true. Proof. reflexivity. Qed.
Example isfile_ex1 : FS.isfile "/a" fs_ex1 "twice/p" = false. Proof. reflexivity. Qed.
Example isfile_ex2 : FS.isfile "/a" fs_ex1 "/x/y/z/p/" = false. Proof. reflexivity. Qed.
Example check_basedir_valid_ex1 :
  Path.check_basedir_valid env_demo fs_demo (Some "/proj/s.ino/../s.ino") = Ok true.
Proof. reflexivity. Qed.
Example check_basedir_valid_ex2 :
  Path.check_basedir_valid env_demo fs_demo (Some "/proj/s.ino")
  = Raise (ValueError "Base dir /proj/s.ino is not valid (exists and is not a directory").
Proof. reflexivity. Qed.

Module StrFacts.

Lemma sapp_cons (x : ascii) (a b : string) : String x a +:+ b = String x (a +:+ b).
Proof. reflexivity. Qed.

Lemma sapp_nil_l (s : string) : EmptyString +:+ s = s.
Proof. reflexivity. Qed.

Lemma sapp_nil_r (s : string) : s +:+ EmptyString = s.
Proof. induction s as [|c s IH]; [reflexivity|]. by rewrite sapp_cons, IH. Qed.

Lemma sapp_assoc (a b c : string) : (a +:+ b) +:+ c = a +:+ (b +:+ c).
Proof. induction a as [|x a IH]; [reflexivity|]. by rewrite !sapp_cons, IH. Qed.

Lemma slength_app (a b : string) :
  String.length (a +:+ b) = String.length a + String.length b.
Proof. induction a as [|x a IH]; [reflexivity|]. rewrite sapp_cons. cbn. by rewrite IH. Qed.

Lemma prefix_cons (x y : ascii) (p s : string) :
  String.prefix (String x p) (String y s) = Ascii.eqb x y && String.prefix p s.
Proof.
  cbn. destruct (ascii_dec x y) as [->|Hne].
  - by rewrite Ascii.eqb_refl.
  - by apply Ascii.eqb_neq in Hne as ->.
Qed.

Lemma prefix_nil (s : string) : String.prefix EmptyString s = true.
Proof. by destruct s. Qed.

Lemma prefix_app (p s : string) : String.prefix p (p +:+ s) = true.
Proof.
  induction p as [|x p IH]; [apply prefix_nil|].
  rewrite sapp_cons, prefix_cons, Ascii.eqb_refl. exact IH.
Qed.

Lemma no_slash_app (a b : string) :
  Str.no_slash (a +:+ b) = Str.no_slash a && Str.no_slash b.
Proof.
  induction a as [|x a IH]; [reflexivity|].
  rewrite sapp_cons. cbn [Str.no_slash]. rewrite IH. by rewrite andb_assoc.
Qed.

Lemma no_slash_cons (c : ascii) (s : string) :
  Str.no_slash (String c s) = true -> Ascii.eqb c "/" = false /\ Str.no_slash s = true.
Proof. cbn [Str.no_slash]. destruct (Ascii.eqb c "/"); [done|]. by split. Qed.

Lemma split_slash_nonempty (s : string) : Str.split_slash s <> [].
Proof.
  induction s as [|c s IH]; cbn [Str.split_slash]; [done|].
  destruct (Ascii.eqb c "/"); [done|]. by destruct (Str.split_slash s).
Qed.

Lemma split_slash_no_slash (s : string) :
  Str.no_slash s = true -> Str.split_slash s = [s].
Proof.
  induction s as [|c s IH]; [reflexivity|].
  intros [E H]%no_slash_cons. cbn [Str.split_slash]. rewrite E. by rewrite IH.
Qed.

Lemma split_slash_app (a t : string) :
  Str.no_slash a = true ->
  Str.split_slash (a +:+ "/" +:+ t) = a :: Str.split_slash t.
Proof.
  induction a as [|c a IH]; [reflexivity|].
  intros [E H]%no_slash_cons. rewrite sapp_cons. cbn [Str.split_slash]. rewrite E.
  by rewrite IH.
Qed.

Lemma split_slash_concat (cs : list string) :
  cs <> [] -> forallb Str.no_slash cs = true ->
  Str.split_slash (String.concat "/" cs) = cs.
Proof.
  induction cs as [|c cs IH]; [done|]. intros _ H.
  cbn [forallb] in H. apply andb_true_iff in H as [Hc Hcs].
  destruct cs as [|d cs].
  - by apply split_slash_no_slash.
  - change (String.concat "/" (c :: d :: cs))
      with (c +:+ "/" +:+ String.concat "/" (d :: cs)).
    rewrite split_slash_app by done. f_equal. by apply IH.
Qed.

Lemma concat_app (l1 l2 : list string) :
  l1 <> [] -> l2 <> [] ->
  String.concat "/" (l1 ++ l2) = String.concat "/" l1 +:+ "/" +:+ String.concat "/" l2.
Proof.
  induction l1 as [|d l1 IH]; [done|]. intros _ H2.
  destruct l1 as [|e l1].
  - cbn [app]. by destruct l2.
  - change (String.concat "/" ((d :: e :: l1) ++ l2))
      with (d +:+ "/" +:+ String.concat "/" ((e :: l1) ++ l2)).
    rewrite IH by done.
    change (String.concat "/" (d :: e :: l1))
      with (d +:+ "/" +:+ String.concat "/" (e :: l1)).
    by rewrite !sapp_assoc.
Qed.

Lemma concat_snoc (cs : list string) (c : string) :
  cs <> [] ->
  String.concat "/" (cs ++ [c]) = String.concat "/" cs +:+ "/" +:+ c.
Proof. intros H. by rewrite concat_app. Qed.

(** [rpartition_slash] cuts at the last slash. *)
Lemma rpartition_no_slash (n : string) :
  Str.no_slash n = true -> Str.rpartition_slash n = (EmptyString, n).
Proof.
  induction n as [|c n IH]; [reflexivity|].
  intros [E H]%no_slash_cons. cbn [Str.rpartition_slash].
  rewrite IH by done. by rewrite E.
Qed.

Lemma rpartition_app (a n : string) :
  Str.no_slash n = true -> Str.rpartition_slash (a +:+ "/" +:+ n) = (a +:+ "/", n).
Proof.
  intros Hn. induction a as [|c a IH].
  - change (EmptyString +:+ "/" +:+ n) with (String "/" n).
    cbn [Str.rpartition_slash]. by rewrite rpartition_no_slash.
  - rewrite sapp_cons. cbn [Str.rpartition_slash]. rewrite IH.
    destruct (a +:+ "/") eqn:E; [by destruct a|]. by rewrite sapp_cons, E.
Qed.

Lemma endswith_slash_single (c : ascii) :
  Str.endswith (String c EmptyString) "/" = Ascii.eqb c "/".
Proof.
  unfold Str.endswith. cbn [String.length Nat.sub Str.drop Nat.leb].
  rewrite andb_true_r.
  destruct (Ascii.eqb_spec c "/") as [->|Hne]; [reflexivity|].
  apply String.eqb_neq. congruence.
Qed.

Lemma endswith_slash_cons (c d : ascii) (s : string) :
  Str.endswith (String c (String d s)) "/" = Str.endswith (String d s) "/".
Proof.
  unfold Str.endswith. cbn [String.length Nat.sub Str.drop Nat.leb].
  by rewrite Nat.sub_0_r.
Qed.

Lemma endswith_slash_no_slash (n : string) :
  n <> EmptyString -> Str.no_slash n = true -> Str.endswith n "/" = false.
Proof.
  induction n as [|c n IH]; [done|]. intros _ [E H]%no_slash_cons.
  destruct n as [|d n].
  - by rewrite endswith_slash_single.
  - rewrite endswith_slash_cons. by apply IH.
Qed.

Lemma endswith_slash_app (s n : string) :
  n <> EmptyString -> Str.no_slash n = true -> Str.endswith (s +:+ n) "/" = false.
Proof.
  intros Hne Hn. induction s as [|c s IH].
  - by apply endswith_slash_no_slash.
  - rewrite sapp_cons. destruct (s +:+ n) eqn:E.
    + by destruct s.
    + by rewrite endswith_slash_cons.
Qed.

Lemma rstrip_slash_no_slash (n : string) :
  Str.no_slash n = true -> Str.rstrip_slash n = n.
Proof.
  induction n as [|c n IH]; [done|]. intros [E H]%no_slash_cons.
  cbn [Str.rstrip_slash]. rewrite IH by done. rewrite E. by destruct n.
Qed.

Lemma rstrip_slash_app (s n : string) :
  n <> EmptyString -> Str.no_slash n = true -> Str.rstrip_slash (s +:+ n) = s +:+ n.
Proof.
  intros Hne Hn. induction s as [|c s IH].
  - by apply rstrip_slash_no_slash.
  - rewrite sapp_cons. cbn [Str.rstrip_slash]. rewrite IH.
    destruct (s +:+ n) eqn:E; [|done]. by destruct s.
Qed.

Lemma rstrip_slash_snoc (s : string) :
  Str.rstrip_slash (s +:+ "/") = Str.rstrip_slash s.
Proof.
  induction s as [|c s IH]; [reflexivity|].
  rewrite sapp_cons. cbn [Str.rstrip_slash]. by rewrite IH.
Qed.

Lemma all_slashes_app (s n : string) :
  Str.all_slashes (s +:+ n) = Str.all_slashes s && Str.all_slashes n.
Proof.
  induction s as [|c s IH]; [reflexivity|].
  rewrite sapp_cons. cbn [Str.all_slashes]. rewrite IH. by rewrite andb_assoc.
Qed.

Lemma no_slash_not_all_slashes (n : string) :
  n <> EmptyString -> Str.no_slash n = true -> Str.all_slashes n = false.
Proof.
  destruct n as [|c n]; [done|]. intros _ [E H]%no_slash_cons.
  cbn [Str.all_slashes]. by rewrite E.
Qed.

Lemma no_slash_not_prefix (n : string) :
  Str.no_slash n = true -> Str.startswith n "/" = false.
Proof.
  destruct n as [|c n]; [done|]. intros [E H]%no_slash_cons.
  unfold Str.startswith. rewrite prefix_cons. rewrite Ascii.eqb_sym, E. done.
Qed.

End StrFacts.

Module PathFacts.
Import StrFacts.

Lemma good_name_spec (n : string) :
  good_name n = true ->
  n <> EmptyString /\ n <> "." /\ n <> ".." /\ Str.no_slash n = true.
Proof.
  unfold good_name. rewrite !andb_true_iff, !negb_true_iff, !String.eqb_neq. tauto.
Qed.

Lemma goods_no_slash (cs : list string) :
  forallb good_name cs = true -> forallb Str.no_slash cs = true.
Proof.
  rewrite !forallb_forall. intros H x Hx. by apply good_name_spec, H.
Qed.

Lemma goods_app (l1 l2 : list string) :
  forallb good_name (l1 ++ l2) = true <->
  forallb good_name l1 = true /\ forallb good_name l2 = true.
Proof. rewrite forallb_app. apply andb_true_iff. Qed.

Lemma isabs_abs_of (cs : list string) : isabs (abs_of cs) = true.
Proof.
  unfold isabs, Str.startswith, abs_of.
  change ("/" +:+ String.concat "/" cs) with (String "/" (String.concat "/" cs)).
  by rewrite prefix_cons, prefix_nil.
Qed.

Lemma abs_of_nil : abs_of [] = "/".
Proof. reflexivity. Qed.

Lemma abs_of_snoc (cs : list string) (c : string) :
  cs <> [] -> abs_of (cs ++ [c]) = abs_of cs +:+ "/" +:+ c.
Proof. intros H. unfold abs_of. by rewrite concat_snoc, sapp_assoc. Qed.

(** A path with at least one component ends with a name. *)
Lemma abs_of_ends (cs : list string) :
  cs <> [] -> forallb good_name cs = true ->
  exists s d, abs_of cs = s +:+ d /\ good_name d = true.
Proof.
  intros Hne Hg. destruct (exists_last Hne) as (cs' & d & ->).
  apply goods_app in Hg as [_ Hd]. cbn in Hd. rewrite andb_true_r in Hd.
  destruct cs' as [|e cs'].
  - exists "/", d. by split.
  - exists (abs_of (e :: cs') +:+ "/"), d. split; [|done].
    rewrite abs_of_snoc by done. by rewrite sapp_assoc.
Qed.

Lemma endswith_abs_of (cs : list string) :
  cs <> [] -> forallb good_name cs = true -> Str.endswith (abs_of cs) "/" = false.
Proof.
  intros Hne Hg. destruct (abs_of_ends cs Hne Hg) as (s & d & -> & Hd).
  apply good_name_spec in Hd as (? & _ & _ & ?). by apply endswith_slash_app.
Qed.

Lemma abs_of_not_empty (cs : list string) : abs_of cs <> EmptyString.
Proof. done. Qed.

Lemma join_abs_of (cs : list string) (c : string) :
  forallb good_name cs = true -> good_name c = true ->
  join (abs_of cs) c = abs_of (cs ++ [c]).
Proof.
  intros Hg Hc. pose proof (good_name_spec c Hc) as (Hne & _ & _ & Hns).
  unfold join. rewrite no_slash_not_prefix by done.
  destruct cs as [|e cs].
  - reflexivity.
  - rewrite endswith_abs_of by done.
    change (String.eqb (abs_of (e :: cs)) EmptyString) with false.
    cbn [orb]. by rewrite abs_of_snoc.
Qed.

Lemma split_abs_of (cs : list string) (c : string) :
  forallb good_name cs = true -> good_name c = true ->
  split (abs_of (cs ++ [c])) = (abs_of cs, c).
Proof.
  intros Hg Hc. pose proof (good_name_spec c Hc) as (Hne & _ & _ & Hns).
  unfold split. destruct cs as [|e cs].
  - change (abs_of ([] ++ [c])) with (EmptyString +:+ "/" +:+ c).
    by rewrite rpartition_app.
  - rewrite abs_of_snoc by done. rewrite rpartition_app by done.
    destruct (abs_of_ends (e :: cs)) as (s & d & E & Hd); [done..|].
    apply good_name_spec in Hd as (? & _ & _ & ?).
    rewrite E. rewrite all_slashes_app, (all_slashes_app s d).
    rewrite (no_slash_not_all_slashes d) by done. rewrite andb_false_r. cbn [andb negb].
    destruct (String.eqb_spec ((s +:+ d) +:+ "/") EmptyString) as [E'|_].
    { destruct s; [destruct d|]; done. }
    cbn [negb]. rewrite rstrip_slash_snoc. by rewrite rstrip_slash_app.
Qed.

Lemma filter_nonempty_goods (cs : list string) :
  forallb good_name cs = true ->
  List.filter (fun x => negb (String.eqb x EmptyString)) cs = cs.
Proof.
  induction cs as [|c cs IH]; [done|]. cbn [forallb List.filter].
  intros [Hc Hcs]%andb_true_iff. apply good_name_spec in Hc as (Hne & _).
  apply String.eqb_neq in Hne as ->. cbn [negb]. by rewrite IH.
Qed.

Lemma split_slash_abs_of (cs : list string) :
  cs <> [] -> forallb good_name cs = true ->
  Str.split_slash (abs_of cs) = EmptyString :: cs.
Proof.
  intros Hne Hg. unfold abs_of.
  change ("/" +:+ String.concat "/" cs) with (EmptyString +:+ "/" +:+ String.concat "/" cs).
  rewrite split_slash_app by done. f_equal.
  apply split_slash_concat; [done|]. by apply goods_no_slash.
Qed.

Lemma nonempty_comps_abs_of (cs : list string) :
  forallb good_name cs = true -> nonempty_comps (abs_of cs) = cs.
Proof.
  intros Hg. unfold nonempty_comps. destruct cs as [|c cs]; [reflexivity|].
  rewrite split_slash_abs_of by done.
  transitivity (List.filter (fun x => negb (String.eqb x EmptyString)) (c :: cs));
    [reflexivity|]. by apply filter_nonempty_goods.
Qed.

Lemma fold_norm_step_goods (cs acc : list string) :
  forallb good_name cs = true ->
  fold_left (norm_step 1) cs acc = rev cs ++ acc.
Proof.
  revert acc. induction cs as [|c cs IH]; intros acc; [done|].
  cbn [forallb fold_left]. intros [Hc Hcs]%andb_true_iff.
  apply good_name_spec in Hc as (H1 & H2 & H3 & _).
  unfold norm_step at 2.
  apply String.eqb_neq in H1 as ->. apply String.eqb_neq in H2 as ->.
  apply String.eqb_neq in H3 as ->. cbn [orb negb].
  rewrite IH by done. cbn [rev]. by rewrite <- List.app_assoc.
Qed.

Lemma startswith_dslash_abs_of (cs : list string) :
  forallb good_name cs = true -> Str.startswith (abs_of cs) "//" = false.
Proof.
  intros Hg. unfold Str.startswith, abs_of.
  change ("/" +:+ String.concat "/" cs) with (String "/" (String.concat "/" cs)).
  rewrite prefix_cons. cbn [Ascii.eqb Bool.eqb andb].
  destruct cs as [|c cs]; [reflexivity|].
  cbn [forallb] in Hg. apply andb_true_iff in Hg as [Hc _].
  apply good_name_spec in Hc as (Hne & _ & _ & Hns).
  destruct c as [|x c]; [done|]. apply no_slash_cons in Hns as [E _].
  destruct cs as [|d cs].
  - cbn [String.concat]. by rewrite prefix_cons, Ascii.eqb_sym, E.
  - change (String.concat "/" (String x c :: d :: cs))
      with (String x (c +:+ "/" +:+ String.concat "/" (d :: cs))).
    by rewrite prefix_cons, Ascii.eqb_sym, E.
Qed.

Lemma normpath_abs_of (cs : list string) :
  forallb good_name cs = true -> normpath (abs_of cs) = abs_of cs.
Proof.
  intros Hg. unfold normpath.
  change (String.eqb (abs_of cs) EmptyString) with false. cbn iota.
  pose proof (isabs_abs_of cs) as Habs. unfold isabs in Habs. rewrite Habs.
  rewrite startswith_dslash_abs_of by done. cbn [andb].
  destruct cs as [|c cs]; [reflexivity|].
  rewrite split_slash_abs_of by done.
  change (fold_left (norm_step 1) (EmptyString :: c :: cs) [])
    with (fold_left (norm_step 1) (c :: cs) []).
  rewrite fold_norm_step_goods by done. rewrite List.app_nil_r, rev_involutive.
  reflexivity.
Qed.

Lemma abspath_abs_of (cwd : string) (cs : list string) :
  forallb good_name cs = true -> abspath cwd (abs_of cs) = abs_of cs.
Proof. intros Hg. unfold abspath. rewrite isabs_abs_of. by apply normpath_abs_of. Qed.

End PathFacts.

Module RealpathFacts.
Import StrFacts PathFacts.

Lemma common_prefix_len_le (l1 l2 : list string) :
  common_prefix_len l1 l2 <= length l1 /\ common_prefix_len l1 l2 <= length l2.
Proof.
  revert l2. induction l1 as [|a l1 IH]; intros [|b l2]; cbn; try lia.
  destruct (String.eqb a b); cbn; [|lia]. specialize (IH l2). lia.
Qed.

Lemma common_prefix_len_take (l1 l2 : list string) :
  take (common_prefix_len l1 l2) l1 = take (common_prefix_len l1 l2) l2.
Proof.
  revert l2. induction l1 as [|a l1 IH]; intros [|b l2]; cbn; try done.
  destruct (String.eqb_spec a b) as [->|]; cbn; [|done]. by rewrite IH.
Qed.

Lemma rel_name_spec (n : string) :
  rel_name n = true -> n <> EmptyString /\ Str.no_slash n = true.
Proof. unfold rel_name. rewrite andb_true_iff, negb_true_iff, String.eqb_neq. tauto. Qed.

Lemma good_rel_name (n : string) : good_name n = true -> rel_name n = true.
Proof.
  intros (? & _ & _ & ?)%good_name_spec. unfold rel_name.
  apply andb_true_iff. split; [|done]. by apply negb_true_iff, String.eqb_neq.
Qed.

Lemma join_rel (s n c : string) :
  rel_name n = true -> rel_name c = true ->
  join (s +:+ n) c = (s +:+ n) +:+ "/" +:+ c.
Proof.
  intros [? ?]%rel_name_spec [? ?]%rel_name_spec. unfold join.
  rewrite no_slash_not_prefix by done.
  rewrite endswith_slash_app by done.
  destruct (String.eqb_spec (s +:+ n) EmptyString) as [E|_]; [|done].
  destruct s; [|done]. by destruct n.
Qed.

Lemma fold_join_concat (l : list string) (s n : string) :
  rel_name n = true -> forallb rel_name l = true ->
  fold_left join l (s +:+ n) = String.concat "/" ((s +:+ n) :: l).
Proof.
  revert s n. induction l as [|c l IH]; intros s n Hn Hl; [done|].
  cbn [forallb] in Hl. apply andb_true_iff in Hl as [Hc Hl].
  cbn [fold_left]. rewrite join_rel by done.
  rewrite <- (sapp_assoc (s +:+ n) "/" c). rewrite IH by done.
  destruct l as [|d l].
  { change (((s +:+ n) +:+ "/") +:+ c = (s +:+ n) +:+ "/" +:+ c).
    by rewrite sapp_assoc. }
  change (String.concat "/" ((((s +:+ n) +:+ "/") +:+ c) :: d :: l))
    with ((((s +:+ n) +:+ "/") +:+ c) +:+ "/" +:+ String.concat "/" (d :: l)).
  change (String.concat "/" ((s +:+ n) :: c :: d :: l))
    with ((s +:+ n) +:+ "/" +:+ (c +:+ "/" +:+ String.concat "/" (d :: l))).
  by rewrite !sapp_assoc.
Qed.

Lemma join_list_concat (l : list string) :
  l <> [] -> forallb rel_name l = true -> join_list l = String.concat "/" l.
Proof.
  destruct l as [|a l]; [done|]. intros _ H.
  cbn [forallb] in H. apply andb_true_iff in H as [Ha Hl].
  unfold join_list. change a with (EmptyString +:+ a).
  by apply fold_join_concat.
Qed.

Section WithFs.
Variable cwd : string.
Variable f : gmap string node.

Lemma lstat_abs (p : string) : isabs p = true -> lstat cwd f p = node_at f p.
Proof. unfold lstat. by intros ->. Qed.

Lemma no_links_from_app (pre l1 l2 : list string) :
  forallb good_name pre = true -> forallb good_name l1 = true ->
  no_links_from f (abs_of pre) (l1 ++ l2)
  = no_links_from f (abs_of pre) l1 && no_links_from f (abs_of (pre ++ l1)) l2.
Proof.
  revert pre. induction l1 as [|c l1 IH]; intros pre Hpre Hl1.
  - cbn. by rewrite List.app_nil_r.
  - cbn [forallb] in Hl1. apply andb_true_iff in Hl1 as [Hc Hl1].
    cbn [app no_links_from]. rewrite join_abs_of by done.
    rewrite IH; [|by apply goods_app; cbn; rewrite Hc|done].
    rewrite <- List.app_assoc. cbn [app]. by rewrite andb_assoc.
Qed.

(** The loop walks over names that are not links without consulting
    [seen] or [resolve]. *)
Lemma loop_goods resolve (cs rest pre : list string) seen :
  forallb good_name pre = true -> forallb good_name cs = true ->
  no_links_from f (abs_of pre) cs = true ->
  realpath_loop cwd f resolve (cs ++ rest) (abs_of pre) seen
  = realpath_loop cwd f resolve rest (abs_of (pre ++ cs)) seen.
Proof.
  revert pre. induction cs as [|c cs IH]; intros pre Hpre Hcs Hnl.
  - by rewrite List.app_nil_r.
  - cbn [forallb] in Hcs. apply andb_true_iff in Hcs as [Hc Hcs].
    cbn [no_links_from] in Hnl. apply andb_true_iff in Hnl as [Hl Hnl].
    pose proof (good_name_spec c Hc) as (H1 & H2 & H3 & _).
    cbn [app realpath_loop].
    apply String.eqb_neq in H1 as ->. apply String.eqb_neq in H2 as ->.
    apply String.eqb_neq in H3 as ->. cbn [orb].
    rewrite join_abs_of in * by done.
    rewrite lstat_abs by apply isabs_abs_of.
    assert (Hgo : forallb good_name (pre ++ [c]) = true).
    { apply goods_app. cbn. by rewrite Hc. }
    specialize (IH (pre ++ [c]) Hgo Hcs Hnl).
    rewrite <- List.app_assoc in IH. cbn [app] in IH.
    destruct (node_at f (abs_of (pre ++ [c]))) as [[| |]|]; try done.
Qed.

Lemma loop_dot resolve (names : list string) (p : string) seen :
  realpath_loop cwd f resolve ("." :: names) p seen
  = realpath_loop cwd f resolve names p seen.
Proof. reflexivity. Qed.

Lemma loop_dotdot resolve (names pre : list string) (c : string) seen :
  forallb good_name pre = true -> good_name c = true ->
  realpath_loop cwd f resolve (".." :: names) (abs_of (pre ++ [c])) seen
  = realpath_loop cwd f resolve names (abs_of pre) seen.
Proof.
  intros Hpre Hc. cbn [realpath_loop].
  change (String.eqb ".." EmptyString || String.eqb ".." ".") with false.
  change (String.eqb ".." "..") with true. cbn iota.
  change (String.eqb (abs_of (pre ++ [c])) EmptyString) with false. cbn iota.
  rewrite split_abs_of by done.
  apply good_name_spec in Hc as (_ & _ & H3 & _).
  by apply String.eqb_neq in H3 as ->.
Qed.

Lemma loop_dotdots resolve (k : nat) (names pre : list string) seen :
  forallb good_name pre = true -> k <= length pre ->
  realpath_loop cwd f resolve (repeat ".." k ++ names) (abs_of pre) seen
  = realpath_loop cwd f resolve names (abs_of (take (length pre - k) pre)) seen.
Proof.
  revert pre. induction k as [|k IH]; intros pre Hpre Hk.
  - rewrite Nat.sub_0_r, firstn_all. reflexivity.
  - destruct pre as [|c0 pre0] using rev_ind; [cbn in Hk; lia|].
    clear IHpre0. rename pre0 into pre', c0 into c.
    rewrite List.length_app in Hk |- *. cbn [length] in Hk |- *.
    apply goods_app in Hpre as [Hpre' Hc]. cbn in Hc. rewrite andb_true_r in Hc.
    cbn [repeat app]. rewrite loop_dotdot by done.
    rewrite IH by (done || lia).
    replace (length pre' + 1 - S k) with (length pre' - k) by lia.
    by rewrite take_app_le by lia.
Qed.

End WithFs.

End RealpathFacts.

Module CanonicalFacts.
Import StrFacts PathFacts RealpathFacts.

Lemma is_canonical_spec (f : gmap string node) (p : string) :
  is_canonical f p = true ->
  exists cs, p = abs_of cs /\ forallb good_name cs = true
             /\ no_links_from f "/" cs = true.
Proof.
  unfold is_canonical. intros [[H1 H2]%andb_true_iff H3]%andb_true_iff.
  apply String.eqb_eq in H1. eauto.
Qed.

Lemma is_canonical_intro (f : gmap string node) (cs : list string) :
  forallb good_name cs = true -> no_links_from f "/" cs = true ->
  is_canonical f (abs_of cs) = true.
Proof.
  intros Hg Hl. unfold is_canonical. rewrite nonempty_comps_abs_of by done.
  by rewrite String.eqb_refl, Hg, Hl.
Qed.

Lemma rel_name_dotdots (k : nat) : forallb rel_name (repeat ".." k) = true.
Proof. induction k; [done|]. cbn [repeat forallb]. by rewrite IHk. Qed.

Lemma goods_skipn (n : nat) (cs : list string) :
  forallb good_name cs = true -> forallb good_name (List.skipn n cs) = true.
Proof.
  intros H. rewrite <- (firstn_skipn n cs) in H. by apply goods_app in H as [_ H].
Qed.

Lemma goods_take (n : nat) (cs : list string) :
  forallb good_name cs = true -> forallb good_name (take n cs) = true.
Proof.
  intros H. rewrite <- (firstn_skipn n cs) in H. by apply goods_app in H as [H _].
Qed.

Lemma rel_names_goods (cs : list string) :
  forallb good_name cs = true -> forallb rel_name cs = true.
Proof.
  rewrite !forallb_forall. intros H x Hx. by apply good_rel_name, H.
Qed.

Lemma rel_comps_names (bs ps : list string) :
  forallb good_name ps = true -> forallb rel_name (rel_comps_or_dot bs ps) = true.
Proof.
  intros Hps. unfold rel_comps_or_dot.
  assert (H : forallb rel_name (rel_comps bs ps) = true).
  { unfold rel_comps. rewrite forallb_app, rel_name_dotdots.
    by apply rel_names_goods, goods_skipn. }
  by destruct (rel_comps bs ps).
Qed.

Lemma rel_comps_or_dot_not_nil (bs ps : list string) : rel_comps_or_dot bs ps <> [].
Proof. unfold rel_comps_or_dot. by destruct (rel_comps bs ps). Qed.

Lemma relpath_abs_of (cwd : string) (bs ps : list string) :
  forallb good_name bs = true -> forallb good_name ps = true ->
  relpath cwd (abs_of ps) (abs_of bs) = String.concat "/" (rel_comps_or_dot bs ps).
Proof.
  intros Hbs Hps. unfold relpath.
  rewrite !abspath_abs_of, !nonempty_comps_abs_of by done.
  pose proof (rel_comps_names bs ps Hps) as Hn.
  unfold rel_comps_or_dot in *. fold (rel_comps bs ps).
  destruct (rel_comps bs ps) as [|a l] eqn:E; [reflexivity|].
  by apply join_list_concat.
Qed.

Lemma concat_rel_not_abs (l : list string) :
  l <> [] -> forallb rel_name l = true -> isabs (String.concat "/" l) = false.
Proof.
  destruct l as [|a l]; [done|]. intros _ H.
  cbn [forallb] in H. apply andb_true_iff in H as [[Ha Hs]%rel_name_spec _].
  destruct a as [|x a]; [done|]. apply no_slash_cons in Hs as [E _].
  unfold isabs, Str.startswith.
  destruct l as [|d l].
  - cbn [String.concat]. by rewrite prefix_cons, Ascii.eqb_sym, E.
  - change (String.concat "/" (String x a :: d :: l))
      with (String x (a +:+ "/" +:+ String.concat "/" (d :: l))).
    by rewrite prefix_cons, Ascii.eqb_sym, E.
Qed.

Lemma relpath_not_abs (cwd : string) (bs ps : list string) :
  forallb good_name bs = true -> forallb good_name ps = true ->
  isabs (relpath cwd (abs_of ps) (abs_of bs)) = false.
Proof.
  intros Hbs Hps. rewrite relpath_abs_of by done.
  apply concat_rel_not_abs; [apply rel_comps_or_dot_not_nil|by apply rel_comps_names].
Qed.

(** Joining an absolute path and a relative one concatenates their
    components. *)
Lemma join_abs_rel (bs l : list string) :
  forallb good_name bs = true -> l <> [] -> forallb rel_name l = true ->
  join (abs_of bs) (String.concat "/" l) = "/" +:+ String.concat "/" (bs ++ l).
Proof.
  intros Hbs Hne Hl. unfold join.
  pose proof (concat_rel_not_abs l Hne Hl) as Hna. unfold isabs in Hna. rewrite Hna.
  destruct bs as [|b bs]; [reflexivity|].
  rewrite endswith_abs_of by done.
  change (String.eqb (abs_of (b :: bs)) EmptyString) with false. cbn [orb].
  rewrite concat_app by done. unfold abs_of. by rewrite sapp_assoc.
Qed.

Section WithFs.
Variable cwd : string.
Variable f : gmap string node.

Lemma joinrealpath_unfold (fuel : nat) (path rest : string) seen :
  joinrealpath cwd f fuel path rest seen
  = realpath_loop cwd f (resolver cwd f fuel)
      (Str.split_slash (if isabs rest then Str.drop 1 rest else rest))
      (if isabs rest then "/" else path) seen.
Proof. by destruct fuel. Qed.

Lemma joinrealpath_abs (fuel : nat) (names : list string) :
  names <> [] -> forallb Str.no_slash names = true ->
  joinrealpath cwd f fuel EmptyString ("/" +:+ String.concat "/" names) []
  = realpath_loop cwd f (resolver cwd f fuel) names "/" [].
Proof.
  intros Hne Hns. rewrite joinrealpath_unfold.
  change (isabs ("/" +:+ String.concat "/" names)) with (isabs (abs_of names)).
  rewrite isabs_abs_of.
  change (Str.drop 1 ("/" +:+ String.concat "/" names)) with (String.concat "/" names).
  by rewrite split_slash_concat.
Qed.

(** [realpath] leaves a canonical location as it is. *)
Lemma realpath_canonical (p : string) :
  is_canonical f p = true -> realpath cwd f p = p.
Proof.
  intros (cs & -> & Hg & Hl)%is_canonical_spec. unfold realpath.
  destruct cs as [|c cs].
  - rewrite joinrealpath_unfold. cbn. reflexivity.
  - unfold abs_of at 1. rewrite joinrealpath_abs; [|done|by apply goods_no_slash].
    rewrite <- (List.app_nil_r (c :: cs)) at 1.
    change "/" with (abs_of []) at 1.
    rewrite loop_goods by done. cbn [realpath_loop fst app].
    by apply abspath_abs_of.
Qed.

Lemma rel_names_no_slash (l : list string) :
  forallb rel_name l = true -> forallb Str.no_slash l = true.
Proof.
  rewrite !forallb_forall. intros H x Hx. by apply rel_name_spec, H.
Qed.

(** Resolving the relative form of a canonical location against a
    canonical directory gives the location back. *)
Lemma realpath_join_relpath (bs ps : list string) :
  forallb good_name bs = true -> forallb good_name ps = true ->
  no_links_from f "/" bs = true -> no_links_from f "/" ps = true ->
  realpath cwd f (join (abs_of bs) (relpath cwd (abs_of ps) (abs_of bs))) = abs_of ps.
Proof.
  intros Hbs Hps Lbs Lps. rewrite relpath_abs_of by done.
  pose proof (rel_comps_names bs ps Hps) as Hn.
  pose proof (rel_comps_or_dot_not_nil bs ps) as Hne.
  rewrite join_abs_rel by done. unfold realpath.
  rewrite joinrealpath_abs.
  2:{ by destruct bs. }
  2:{ rewrite forallb_app. rewrite goods_no_slash by done.
      by rewrite rel_names_no_slash. }
  change "/" with (abs_of []) at 1.
  rewrite loop_goods by done. cbn [app].
  pose proof (common_prefix_len_le bs ps) as [Hi1 Hi2].
  pose proof (common_prefix_len_take bs ps) as Ht.
  unfold rel_comps_or_dot, rel_comps in *.
  set (i := common_prefix_len bs ps) in *.
  destruct (repeat ".." (length bs - i) ++ List.skipn i ps) as [|a l] eqn:E.
  - apply app_eq_nil in E as [E1 E2].
    assert (length bs - i = 0) as Hk by (by destruct (length bs - i)).
    assert (length ps <= i) as Hp.
    { apply (f_equal (@length string)) in E2. rewrite length_skipn in E2.
      cbn in E2. lia. }
    rewrite !firstn_all2 in Ht by lia. subst ps.
    rewrite loop_dot. cbn [realpath_loop fst]. by apply abspath_abs_of.
  - rewrite <- E. clear E Hn Hne a l.
    rewrite loop_dotdots by (done || lia).
    replace (length bs - (length bs - i)) with i by lia. rewrite Ht.
    rewrite <- (firstn_skipn i ps) in Lps at 1.
    change "/" with (abs_of []) in Lps.
    rewrite no_links_from_app in Lps by (done || by apply goods_take).
    apply andb_true_iff in Lps as [_ Lps]. cbn [app] in Lps.
    rewrite <- (List.app_nil_r (List.skipn i ps)) at 1.
    rewrite loop_goods; [|by apply goods_take|by apply goods_skipn|done].
    rewrite firstn_skipn. cbn [realpath_loop fst]. by apply abspath_abs_of.
Qed.

End WithFs.

End CanonicalFacts.

(* ===================================================================== *)
(** * [Path] objects are well formed *)
(* ===================================================================== *)

Module PathInvariant.
Import StrFacts PathFacts.

Lemma isabs_cons (s : string) : isabs (String "/" s) = true.
Proof. unfold isabs, Str.startswith. by rewrite prefix_cons, prefix_nil. Qed.

Lemma isabs_inv (s : string) : isabs s = true -> exists s', s = String "/" s'.
Proof.
  destruct s as [|c s]; [done|]. unfold isabs, Str.startswith.
  rewrite prefix_cons. intros [E _]%andb_true_iff.
  apply Ascii.eqb_eq in E as <-. eauto.
Qed.

Lemma isabs_not_empty (s : string) : isabs s = true -> s <> EmptyString.
Proof. by intros (s' & ->)%isabs_inv. Qed.

Lemma isabs_app (s t : string) : isabs s = true -> isabs (s +:+ t) = true.
Proof. intros (s' & ->)%isabs_inv. rewrite sapp_cons. apply isabs_cons. Qed.

Lemma normpath_isabs (s : string) : isabs s = true -> isabs (normpath s) = true.
Proof.
  intros H. pose proof H as (s' & ->)%isabs_inv. unfold normpath.
  change (String.eqb (String "/" s') EmptyString) with false. cbn iota.
  unfold isabs in H. rewrite H.
  set (k := if Str.startswith (String "/" s') "//" && _ then 2 else 1).
  set (rest := String.concat "/" _).
  assert (Hk : exists t, slashes k +:+ rest = String "/" t).
  { subst k. destruct (_ && _); eexists; reflexivity. }
  destruct Hk as (t & ->).
  change (String.eqb (String "/" t) EmptyString) with false. apply isabs_cons.
Qed.

Lemma join_isabs (a b : string) : isabs a = true -> isabs (join a b) = true.
Proof.
  intros Ha. unfold join. destruct (Str.startswith b "/") eqn:E; [done|].
  destruct (_ || _); by apply isabs_app.
Qed.

Lemma abspath_isabs (cwd s : string) : isabs cwd = true -> isabs (abspath cwd s) = true.
Proof.
  intros H. unfold abspath. destruct (isabs s) eqn:E.
  - by apply normpath_isabs.
  - by apply normpath_isabs, join_isabs.
Qed.

Lemma realpath_isabs (cwd : string) (f : gmap string node) (s : string) :
  isabs cwd = true -> isabs (realpath cwd f s) = true.
Proof. intros H. by apply abspath_isabs. Qed.

(** [Path.__init__] builds well-formed objects. *)
Lemma init_wf (env : Env) (f : gmap string node) (p : string) (b : option string)
    (x : PathObj) :
  isabs (cwd env) = true -> Path.init env f p b = Ok x -> Path_wf env x.
Proof.
  intros Hcwd. unfold Path.init.
  destruct (Str.startswith p "~/").
  { intros [= <-]. split; [by apply realpath_isabs|done]. }
  destruct (isabs p).
  { intros [= <-]. split; [by apply realpath_isabs|done]. }
  destruct (Path.check_basedir_valid env f b) eqn:E; [|done].
  cbn [rbind]. intros [= <-]. split; [by apply realpath_isabs|].
  destruct b as [b|]; [by exists b|done].
Qed.

Lemma rstrip_slash_empty (s : string) :
  Str.rstrip_slash s = EmptyString -> Str.all_slashes s = true.
Proof.
  induction s as [|c s IH]; [done|]. cbn [Str.rstrip_slash Str.all_slashes].
  destruct (Str.rstrip_slash s) eqn:E; [|done].
  destruct (Ascii.eqb c "/"); [|done]. intros _. by apply IH.
Qed.

Lemma rstrip_slash_isabs (s : string) :
  isabs s = true -> Str.all_slashes s = false -> isabs (Str.rstrip_slash s) = true.
Proof.
  intros (s' & ->)%isabs_inv Hns. cbn [Str.rstrip_slash].
  destruct (Str.rstrip_slash s') eqn:E; [|apply isabs_cons].
  apply rstrip_slash_empty in E. cbn [Str.all_slashes] in Hns.
  by rewrite E in Hns.
Qed.

Lemma rpartition_isabs (s : string) :
  isabs s = true -> isabs (fst (Str.rpartition_slash s)) = true.
Proof.
  intros (s' & ->)%isabs_inv. cbn [Str.rpartition_slash].
  destruct (Str.rpartition_slash s') as [h t]. by destruct h.
Qed.

Lemma dirname_isabs (s : string) : isabs s = true -> isabs (dirname s) = true.
Proof.
  intros H. unfold dirname, split.
  pose proof (rpartition_isabs s H) as Hh.
  destruct (Str.rpartition_slash s) as [h t]. cbn [fst] in *.
  destruct (negb (String.eqb h EmptyString) && negb (Str.all_slashes h)) eqn:E; [|done].
  apply andb_true_iff in E as [_ E]. apply negb_true_iff in E.
  by apply rstrip_slash_isabs.
Qed.

(** [parent_dir] keeps objects well formed. *)
Lemma parent_dir_wf (env : Env) (self : PathObj) :
  Path_wf env self -> Path_wf env (Path.parent_dir self).
Proof. intros [H1 H2]. split; [by apply dirname_isabs|done]. Qed.

Lemma pathlib_root_isabs (p : string) :
  isabs p = true -> exists t, Path.pathlib_root p = String "/" t.
Proof.
  intros H. unfold Path.pathlib_root. unfold isabs in H. rewrite H.
  destruct (_ && _); eauto.
Qed.

(** [with_extension] keeps objects well formed. *)
Lemma with_extension_wf (env : Env) (self x : PathObj) (ext : string) :
  Path_wf env self -> Path.with_extension self ext = Ok x -> Path_wf env x.
Proof.
  intros [H1 H2]. unfold Path.with_extension, Path.with_suffix.
  destruct (Str.contains "/" ext); [done|]. destruct (_ || _); [done|].
  destruct (rev _) as [|name before]; [done|]. cbn [rbind]. intros [= <-].
  split; [|done]. cbn [path].
  destruct (pathlib_root_isabs _ H1) as (t & ->). rewrite sapp_cons. apply isabs_cons.
Qed.

End PathInvariant.

(* ===================================================================== *)
(** * File system operations on canonical locations *)
(* ===================================================================== *)

Module FsFacts.
Import StrFacts PathFacts RealpathFacts CanonicalFacts.

Lemma same_links_refl (f : gmap string node) : same_links f f.
Proof. done. Qed.

Lemma same_links_trans (f g h : gmap string node) :
  same_links f g -> same_links g h -> same_links f h.
Proof. intros H1 H2 q. by rewrite H1. Qed.

Lemma no_links_from_same (f f' : gmap string node) (pre : string) (cs : list string) :
  same_links f f' -> no_links_from f pre cs = no_links_from f' pre cs.
Proof.
  intros H. revert pre. induction cs as [|c cs IH]; intros pre; [done|].
  cbn [no_links_from]. by rewrite H, IH.
Qed.

Lemma is_canonical_same (f f' : gmap string node) (p : string) :
  same_links f f' -> is_canonical f p = is_canonical f' p.
Proof. intros H. unfold is_canonical. by rewrite (no_links_from_same f f'). Qed.

Lemma node_at_delete (f : gmap string node) (k q : string) :
  node_at (delete k f) q
  = if String.eqb q "/" then Some Dir
    else if String.eqb k q then None else node_at f q.
Proof.
  unfold node_at. destruct (String.eqb q "/"); [done|].
  destruct (String.eqb_spec k q) as [->|Hne].
  - apply lookup_delete_eq.
  - by apply lookup_delete_ne.
Qed.

Lemma node_at_insert (f : gmap string node) (k q : string) (n : node) :
  node_at (<[k := n]> f) q
  = if String.eqb q "/" then Some Dir
    else if String.eqb k q then Some n else node_at f q.
Proof.
  unfold node_at. destruct (String.eqb q "/"); [done|].
  destruct (String.eqb_spec k q) as [->|Hne].
  - apply lookup_insert_eq.
  - by apply lookup_insert_ne.
Qed.

Lemma same_links_delete (f : gmap string node) (k : string) :
  is_link (node_at f k) = false -> same_links f (delete k f).
Proof.
  intros H q. rewrite node_at_delete. unfold node_at in *.
  destruct (String.eqb q "/") eqn:E; [done|].
  destruct (String.eqb_spec k q) as [->|Hne]; [|done]. by rewrite E in H.
Qed.

Lemma same_links_insert_file (f : gmap string node) (k c : string) :
  is_link (node_at f k) = false -> same_links f (<[k := File c]> f).
Proof.
  intros H q. rewrite node_at_insert. unfold node_at in *.
  destruct (String.eqb q "/") eqn:E; [done|].
  destruct (String.eqb_spec k q) as [->|Hne]; [|done]. by rewrite E in H.
Qed.

Lemma canonical_not_link (f : gmap string node) (p : string) :
  is_canonical f p = true -> is_link (node_at f p) = false.
Proof.
  intros (cs & -> & Hg & Hl)%is_canonical_spec.
  destruct cs as [|c0 cs0] using rev_ind; [done|]. clear IHcs0.
  apply goods_app in Hg as [Hg Hc]. cbn in Hc. rewrite andb_true_r in Hc.
  change "/" with (abs_of []) in Hl. rewrite no_links_from_app in Hl by done.
  apply andb_true_iff in Hl as [_ Hl]. cbn [app no_links_from] in Hl.
  rewrite join_abs_of in Hl by done. rewrite andb_true_r in Hl.
  by apply negb_true_iff in Hl.
Qed.

Lemma canonical_snoc_inv (f : gmap string node) (cs : list string) (c : string) :
  forallb good_name (cs ++ [c]) = true -> no_links_from f "/" (cs ++ [c]) = true ->
  forallb good_name cs = true /\ good_name c = true /\ is_canonical f (abs_of cs) = true.
Proof.
  intros [Hg Hc]%goods_app Hl. cbn in Hc. rewrite andb_true_r in Hc.
  change "/" with (abs_of []) in Hl. rewrite no_links_from_app in Hl by done.
  apply andb_true_iff in Hl as [Hl _].
  split; [done|]. split; [done|]. by apply is_canonical_intro.
Qed.

Section WithFs.
Variable cwd : string.
Variable f : gmap string node.

Lemma walk_unfold (links : nat) (cur : string) (names : list string) :
  walk f links cur names
  = match names with
    | [] => Some cur
    | name :: names' =>
        if String.eqb name EmptyString || String.eqb name "." then
          match node_at f cur with
          | Some Dir => walk f links cur names'
          | _ => None
          end
        else if String.eqb name ".." then
          match node_at f cur with
          | Some Dir => walk f links (dirname cur) names'
          | _ => None
          end
        else
          match node_at f (join cur name) with
          | Some (Symlink target) =>
              match links with
              | 0 => None
              | S links' =>
                  if String.eqb target EmptyString then None
                  else walk f links' (if isabs target then "/" else cur)
                         (Str.split_slash target ++ names')
              end
          | _ => walk f links (join cur name) names'
          end
    end.
Proof. destruct links, names; reflexivity. Qed.

(** The walk along names that are not links. *)
Lemma walk_goods (links : nat) (cs pre : list string) :
  forallb good_name pre = true -> forallb good_name cs = true ->
  no_links_from f (abs_of pre) cs = true ->
  walk f links (abs_of pre) cs = Some (abs_of (pre ++ cs)).
Proof.
  revert pre. induction cs as [|c cs IH]; intros pre Hpre Hcs Hnl.
  - rewrite walk_unfold. by rewrite List.app_nil_r.
  - cbn [forallb] in Hcs. apply andb_true_iff in Hcs as [Hc Hcs].
    cbn [no_links_from] in Hnl. apply andb_true_iff in Hnl as [Hl Hnl].
    pose proof (good_name_spec c Hc) as (H1 & H2 & H3 & _).
    rewrite walk_unfold.
    apply String.eqb_neq in H1 as ->. apply String.eqb_neq in H2 as ->.
    apply String.eqb_neq in H3 as ->. cbn [orb].
    rewrite join_abs_of in * by done.
    assert (Hgo : forallb good_name (pre ++ [c]) = true).
    { apply goods_app. cbn. by rewrite Hc. }
    specialize (IH (pre ++ [c]) Hgo Hcs Hnl).
    rewrite <- List.app_assoc in IH. cbn [app] in IH.
    destruct (node_at f (abs_of (pre ++ [c]))) as [[| |]|]; done.
Qed.

Lemma stat_canonical (p : string) :
  is_canonical f p = true -> stat cwd f p = node_at f p.
Proof.
  intros (cs & -> & Hg & Hl)%is_canonical_spec. unfold stat.
  change (String.eqb (abs_of cs) EmptyString) with false. cbv iota.
  rewrite isabs_abs_of.
  destruct cs as [|c cs]; [reflexivity|].
  rewrite split_slash_abs_of by done.
  rewrite walk_unfold.
  change (String.eqb EmptyString EmptyString || String.eqb EmptyString ".") with true.
  change (node_at f "/") with (Some Dir). cbv iota.
  pose proof (walk_goods MAXSYMLINKS (c :: cs) [] eq_refl Hg Hl) as W.
  change (abs_of []) with "/" in W. cbn [app] in W. by rewrite W.
Qed.

Lemma basename_abs_of (cs : list string) (c : string) :
  forallb good_name cs = true -> good_name c = true ->
  basename (abs_of (cs ++ [c])) = c.
Proof.
  intros Hg Hc. pose proof (split_abs_of cs c Hg Hc) as H.
  unfold split in H. unfold basename.
  destruct (Str.rpartition_slash (abs_of (cs ++ [c]))) as [h t].
  by injection H.
Qed.

Lemma dirname_abs_of (cs : list string) (c : string) :
  forallb good_name cs = true -> good_name c = true ->
  dirname (abs_of (cs ++ [c])) = abs_of cs.
Proof. intros Hg Hc. unfold dirname. by rewrite split_abs_of. Qed.

Lemma dirname_canonical (p : string) :
  is_canonical f p = true -> is_canonical f (dirname p) = true.
Proof.
  intros H. pose proof H as (cs & -> & Hg & Hl)%is_canonical_spec.
  destruct cs as [|c0 cs0] using rev_ind; [done|]. clear IHcs0.
  destruct (canonical_snoc_inv f cs0 c0 Hg Hl) as (Hg0 & Hc0 & Hcan).
  by rewrite dirname_abs_of.
Qed.

Lemma lkey_canonical (p : string) :
  is_canonical f p = true -> lkey cwd f p = p.
Proof.
  intros H. unfold lkey. rewrite realpath_canonical by (by apply dirname_canonical).
  apply is_canonical_spec in H as (cs & -> & Hg & Hl).
  destruct cs as [|c0 cs0] using rev_ind; [done|]. clear IHcs0.
  destruct (canonical_snoc_inv f cs0 c0 Hg Hl) as (Hg0 & Hc0 & Hcan).
  rewrite dirname_abs_of, basename_abs_of by done. by apply join_abs_of.
Qed.

Lemma exists_canonical (p : string) :
  is_canonical f p = true ->
  FS.exists_ cwd f p = match node_at f p with Some _ => true | None => false end.
Proof. intros H. unfold FS.exists_. by rewrite stat_canonical. Qed.

Lemma isfile_canonical (p : string) :
  is_canonical f p = true ->
  FS.isfile cwd f p = match node_at f p with Some (File _) => true | _ => false end.
Proof. intros H. unfold FS.isfile. by rewrite stat_canonical. Qed.

Lemma read_canonical (p : string) :
  is_canonical f p = true ->
  FS.read cwd f p = match node_at f p with
                    | Some (File c) => Ok c
                    | Some Dir => Raise (IsADirectoryError p)
                    | _ => Raise (FileNotFoundError p)
                    end.
Proof. intros H. unfold FS.read. by rewrite stat_canonical. Qed.

Lemma remove_canonical (p : string) :
  is_canonical f p = true ->
  FS.remove cwd f p = match node_at f p with
                      | None => Raise (FileNotFoundError p)
                      | Some Dir => Raise (IsADirectoryError p)
                      | Some _ => Ok (delete p f)
                      end.
Proof. intros H. unfold FS.remove. by rewrite lkey_canonical. Qed.

Lemma append_canonical (p data : string) :
  is_canonical f p = true ->
  FS.append cwd f p data
  = match node_at f p with
    | Some (File c) => Ok (<[p := File (c +:+ data)]> f)
    | Some Dir => Raise (IsADirectoryError p)
    | Some (Symlink _) => Raise (OSError p)
    | None =>
        match node_at f (dirname p) with
        | Some Dir => Ok (<[p := File data]> f)
        | Some _ => Raise (NotADirectoryError p)
        | None => Raise (FileNotFoundError p)
        end
    end.
Proof.
  intros H. unfold FS.append. rewrite realpath_canonical by done.
  by rewrite stat_canonical by (by apply dirname_canonical).
Qed.

End WithFs.

End FsFacts.

(* ===================================================================== *)
(** * Lines of text and the marker line *)
(* ===================================================================== *)

Module LineFacts.
Import StrFacts.

Lemma marker_eq : Constants.generated_by_us_string = marker_text +:+ nl.
Proof. reflexivity. Qed.





Lemma universal_newlines_line (m rest : string) :
  no_cr m = true ->
  universal_newlines (m +:+ nl +:+ rest) = m +:+ nl +:+ universal_newlines rest.
Proof.
  induction m as [|x m IH]; [done|]. cbn [no_cr].
  intros [Hx Hm]%andb_true_iff. apply negb_true_iff in Hx.
  rewrite !sapp_cons. cbn [universal_newlines]. rewrite Hx. by rewrite IH.
Qed.

Lemma lines_of_line (m rest : string) :
  no_lf m = true -> lines_of (m +:+ nl +:+ rest) = (m +:+ nl) :: lines_of rest.
Proof.
  induction m as [|x m IH]; [done|]. cbn [no_lf].
  intros [Hx Hm]%andb_true_iff. apply negb_true_iff in Hx.
  rewrite !sapp_cons. cbn [lines_of]. rewrite Hx. by rewrite IH.
Qed.

(** A text that begins with a line has it as its first line. *)
Lemma readlines_line (m rest : string) :
  no_lf m = true -> no_cr m = true ->
  readlines (m +:+ nl +:+ rest) = (m +:+ nl) :: readlines rest.
Proof.
  intros H1 H2. unfold readlines. rewrite universal_newlines_line by done.
  by apply lines_of_line.
Qed.

Lemma concat_all_cons (x : string) (l : list string) :
  Str.concat_all (x :: l) = x +:+ Str.concat_all l.
Proof.
  unfold Str.concat_all. destruct l as [|y l]; [by rewrite sapp_nil_r|reflexivity].
Qed.

End LineFacts.

(* ===================================================================== *)
(** * Merging configuration layers *)
(* ===================================================================== *)

Module MergeFacts.

(** Comparisons of two string constants are evaluated. *)
Ltac eval_eqb :=
  repeat match goal with
    | |- context [String.eqb ?a ?b] =>
        let r := eval vm_compute in (String.eqb a b) in
        lazymatch r with
        | true => change (String.eqb a b) with true
        | false => change (String.eqb a b) with false
        end
    end.

Lemma rmap_list_app {A B} (g : A -> result B) (l1 l2 : list A) (r1 r2 : list B) :
  rmap_list g l1 = Ok r1 -> rmap_list g l2 = Ok r2 ->
  rmap_list g (l1 ++ l2) = Ok (r1 ++ r2).
Proof.
  revert r1. induction l1 as [|x l1 IH]; intros r1.
  - intros [= <-]. done.
  - cbn [rmap_list app]. destruct (g x) as [y|]; [|done]. cbn [rbind].
    destruct (rmap_list g l1) as [ys|] eqn:E; [|done]. cbn [rbind].
    intros [= <-] H2. by rewrite (IH ys eq_refl H2).
Qed.

Lemma rmap_list_pair {A B C} (g : A * B -> result C) (a : A) (l : list B) :
  rmap_list g (map (pair a) l) = rmap_list (fun b => g (a, b)) l.
Proof. induction l as [|b l IH]; [done|]. cbn [map rmap_list]. by rewrite IH. Qed.

Lemma py_iter_items (v : yvalue) (l : list string) :
  Path.py_iter v = Ok l -> items_of v = l.
Proof. destruct v; cbn; congruence. Qed.

Section Snoc.
Variable es : list (PathObj * (string * yvalue)).
Variable p : PathObj.
Variable k : string.
Variable v : yvalue.

Lemma appended_snoc (key : string) :
  appended key (es ++ [(p, (k, v))])
  = appended key es ++ (if String.eqb k key then items_of v else []).
Proof. unfold appended. rewrite flat_map_app. cbn. by rewrite List.app_nil_r. Qed.

Lemma last_value_snoc (key : string) (d : yvalue) :
  last_value key d (es ++ [(p, (k, v))])
  = if String.eqb k key then v else last_value key d es.
Proof.
  unfold last_value. rewrite rev_app_distr. cbn [rev app List.find fst snd].
  by destruct (String.eqb k key).
Qed.

Lemma declared_snoc (key : string) :
  declared key (es ++ [(p, (k, v))])
  = declared key es ++ (if String.eqb k key then map (pair p) (items_of v) else []).
Proof. unfold declared. rewrite flat_map_app. cbn. by rewrite List.app_nil_r. Qed.

Lemma warnings_snoc (env : Env) :
  warnings env (es ++ [(p, (k, v))])
  = warnings env es
    ++ (if known_key k then []
        else ["Warning: unhandled key " +:+ k +:+ " in configuration file "
              +:+ Path.str env p]).
Proof. unfold warnings. rewrite flat_map_app. cbn. by rewrite List.app_nil_r. Qed.

End Snoc.

Lemma merged_refl (env : Env) (self : Config.t) (w : world) : merged env self w [] self w.
Proof.
  split; try done; try (exists []; split; [done|by rewrite List.app_nil_r]);
    by rewrite List.app_nil_r.
Qed.

(** The record of the loaded files does not matter to what is merged. *)
Lemma merged_log (env : Env) self0 w0 es self w (log : list string) :
  merged env self0 w0 es self w ->
  merged env self0 w0 es self (mkWorld (fs w) (extra_config_stack w) (stdout w) log).
Proof. intros []. by split. Qed.

Lemma list_from_key_declared (env : Env) (f : gmap string node) (p : PathObj)
    (v : yvalue) (qs : list PathObj) :
  Path.list_from_key env f v (Path.parent_dir p) = Ok qs ->
  rmap_list (resolve_declared env f) (map (pair p) (items_of v)) = Ok qs.
Proof.
  unfold Path.list_from_key. destruct (Path.py_iter v) as [l|] eqn:E; [|done].
  cbn [rbind]. apply py_iter_items in E as ->. intros H.
  rewrite rmap_list_pair. exact H.
Qed.

(** A path-valued field after one more entry. *)
Lemma paths_step (env : Env) (f : gmap string node) (key : string)
    es (p : PathObj) (k : string) (v : yvalue) (l add : list PathObj) :
  rmap_list (resolve_declared env f) (declared key es) = Ok l ->
  (if String.eqb k key
   then Path.list_from_key env f v (Path.parent_dir p) = Ok add
   else add = []) ->
  rmap_list (resolve_declared env f) (declared key (es ++ [(p, (k, v))])) = Ok (l ++ add).
Proof.
  intros Hl Hadd. rewrite declared_snoc. apply rmap_list_app; [done|].
  destruct (String.eqb k key); [by apply list_from_key_declared|by subst].
Qed.

Ltac solve_paths H :=
  destruct H as (l & Hl & ->);
  eexists; split;
  [eapply paths_step; [exact Hl|]; eval_eqb; cbv iota; first [eassumption|reflexivity]
  |rewrite <- ?List.app_assoc, ?List.app_nil_r; reflexivity].

(** One entry: the key decides which field changes. *)
Lemma merge_key_step (env : Env) self0 w0 es self w (p : PathObj) (e : string * yvalue) :
  merged env self0 w0 es self w ->
  entry_ok env (fs w0) p e = true ->
  exists self' w',
    Config.merge_key env p self (KStr (fst e), snd e) w = (Ok self', w')
    /\ merged env self0 w0 (es ++ [(p, e)]) self' w'.
Proof.
  intros [M1 M2 M3 M4 M5 M6 M7 M8 M9 M10 M11 M12] Hok.
  destruct e as [k v]. unfold entry_ok in Hok. cbn [fst snd] in *.
  unfold Config.merge_key, bind, lift, ret, print, modify.
  cbn [Config.key_is Config.key_str].
  destruct (String.eqb_spec k "fqbn") as [->|N1].
  { do 2 eexists. split; [reflexivity|].
    split; cbn [Config.main_paths Config.paths Config.fqbn Config.cflags
                  Config.debug_command Config.baudrate Config.lib_paths
                  Config.qmake_dirs Config.qmake_exclude_dirs];
      rewrite ?last_value_snoc, ?appended_snoc, ?warnings_snoc; eval_eqb; cbv iota;
      rewrite ?List.app_nil_r; try done.
    - solve_paths M7.
    - solve_paths M8.
    - solve_paths M9. }
  destruct (String.eqb_spec k "cflags") as [->|N2].
  { destruct (Path.py_iter v) as [items|] eqn:E; [|done].
    do 2 eexists. split; [reflexivity|].
    apply py_iter_items in E.
    split; cbn [Config.main_paths Config.paths Config.fqbn Config.cflags
                  Config.debug_command Config.baudrate Config.lib_paths
                  Config.qmake_dirs Config.qmake_exclude_dirs];
      rewrite ?last_value_snoc, ?appended_snoc, ?warnings_snoc; eval_eqb; cbv iota;
      rewrite ?List.app_nil_r; try done.
    - rewrite M4, E. by rewrite List.app_assoc.
    - solve_paths M7.
    - solve_paths M8.
    - solve_paths M9. }
  destruct (String.eqb_spec k "debug_command") as [->|N3].
  { do 2 eexists. split; [reflexivity|].
    split; cbn [Config.main_paths Config.paths Config.fqbn Config.cflags
                  Config.debug_command Config.baudrate Config.lib_paths
                  Config.qmake_dirs Config.qmake_exclude_dirs];
      rewrite ?last_value_snoc, ?appended_snoc, ?warnings_snoc; eval_eqb; cbv iota;
      rewrite ?List.app_nil_r; try done.
    - solve_paths M7.
    - solve_paths M8.
    - solve_paths M9. }
  destruct (String.eqb_spec k "baudrate") as [->|N4].
  { do 2 eexists. split; [reflexivity|].
    split; cbn [Config.main_paths Config.paths Config.fqbn Config.cflags
                  Config.debug_command Config.baudrate Config.lib_paths
                  Config.qmake_dirs Config.qmake_exclude_dirs];
      rewrite ?last_value_snoc, ?appended_snoc, ?warnings_snoc; eval_eqb; cbv iota;
      rewrite ?List.app_nil_r; try done.
    - solve_paths M7.
    - solve_paths M8.
    - solve_paths M9. }
  destruct (String.eqb_spec k "libs") as [->|N5].
  { cbn [orb] in Hok. rewrite <- M11 in Hok.
    destruct (Path.list_from_key env (fs w) v (Path.parent_dir p)) as [qs|] eqn:E; [|done].
    rewrite M11 in E.
    do 2 eexists. split; [reflexivity|].
    split; cbn [Config.main_paths Config.paths Config.fqbn Config.cflags
                  Config.debug_command Config.baudrate Config.lib_paths
                  Config.qmake_dirs Config.qmake_exclude_dirs];
      rewrite ?last_value_snoc, ?appended_snoc, ?warnings_snoc; eval_eqb; cbv iota;
      rewrite ?List.app_nil_r; try done.
    - solve_paths M7.
    - solve_paths M8.
    - solve_paths M9. }
  destruct (String.eqb_spec k "qmake_dirs") as [->|N6].
  { cbn [orb] in Hok. rewrite <- M11 in Hok.
    destruct (Path.list_from_key env (fs w) v (Path.parent_dir p)) as [qs|] eqn:E; [|done].
    rewrite M11 in E.
    do 2 eexists. split; [reflexivity|].
    split; cbn [Config.main_paths Config.paths Config.fqbn Config.cflags
                  Config.debug_command Config.baudrate Config.lib_paths
                  Config.qmake_dirs Config.qmake_exclude_dirs];
      rewrite ?last_value_snoc, ?appended_snoc, ?warnings_snoc; eval_eqb; cbv iota;
      rewrite ?List.app_nil_r; try done.
    - solve_paths M7.
    - solve_paths M8.
    - solve_paths M9. }
  destruct (String.eqb_spec k "qmake_exclude_dirs") as [->|N7].
  { cbn [orb] in Hok. rewrite <- M11 in Hok.
    destruct (Path.list_from_key env (fs w) v (Path.parent_dir p)) as [qs|] eqn:E; [|done].
    rewrite M11 in E.
    do 2 eexists. split; [reflexivity|].
    split; cbn [Config.main_paths Config.paths Config.fqbn Config.cflags
                  Config.debug_command Config.baudrate Config.lib_paths
                  Config.qmake_dirs Config.qmake_exclude_dirs];
      rewrite ?last_value_snoc, ?appended_snoc, ?warnings_snoc; eval_eqb; cbv iota;
      rewrite ?List.app_nil_r; try done.
    - solve_paths M7.
    - solve_paths M8.
    - solve_paths M9. }
  apply String.eqb_neq in N1, N2, N3, N4, N5, N6, N7.
  destruct (String.eqb_spec k "configs") as [->|N8].
  { do 2 eexists. split; [reflexivity|].
    split; cbn [Config.main_paths Config.paths Config.fqbn Config.cflags
                  Config.debug_command Config.baudrate Config.lib_paths
                  Config.qmake_dirs Config.qmake_exclude_dirs];
      rewrite ?last_value_snoc, ?appended_snoc, ?warnings_snoc; eval_eqb; cbv iota;
      rewrite ?List.app_nil_r; try done.
    - solve_paths M7.
    - solve_paths M8.
    - solve_paths M9. }
  apply String.eqb_neq in N8.
  do 2 eexists. split; [reflexivity|].
  assert (Hk : known_key k = false).
  { unfold known_key. cbn [existsb]. by rewrite N1, N2, N3, N4, N5, N6, N7, N8. }
  split; cbn [fs stdout extra_config_stack];
    rewrite ?last_value_snoc, ?appended_snoc, ?warnings_snoc, ?Hk,
      ?N1, ?N2, ?N3, ?N4, ?N5, ?N6, ?N7, ?List.app_nil_r; try done.
  - destruct M7 as (l & Hl & ->). exists l. split; [|done].
    rewrite declared_snoc, N5. by rewrite List.app_nil_r.
  - destruct M8 as (l & Hl & ->). exists l. split; [|done].
    rewrite declared_snoc, N6. by rewrite List.app_nil_r.
  - destruct M9 as (l & Hl & ->). exists l. split; [|done].
    rewrite declared_snoc, N7. by rewrite List.app_nil_r.
  - by rewrite M10, List.app_assoc.
Qed.

Lemma merge_keys_spec (env : Env) self0 w0 (p : PathObj)
    (entries : list (string * yvalue)) es self w :
  merged env self0 w0 es self w ->
  forallb (entry_ok env (fs w0) p) entries = true ->
  exists self' w',
    Config.merge_keys env p (string_keyed entries) self w = (Ok self', w')
    /\ merged env self0 w0 (es ++ map (pair p) entries) self' w'.
Proof.
  revert es self w. induction entries as [|e entries IH]; intros es self w Hm Hok.
  - exists self, w. split; [done|]. by rewrite List.app_nil_r.
  - cbn [forallb] in Hok. apply andb_true_iff in Hok as [He Hok].
    destruct (merge_key_step env self0 w0 es self w p e Hm He) as (s1 & w1 & E1 & Hm1).
    destruct (IH _ _ _ Hm1 Hok) as (s2 & w2 & E2 & Hm2).
    exists s2, w2. split.
    + unfold string_keyed in *. cbn [map Config.merge_keys]. unfold bind. by rewrite E1.
    + cbn [map]. by rewrite <- List.app_assoc in Hm2.
Qed.

Lemma load_ok (env : Env) (p : PathObj) (w : world) (content : string)
    (entries : list (ykey * yvalue)) :
  FS.read (cwd env) (fs w) (path p) = Ok content ->
  safe_load env content = Some (YMap entries) ->
  Config.load env p w
  = (Ok (YMap entries),
     mkWorld (fs w) (extra_config_stack w) (stdout w) (yaml_loads w ++ [path p])).
Proof.
  intros H1 H2. unfold Config.load, bind, lift, modify, ret. rewrite H1. cbn [fs].
  by rewrite H2.
Qed.

Lemma merge_layer_spec (env : Env) self0 w0 (l : PathObj * list (string * yvalue))
    es self w :
  merged env self0 w0 es self w ->
  layer_loads env (fs w0) l -> layer_ok env (fs w0) l = true ->
  exists self' w',
    Config.merge_layer env self (fst l) w = (Ok self', w')
    /\ merged env self0 w0 (es ++ map (pair (fst l)) (snd l)) self' w'.
Proof.
  intros Hm (content & Hr & Hp) Hok. destruct l as [p entries]. cbn [fst snd] in *.
  rewrite <- (merged_fs _ _ _ _ _ _ Hm) in Hr.
  pose proof (merged_log env _ _ _ _ _ (yaml_loads w ++ [path p]) Hm) as Hm'.
  destruct (merge_keys_spec env self0 w0 p entries es self _ Hm' Hok)
    as (s1 & w1 & E1 & Hm1).
  exists s1, w1. split; [|done].
  unfold Config.merge_layer, bind.
  by rewrite (load_ok env p w content (string_keyed entries)).
Qed.

Lemma merge_layers_spec (env : Env) self0 w0
    (layers : list (PathObj * list (string * yvalue))) es self w :
  merged env self0 w0 es self w ->
  Forall (layer_loads env (fs w0)) layers ->
  forallb (layer_ok env (fs w0)) layers = true ->
  exists self' w',
    Config.merge_layers env (map fst layers) self w = (Ok self', w')
    /\ merged env self0 w0 (es ++ flatten layers) self' w'.
Proof.
  revert es self w. induction layers as [|l layers IH]; intros es self w Hm Hl Hok.
  - exists self, w. split; [done|]. by rewrite List.app_nil_r.
  - apply Forall_cons_iff in Hl as [Hl Hls].
    cbn [forallb] in Hok. apply andb_true_iff in Hok as [Ho Hok].
    destruct (merge_layer_spec env self0 w0 l es self w Hm Hl Ho) as (s1 & w1 & E1 & Hm1).
    destruct (IH _ _ _ Hm1 Hls Hok) as (s2 & w2 & E2 & Hm2).
    exists s2, w2. split.
    + cbn [map Config.merge_layers]. unfold bind. by rewrite E1.
    + unfold flatten in *. cbn [flat_map]. by rewrite List.app_assoc.
Qed.

End MergeFacts.

(* ===================================================================== *)
(** * The configuration loader *)
(* ===================================================================== *)

Module ConfigFacts.

Lemma bind_inv {A B} (m : M A) (k : A -> M B) (w : world) (r : result B) (w' : world) :
  bind m k w = (r, w') ->
  (exists a w1, m w = (Ok a, w1) /\ k a w1 = (r, w'))
  \/ (exists e, m w = (Raise e, w') /\ r = Raise e).
Proof.
  unfold bind. destruct (m w) as [[a|e] w1].
  - intros H. left. eauto.
  - intros [= <- <-]. right. eauto.
Qed.

Lemma for_each_print_run {A} (g : A -> string) (l : list A) (w : world) :
  for_each l (fun x => print (g x)) w
  = (Ok tt, mkWorld (fs w) (extra_config_stack w) (stdout w ++ map g l) (yaml_loads w)).
Proof.
  revert w. induction l as [|x l IH]; intros w.
  - cbn. rewrite List.app_nil_r. by destruct w.
  - cbn [for_each map]. unfold bind. cbn [print modify]. unfold print, modify.
    rewrite IH. cbn [fs extra_config_stack stdout yaml_loads].
    by rewrite <- List.app_assoc.
Qed.

(** What is printed and raised when a path is met again. *)
Lemma report_cycle_run (p : PathObj) (stack : list PathObj) (w : world) :
  Config.report_cycle p stack w
  = (Raise CircularInclusion,
     mkWorld (fs w) (extra_config_stack w) (stdout w ++ cycle_report p stack)
       (yaml_loads w)).
Proof.
  unfold Config.report_cycle, bind. unfold print at 1 2. unfold modify.
  rewrite for_each_print_run. cbn [fs extra_config_stack stdout yaml_loads].
  unfold Error.exit_on_error, raise, cycle_report, CircularInclusion.
  by rewrite <- !List.app_assoc.
Qed.

(** ** The file system is only read *)

Lemma fs_stable_ret {A} (a : A) : fs_stable (ret a).
Proof. by intros w r w' [= <- <-]. Qed.

Lemma fs_stable_raise {A} (e : exn) : fs_stable (@raise A e).
Proof. by intros w r w' [= <- <-]. Qed.

Lemma fs_stable_lift {A} (g : gmap string node -> result A) : fs_stable (lift g).
Proof. by intros w r w' [= <- <-]. Qed.

Lemma fs_stable_gets {A} (g : world -> A) : fs_stable (gets g).
Proof. by intros w r w' [= <- <-]. Qed.

Lemma fs_stable_print (line : string) : fs_stable (print line).
Proof. by intros w r w' [= <- <-]. Qed.

Lemma fs_stable_bind {A B} (m : M A) (k : A -> M B) :
  fs_stable m -> (forall a, fs_stable (k a)) -> fs_stable (bind m k).
Proof.
  intros Hm Hk w r w' [(a & w1 & E1 & E2)|(e & E1 & _)]%bind_inv.
  - rewrite (Hk _ _ _ _ E2). by apply Hm in E1.
  - by apply Hm in E1.
Qed.

Lemma fs_stable_exit {A} (msg : string) : fs_stable (@Error.exit_on_error A msg).
Proof. apply fs_stable_raise. Qed.

Lemma fs_stable_report (p : PathObj) (stack : list PathObj) :
  fs_stable (Config.report_cycle p stack).
Proof. intros w r w'. rewrite report_cycle_run. by intros [= <- <-]. Qed.

Lemma fs_stable_push (p : PathObj) : fs_stable (Config.push p).
Proof. by intros w r w' [= <- <-]. Qed.

Lemma fs_stable_pop : fs_stable Config.pop.
Proof. by intros w r w' [= <- <-]. Qed.

Lemma fs_stable_load (env : Env) (p : PathObj) : fs_stable (Config.load env p).
Proof.
  unfold Config.load. apply fs_stable_bind; [apply fs_stable_lift|]. intros c.
  apply fs_stable_bind; [by intros w r w' [= <- <-]|]. intros _.
  destruct (safe_load env c); [apply fs_stable_ret|apply fs_stable_raise].
Qed.

Create HintDb fs_stable.

#[local] Hint Resolve fs_stable_ret fs_stable_raise fs_stable_lift fs_stable_gets
  fs_stable_print fs_stable_exit fs_stable_report fs_stable_push fs_stable_pop
  fs_stable_load : fs_stable.

Lemma fs_stable_configs_loop (env : Env) (recurse : PathObj -> M (list PathObj))
    (p : PathObj) (configs : list string) (acc : list PathObj) :
  (forall q, fs_stable (recurse q)) ->
  fs_stable (Config.configs_loop env recurse p configs acc).
Proof.
  intros Hr. revert acc. induction configs as [|c configs IH]; intros acc.
  - apply fs_stable_ret.
  - cbn [Config.configs_loop]. apply fs_stable_bind; [apply fs_stable_lift|]. intros q.
    apply fs_stable_bind; [apply Hr|]. intros sub. apply IH.
Qed.

Lemma fs_stable_get_extra_configs (env : Env) (depth : nat) (p : PathObj) :
  fs_stable (Config.get_extra_configs env depth p).
Proof.
  revert p. induction depth as [|depth IH]; intros p; [apply fs_stable_raise|].
  cbn [Config.get_extra_configs].
  apply fs_stable_bind; [auto with fs_stable|]. intros stack.
  apply fs_stable_bind; [destruct (Path.mem p stack); auto with fs_stable|]. intros _.
  apply fs_stable_bind; [auto with fs_stable|]. intros _.
  apply fs_stable_bind; [auto with fs_stable|]. intros data.
  apply fs_stable_bind; [auto with fs_stable|]. intros configs.
  apply fs_stable_bind; [by apply fs_stable_configs_loop|]. intros r.
  apply fs_stable_bind; auto with fs_stable.
Qed.

Lemma fs_stable_expand (env : Env) (depth : nat) (paths acc : list PathObj) :
  fs_stable (Config.expand env depth paths acc).
Proof.
  revert acc. induction paths as [|p paths IH]; intros acc; [apply fs_stable_ret|].
  cbn [Config.expand]. apply fs_stable_bind; [apply fs_stable_get_extra_configs|].
  intros sub. apply IH.
Qed.

Lemma fs_stable_merge_key (env : Env) (p : PathObj) (self : Config.t)
    (e : ykey * yvalue) : fs_stable (Config.merge_key env p self e).
Proof.
  destruct e as [k v]. unfold Config.merge_key.
  repeat match goal with
         | |- fs_stable (if ?b then _ else _) => destruct b
         | |- fs_stable (bind _ _) => apply fs_stable_bind; [|intros ?]
         | |- _ => solve [auto with fs_stable]
         end.
Qed.

Lemma fs_stable_merge_keys (env : Env) (p : PathObj) (entries : list (ykey * yvalue))
    (self : Config.t) : fs_stable (Config.merge_keys env p entries self).
Proof.
  revert self. induction entries as [|e entries IH]; intros self; [apply fs_stable_ret|].
  cbn [Config.merge_keys]. apply fs_stable_bind; [apply fs_stable_merge_key|].
  intros s. apply IH.
Qed.

Lemma fs_stable_merge_layer (env : Env) (self : Config.t) (p : PathObj) :
  fs_stable (Config.merge_layer env self p).
Proof.
  unfold Config.merge_layer. apply fs_stable_bind.
  - intros w r w'. destruct (Config.load env p w) as [[d|e] w1] eqn:E.
    + intros [= <- <-]. by apply fs_stable_load in E.
    + apply fs_stable_load in E. unfold Error.exit_on_exception, bind, print, modify, raise.
      destruct e; intros [= <- <-]; exact E.
  - intros [entries|]; [apply fs_stable_merge_keys|apply fs_stable_raise].
Qed.

Lemma fs_stable_merge_layers (env : Env) (layers : list PathObj) (self : Config.t) :
  fs_stable (Config.merge_layers env layers self).
Proof.
  revert self. induction layers as [|p layers IH]; intros self; [apply fs_stable_ret|].
  cbn [Config.merge_layers]. apply fs_stable_bind; [apply fs_stable_merge_layer|].
  intros s. apply IH.
Qed.

(** Composing a configuration never changes the file system. *)
Lemma fs_stable_init (env : Env) (depth : nat) (paths : list PathObj) :
  fs_stable (Config.init env depth paths).
Proof.
  unfold Config.init. apply fs_stable_bind; [apply fs_stable_expand|]. intros all.
  apply fs_stable_bind; [apply fs_stable_merge_layers|]. intros self.
  apply fs_stable_bind; [destruct (Config.fqbn self); auto with fs_stable|]. intros _.
  repeat (apply fs_stable_bind; [auto with fs_stable|intros ?]).
  auto with fs_stable.
Qed.

(** ** The stack is restored on return *)

Lemma balanced_bind {A B} (m : M A) (k : A -> M B) :
  balanced m -> (forall a, balanced (k a)) -> balanced (bind m k).
Proof.
  intros Hm Hk w b w' [(a & w1 & E1 & E2)|(e & _ & [=])]%bind_inv.
  rewrite (Hk _ _ _ _ E2). by apply Hm in E1.
Qed.

Lemma balanced_ret {A} (a : A) : balanced (ret a).
Proof. by intros w r w' [= <- <-]. Qed.

Lemma balanced_raise {A} (e : exn) : balanced (@raise A e).
Proof. by intros w r w' [=]. Qed.

Lemma balanced_lift {A} (g : gmap string node -> result A) : balanced (lift g).
Proof. intros w r w'. unfold lift. by intros [= _ <-]. Qed.

Lemma balanced_print (line : string) : balanced (print line).
Proof. by intros w r w' [= <- <-]. Qed.

Lemma balanced_load (env : Env) (p : PathObj) : balanced (Config.load env p).
Proof.
  unfold Config.load. apply balanced_bind; [apply balanced_lift|]. intros c.
  apply balanced_bind; [by intros w r w' [= <- <-]|]. intros _.
  destruct (safe_load env c); [apply balanced_ret|apply balanced_raise].
Qed.

Create HintDb balanced.

#[local] Hint Resolve balanced_ret balanced_raise balanced_lift balanced_print
  balanced_load : balanced.

Lemma balanced_configs_loop (env : Env) (recurse : PathObj -> M (list PathObj))
    (p : PathObj) (configs : list string) (acc : list PathObj) :
  (forall q, balanced (recurse q)) ->
  balanced (Config.configs_loop env recurse p configs acc).
Proof.
  intros Hr. revert acc. induction configs as [|c configs IH]; intros acc.
  - apply balanced_ret.
  - cbn [Config.configs_loop]. apply balanced_bind; [apply balanced_lift|]. intros q.
    apply balanced_bind; [apply Hr|]. intros sub. apply IH.
Qed.

Lemma balanced_get_extra_configs (env : Env) (depth : nat) (p : PathObj) :
  balanced (Config.get_extra_configs env depth p).
Proof.
  revert p. induction depth as [|depth IH]; intros p; [apply balanced_raise|].
  intros w r w' H. cbn [Config.get_extra_configs] in H.
  apply bind_inv in H as [(stack & w1 & E1 & H)|(e & _ & [=])].
  injection E1 as <- <-.
  apply bind_inv in H as [([] & w2 & E2 & H)|(e & _ & [=])].
  assert (w2 = w) as ->.
  { destruct (Path.mem p (extra_config_stack w)).
    - rewrite report_cycle_run in E2. done.
    - by injection E2. }
  apply bind_inv in H as [([] & w3 & E3 & H)|(e & _ & [=])].
  injection E3 as <-.
  apply bind_inv in H as [(data & w4 & E4 & H)|(e & _ & [=])].
  apply balanced_load in E4.
  apply bind_inv in H as [(configs & w5 & E5 & H)|(e & _ & [=])].
  apply balanced_lift in E5.
  apply bind_inv in H as [(l & w6 & E6 & H)|(e & _ & [=])].
  apply balanced_configs_loop in E6; [|exact IH].
  apply bind_inv in H as [([] & w7 & E7 & H)|(e & _ & [=])].
  injection E7 as <-. injection H as _ <-.
  cbn [extra_config_stack set_stack]. rewrite E6, E5, E4.
  cbn [extra_config_stack set_stack]. apply removelast_last.
Qed.

Lemma balanced_expand (env : Env) (depth : nat) (paths acc : list PathObj) :
  balanced (Config.expand env depth paths acc).
Proof.
  revert acc. induction paths as [|p paths IH]; intros acc; [apply balanced_ret|].
  cbn [Config.expand]. apply balanced_bind; [apply balanced_get_extra_configs|].
  intros sub. apply IH.
Qed.

Lemma balanced_merge_key (env : Env) (p : PathObj) (self : Config.t)
    (e : ykey * yvalue) : balanced (Config.merge_key env p self e).
Proof.
  destruct e as [k v]. unfold Config.merge_key.
  repeat match goal with
         | |- balanced (if ?b then _ else _) => destruct b
         | |- balanced (bind _ _) => apply balanced_bind; [|intros ?]
         | |- _ => solve [auto with balanced]
         end.
Qed.

Lemma balanced_merge_keys (env : Env) (p : PathObj) (entries : list (ykey * yvalue))
    (self : Config.t) : balanced (Config.merge_keys env p entries self).
Proof.
  revert self. induction entries as [|e entries IH]; intros self; [apply balanced_ret|].
  cbn [Config.merge_keys]. apply balanced_bind; [apply balanced_merge_key|].
  intros s. apply IH.
Qed.

Lemma balanced_merge_layer (env : Env) (self : Config.t) (p : PathObj) :
  balanced (Config.merge_layer env self p).
Proof.
  unfold Config.merge_layer. apply balanced_bind.
  - intros w r w'. destruct (Config.load env p w) as [[d|e] w1] eqn:E.
    + intros [= <- <-]. by apply balanced_load in E.
    + unfold Error.exit_on_exception, bind, print, modify, raise. by destruct e.
  - intros [entries|]; [apply balanced_merge_keys|apply balanced_raise].
Qed.

Lemma balanced_merge_layers (env : Env) (layers : list PathObj) (self : Config.t) :
  balanced (Config.merge_layers env layers self).
Proof.
  revert self. induction layers as [|p layers IH]; intros self; [apply balanced_ret|].
  cbn [Config.merge_layers]. apply balanced_bind; [apply balanced_merge_layer|].
  intros s. apply IH.
Qed.

(** A composition that returns leaves the stack as it found it. *)
Lemma balanced_init (env : Env) (depth : nat) (paths : list PathObj) :
  balanced (Config.init env depth paths).
Proof.
  unfold Config.init. apply balanced_bind; [apply balanced_expand|]. intros all.
  apply balanced_bind; [apply balanced_merge_layers|]. intros self.
  apply balanced_bind;
    [destruct (Config.fqbn self); unfold Error.exit_on_error; auto with balanced|].
  intros _.
  repeat (apply balanced_bind; [auto with balanced|intros ?]).
  auto with balanced.
Qed.

(** ** The outcome depends on the file system and the stack only *)

Lemma sim_refl (w : world) : sim w w.
Proof. done. Qed.

Lemma respects_ret {A} (a : A) : respects (ret a).
Proof. by intros w1 w2 H. Qed.

Lemma respects_raise {A} (e : exn) : respects (@raise A e).
Proof. by intros w1 w2 H. Qed.

Lemma respects_lift {A} (g : gmap string node -> result A) : respects (lift g).
Proof. intros w1 w2 [H1 H2]. unfold lift. cbn [fst snd]. by rewrite H1. Qed.

Lemma respects_gets_stack : respects (gets extra_config_stack).
Proof. intros w1 w2 [H1 H2]. unfold gets. cbn [fst snd]. by rewrite H2. Qed.

Lemma respects_print (line : string) : respects (print line).
Proof. by intros w1 w2 [H1 H2]. Qed.

Lemma respects_push (p : PathObj) : respects (Config.push p).
Proof.
  intros w1 w2 [H1 H2]. unfold Config.push, modify, sim.
  cbn [fst snd fs extra_config_stack set_stack]. by rewrite H1, H2.
Qed.

Lemma respects_pop : respects Config.pop.
Proof.
  intros w1 w2 [H1 H2]. unfold Config.pop, modify, sim.
  cbn [fst snd fs extra_config_stack set_stack]. by rewrite H1, H2.
Qed.

Lemma respects_bind {A B} (m : M A) (k : A -> M B) :
  respects m -> (forall a, respects (k a)) -> respects (bind m k).
Proof.
  intros Hm Hk w1 w2 H. destruct (Hm w1 w2 H) as [E S]. unfold bind.
  destruct (m w1) as [[a1|e1] v1], (m w2) as [[a2|e2] v2]; cbn [fst snd] in *;
    try done.
  - injection E as <-. by apply Hk.
  - by injection E as <-.
Qed.

Lemma respects_load (env : Env) (p : PathObj) : respects (Config.load env p).
Proof.
  unfold Config.load. apply respects_bind; [apply respects_lift|]. intros c.
  apply respects_bind; [by intros w1 w2 [H1 H2]|]. intros _.
  destruct (safe_load env c); [apply respects_ret|apply respects_raise].
Qed.

Lemma respects_for_each {A} (l : list A) (body : A -> M unit) :
  (forall x, respects (body x)) -> respects (for_each l body).
Proof.
  intros H. induction l as [|x l IH]; [apply respects_ret|].
  cbn [for_each]. apply respects_bind; [apply H|]. by intros _.
Qed.

Lemma respects_report (p : PathObj) (stack : list PathObj) :
  respects (Config.report_cycle p stack).
Proof.
  unfold Config.report_cycle.
  apply respects_bind; [apply respects_print|]. intros _.
  apply respects_bind; [apply respects_print|]. intros _.
  apply respects_bind; [|intros _; apply respects_raise].
  apply respects_for_each. intros x. apply respects_print.
Qed.

Create HintDb respects.

#[local] Hint Resolve respects_ret respects_raise respects_lift respects_gets_stack
  respects_print respects_push respects_pop respects_load respects_report : respects.

Lemma respects_configs_loop (env : Env) (recurse : PathObj -> M (list PathObj))
    (p : PathObj) (configs : list string) (acc : list PathObj) :
  (forall q, respects (recurse q)) ->
  respects (Config.configs_loop env recurse p configs acc).
Proof.
  intros Hr. revert acc. induction configs as [|c configs IH]; intros acc.
  - apply respects_ret.
  - cbn [Config.configs_loop]. apply respects_bind; [apply respects_lift|]. intros q.
    apply respects_bind; [apply Hr|]. intros sub. apply IH.
Qed.

Lemma respects_get_extra_configs (env : Env) (depth : nat) (p : PathObj) :
  respects (Config.get_extra_configs env depth p).
Proof.
  revert p. induction depth as [|depth IH]; intros p; [apply respects_raise|].
  cbn [Config.get_extra_configs].
  apply respects_bind; [auto with respects|]. intros stack.
  apply respects_bind; [destruct (Path.mem p stack); auto with respects|]. intros _.
  apply respects_bind; [auto with respects|]. intros _.
  apply respects_bind; [auto with respects|]. intros data.
  apply respects_bind; [auto with respects|]. intros configs.
  apply respects_bind; [by apply respects_configs_loop|]. intros r.
  apply respects_bind; auto with respects.
Qed.

Lemma respects_expand (env : Env) (depth : nat) (paths acc : list PathObj) :
  respects (Config.expand env depth paths acc).
Proof.
  revert acc. induction paths as [|p paths IH]; intros acc; [apply respects_ret|].
  cbn [Config.expand]. apply respects_bind; [apply respects_get_extra_configs|].
  intros sub. apply IH.
Qed.

Lemma respects_merge_key (env : Env) (p : PathObj) (self : Config.t)
    (e : ykey * yvalue) : respects (Config.merge_key env p self e).
Proof.
  destruct e as [k v]. unfold Config.merge_key.
  repeat match goal with
         | |- respects (if ?b then _ else _) => destruct b
         | |- respects (bind _ _) => apply respects_bind; [|intros ?]
         | |- _ => solve [auto with respects]
         end.
Qed.

Lemma respects_merge_keys (env : Env) (p : PathObj) (entries : list (ykey * yvalue))
    (self : Config.t) : respects (Config.merge_keys env p entries self).
Proof.
  revert self. induction entries as [|e entries IH]; intros self; [apply respects_ret|].
  cbn [Config.merge_keys]. apply respects_bind; [apply respects_merge_key|].
  intros s. apply IH.
Qed.

Lemma respects_merge_layer (env : Env) (self : Config.t) (p : PathObj) :
  respects (Config.merge_layer env self p).
Proof.
  unfold Config.merge_layer. apply respects_bind.
  - intros w1 w2 H. destruct (respects_load env p w1 w2 H) as [E S].
    destruct (Config.load env p w1) as [[d1|e1] v1],
      (Config.load env p w2) as [[d2|e2] v2]; cbn [fst snd] in *; try done.
    injection E as <-. destruct S as [S1 S2].
    unfold Error.exit_on_exception, bind, print, modify, raise.
    by destruct e1.
  - intros [entries|]; [apply respects_merge_keys|apply respects_raise].
Qed.

Lemma respects_merge_layers (env : Env) (layers : list PathObj) (self : Config.t) :
  respects (Config.merge_layers env layers self).
Proof.
  revert self. induction layers as [|p layers IH]; intros self; [apply respects_ret|].
  cbn [Config.merge_layers]. apply respects_bind; [apply respects_merge_layer|].
  intros s. apply IH.
Qed.

(** The outcome of a composition is decided by the file system and the
    stack it starts from. *)
Lemma respects_init (env : Env) (depth : nat) (paths : list PathObj) :
  respects (Config.init env depth paths).
Proof.
  unfold Config.init. apply respects_bind; [apply respects_expand|]. intros all.
  apply respects_bind; [apply respects_merge_layers|]. intros self.
  apply respects_bind;
    [destruct (Config.fqbn self); unfold Error.exit_on_error; auto with respects|].
  intros _.
  repeat (apply respects_bind; [auto with respects|intros ?]).
  auto with respects.
Qed.

End ConfigFacts.

(* ===================================================================== *)
(** * Removing and writing generated files *)
(* ===================================================================== *)

Module ArtifactFacts.
Import FsFacts.

Lemma node_at_root_canonical (f : gmap string node) (p : string) :
  node_at f p = None -> p <> "/".
Proof. intros H ->. done. Qed.

Lemma node_at_file_not_root (f : gmap string node) (p c : string) :
  node_at f p = Some (File c) -> p <> "/".
Proof. intros H ->. done. Qed.

Lemma node_at_lookup (f : gmap string node) (p : string) :
  p <> "/" -> node_at f p = f !! p.
Proof. intros H. unfold node_at. by apply String.eqb_neq in H as ->. Qed.

(** [safely_remove_or_exit] in one piece: every test is made on the file
    system it starts from. *)
Lemma safely_remove_run (env : Env) (self : PathObj) (w : world) :
  Path.safely_remove_or_exit env self w
  = if negb (Path.exists_ env (fs w) self) then (Ok tt, w)
    else if negb (Path.isfile env (fs w) self) then
      (Raise (Exception
                (path self
                 +:+ " cannot be safely removed (not a file), please remove it manually")),
       w)
    else match Path.generated_by_us env (fs w) self with
         | Raise e => (Raise e, w)
         | Ok ours =>
             if negb ours && negb (Path.isemptyfile env (fs w) self) then
               (Raise (Exception
                         (path self
                          +:+ " cannot be safely removed (not empty, not generated by us), please remove it manually")),
                w)
             else Path.os_remove env self w
         end.
Proof.
  unfold Path.safely_remove_or_exit, bind, gets, lift, ret, Error.exit_on_error, raise.
  cbv beta.
  destruct (Path.exists_ env (fs w) self); cbn [negb]; cbv beta iota; [|reflexivity].
  destruct (Path.isfile env (fs w) self); cbn [negb]; cbv beta iota; [|reflexivity].
  destruct (Path.generated_by_us env (fs w) self) as [ours|e]; cbv beta iota;
    [|reflexivity].
  destruct (negb ours && negb (Path.isemptyfile env (fs w) self)); reflexivity.
Qed.

(** A safe removal that returns has deleted the name, which was absent or
    a plain file. *)
Lemma safely_remove_ok (env : Env) (self : PathObj) (w w' : world) :
  is_canonical (fs w) (path self) = true ->
  Path.safely_remove_or_exit env self w = (Ok tt, w') ->
  fs w' = delete (path self) (fs w)
  /\ same_links (fs w) (fs w')
  /\ node_at (fs w') (path self) = None.
Proof.
  intros Hc. rewrite safely_remove_run.
  unfold Path.isemptyfile, Path.generated_by_us, Path.read_lines, Path.os_remove.
  unfold Path.exists_, Path.isfile.
  rewrite !exists_canonical, !isfile_canonical, read_canonical, remove_canonical by done.
  destruct (node_at (fs w) (path self)) as [[c| |t]|] eqn:E; cbn [negb rbind];
    cbv beta iota; try done.
  - destruct (negb _ && negb _); [done|].
    intros [= <-]. cbn [fs set_fs].
    split; [done|]. split; [apply same_links_delete; by rewrite E|].
    rewrite node_at_delete. apply node_at_file_not_root in E.
    apply String.eqb_neq in E as ->. by rewrite String.eqb_refl.
  - intros [= <-]. pose proof (node_at_root_canonical _ _ E) as Hr.
    rewrite node_at_lookup in E by done.
    rewrite delete_id by done. split; [done|]. split; [done|].
    by rewrite node_at_lookup.
Qed.

(** Lines written to a name that is absent make a new file of them;
    written to a file they are added at its end. *)
Lemma write_lines_ok (env : Env) (self : PathObj) (lines : list string) (w w' : world) :
  is_canonical (fs w) (path self) = true ->
  Path.write_lines env self lines w = (Ok tt, w') ->
  exists old,
    (node_at (fs w) (path self) = None /\ old = EmptyString
     \/ node_at (fs w) (path self) = Some (File old))
    /\ fs w' = <[path self := File (old +:+ Str.concat_all lines)]> (fs w)
    /\ same_links (fs w) (fs w')
    /\ path self <> "/".
Proof.
  intros Hc. unfold Path.write_lines. rewrite append_canonical by done.
  destruct (node_at (fs w) (path self)) as [[c| |t]|] eqn:E; try done.
  - intros [= <-]. exists c. cbn [fs set_fs]. split; [by right|]. split; [done|].
    split; [apply same_links_insert_file; by rewrite E|].
    by eapply node_at_file_not_root.
  - destruct (node_at (fs w) (dirname (path self))) as [[| |]|]; try done.
    intros [= <-]. exists EmptyString. cbn [fs set_fs]. split; [by left|].
    split; [done|]. split; [apply same_links_insert_file; by rewrite E|].
    by eapply node_at_root_canonical.
Qed.

(** Reading back a file. *)
Lemma read_lines_file (env : Env) (f : gmap string node) (self : PathObj) (c : string) :
  is_canonical f (path self) = true ->
  node_at f (path self) = Some (File c) ->
  Path.read_lines env f self = Ok (readlines c).
Proof.
  intros Hc Hn. unfold Path.read_lines. rewrite read_canonical by done. by rewrite Hn.
Qed.

Lemma render_extends (step : string -> result (list string)) (in_lines acc out : list string) :
  Makefile.render step in_lines acc = Ok out -> exists tail, out = acc ++ tail.
Proof.
  revert acc. induction in_lines as [|l in_lines IH]; intros acc.
  - intros [= <-]. exists []. by rewrite List.app_nil_r.
  - cbn [Makefile.render]. destruct (step l) as [x|]; [|done]. cbn [rbind].
    intros (tail & ->)%IH. exists (x ++ tail). by rewrite List.app_assoc.
Qed.

(** A text that starts with the header has the marker as its first
    line. *)
Lemma readlines_header (env : Env) (old : string) (tail : list string) :
  exists rest,
    readlines (Str.concat_all (Constants.header_strings env ++ tail))
    = Constants.generated_by_us_string :: rest.
Proof.
  unfold Constants.header_strings. cbn [app]. rewrite LineFacts.concat_all_cons.
  rewrite LineFacts.marker_eq, StrFacts.sapp_assoc.
  rewrite LineFacts.readlines_line by reflexivity. eauto.
Qed.

(** Appending to a text keeps its first lines. *)
Lemma readlines_app_line (m rest more : string) :
  no_lf m = true -> no_cr m = true ->
  readlines ((m +:+ nl +:+ rest) +:+ more) = (m +:+ nl) :: readlines (rest +:+ more).
Proof.
  intros H1 H2. rewrite !StrFacts.sapp_assoc. by apply LineFacts.readlines_line.
Qed.

End ArtifactFacts.

(* ===================================================================== *)
(** * The relative form of a path *)
(* ===================================================================== *)

(** C10: [rel_path()] raises [ValueError] exactly when the path is
    [Absolute]; on a [User] path it returns the location relative to the
    user's home directory, and on a [Relative] path the location relative
    to the stored base directory. *)
Theorem rel_path_raises_iff_absolute (env : Env) (self : PathObj) :
  Path_wf env self ->
  ((exists msg, Path.rel_path env self = Raise (ValueError msg)) <-> _type self = Absolute)
  /\ (_type self = User ->
      Path.rel_path env self
      = Ok (relpath (cwd env) (path self) (expanduser (home env) "~/")))
  /\ (forall b, _type self = Relative -> basedir self = Some b ->
      Path.rel_path env self = Ok (relpath (cwd env) (path self) b)).
Proof.
  intros [Habs Hbase].
  assert (Hne : String.eqb (path self) EmptyString = false).
  { apply String.eqb_neq. by apply PathInvariant.isabs_not_empty. }
  unfold Path.rel_path, Path.relpath_checked. rewrite Hne.
  destruct (_type self) eqn:Ht.
  - split; [|split]; [|done|].
    + split; [by intros (msg & [=])|done].
    + intros b _ ->. reflexivity.
  - split; [|split]; [|done|done].
    split; [done|]. intros _. by eexists.
  - split; [|split]; [| |done].
    + split; [by intros (msg & [=])|done].
    + intros _. by rewrite Hbase.
Qed.

Lemma rel_path_raises_iff_absolute_witness :
  Path_wf env_demo user_lib /\ Path.rel_path env_demo user_lib = Ok "Arduino/lib".
Proof.
  assert (Hwf : Path_wf env_demo user_lib) by (split; reflexivity).
  split; [exact Hwf|].
  destruct (rel_path_raises_iff_absolute env_demo user_lib Hwf) as (_ & H & _).
  rewrite H; reflexivity.
Defined.

(* ===================================================================== *)
(** * Relativizing a path *)
(* ===================================================================== *)

(** C1, as amended: when the base directory is itself a canonical
    location, the location of [Path(p, base)] is canonical, and its
    relative form does not begin with [~/], [to_relative(base)] yields a
    [Relative] path on [base] with the same location. *)
Theorem to_relative_keeps_location (env : Env) (f : gmap string node)
    (p base : string) (x : PathObj) :
  Path.check_basedir_valid env f (Some base) = Ok true ->
  is_canonical f base = true ->
  Path.init env f p (Some base) = Ok x ->
  is_canonical f (path x) = true ->
  Str.startswith (relpath (cwd env) (path x) base) "~/" = false ->
  exists y, Path.to_relative env f x base = Ok y
            /\ path y = path x /\ _type y = Relative /\ basedir y = Some base.
Proof.
  intros Hvalid Hbase _ Hx Htilde.
  apply CanonicalFacts.is_canonical_spec in Hbase as (bs & -> & Gbs & Lbs).
  destruct x as [ty bd loc]. cbn [path] in *.
  apply CanonicalFacts.is_canonical_spec in Hx as (ps & -> & Gps & Lps).
  unfold Path.to_relative, Path.relpath_checked. cbn [path].
  rewrite Hvalid. cbn [rbind].
  change (String.eqb (abs_of ps) EmptyString) with false. cbn iota. cbn [rbind].
  unfold Path.init. rewrite Htilde.
  rewrite CanonicalFacts.relpath_not_abs by done.
  rewrite Hvalid. cbn [rbind default].
  eexists. split; [reflexivity|]. cbn [path _type basedir].
  split; [|done]. by apply CanonicalFacts.realpath_join_relpath.
Qed.

Lemma to_relative_keeps_location_witness :
  let x := mkPath Relative (Some "/proj") "/opt/agm/templates" in
  Path.check_basedir_valid env_demo fs_demo (Some "/proj") = Ok true
  /\ is_canonical fs_demo "/proj" = true
  /\ Path.init env_demo fs_demo "../opt/agm/./templates" (Some "/proj") = Ok x
  /\ is_canonical fs_demo (path x) = true
  /\ Str.startswith (relpath (cwd env_demo) (path x) "/proj") "~/" = false
  /\ exists y, Path.to_relative env_demo fs_demo x "/proj" = Ok y
               /\ path y = path x /\ _type y = Relative /\ basedir y = Some "/proj".
Proof.
  intros x.
  assert (H1 : Path.check_basedir_valid env_demo fs_demo (Some "/proj") = Ok true)
    by (vm_compute; reflexivity).
  assert (H2 : is_canonical fs_demo "/proj" = true) by (vm_compute; reflexivity).
  assert (H3 : Path.init env_demo fs_demo "../opt/agm/./templates" (Some "/proj") = Ok x)
    by (vm_compute; reflexivity).
  assert (H4 : is_canonical fs_demo (path x) = true) by (vm_compute; reflexivity).
  assert (H5 : Str.startswith (relpath (cwd env_demo) (path x) "/proj") "~/" = false)
    by (vm_compute; reflexivity).
  repeat (split; [assumption|]).
  exact (to_relative_keeps_location env_demo fs_demo _ "/proj" x H1 H2 H3 H4 H5).
Defined.

(** C1 as stated fails on a base directory that is a symbolic link:
    [/a/link] points to [/x/y/z], the location of [Path("p", "/a/link")]
    is [/x/y/z/p], and its relative form [../../x/y/z/p], taken from
    [/a/link] again, resolves to [/x/x/y/z/p]. *)
Lemma to_relative_symlinked_base_moves :
  exists x y,
    Path.check_basedir_valid env_demo fs_ex1 (Some "/a/link") = Ok true
    /\ Path.init env_demo fs_ex1 "p" (Some "/a/link") = Ok x
    /\ Path.to_relative env_demo fs_ex1 x "/a/link" = Ok y
    /\ path x = "/x/y/z/p" /\ path y = "/x/x/y/z/p" /\ path y <> path x.
Proof.
  exists (mkPath Relative (Some "/a/link") "/x/y/z/p").
  exists (mkPath Relative (Some "/a/link") "/x/x/y/z/p").
  repeat split; try (vm_compute; reflexivity). discriminate.
Qed.

(** The relative form is classified again by [Path.__init__]: under a
    directory named [~] it begins with [~/], and the result is a [User]
    path in the home directory. *)
Lemma to_relative_tilde_directory :
  exists x y,
    Path.init env_demo fs_demo "./~/x" (Some "/proj") = Ok x
    /\ Path.to_relative env_demo fs_demo x "/proj" = Ok y
    /\ path x = "/proj/~/x" /\ _type y = User /\ path y = "/home/u/x".
Proof.
  exists (mkPath Relative (Some "/proj") "/proj/~/x").
  exists (mkPath User (Some "/home/u/") "/home/u/x").
  repeat split; vm_compute; reflexivity.
Qed.

(* ===================================================================== *)
(** * Removing a file safely *)
(* ===================================================================== *)




(* ===================================================================== *)
(** * Merging the layers *)
(* ===================================================================== *)

(** X27: merging layers whose keys are strings.  When every layer can
    be read and parses to a mapping keyed by strings, and its
    list-valued entries can be iterated and resolved, merging the layers
    in order succeeds; list-valued fields are the earlier value followed
    by everything declared, in order; scalar fields hold the last value
    declared; every entry under an unrecognized key adds a warning to the
    output and nothing else; and the path-valued fields hold every
    declared string resolved against the parent directory of its
    declaring file. *)
Theorem merge_layers_appends_and_overwrites (env : Env)
    (layers : list (PathObj * list (string * yvalue))) (self : Config.t) (w : world) :
  Forall (layer_loads env (fs w)) layers ->
  forallb (layer_ok env (fs w)) layers = true ->
  exists self' w' libs dirs excluded,
    Config.merge_layers env (map fst layers) self w = (Ok self', w')
    /\ Config.cflags self' = Config.cflags self ++ appended "cflags" (flatten layers)
    /\ Config.fqbn self' = last_value "fqbn" (Config.fqbn self) (flatten layers)
    /\ Config.debug_command self'
       = last_value "debug_command" (Config.debug_command self) (flatten layers)
    /\ Config.baudrate self' = last_value "baudrate" (Config.baudrate self) (flatten layers)
    /\ rmap_list (resolve_declared env (fs w)) (declared "libs" (flatten layers)) = Ok libs
    /\ Config.lib_paths self' = Config.lib_paths self ++ libs
    /\ rmap_list (resolve_declared env (fs w)) (declared "qmake_dirs" (flatten layers))
       = Ok dirs
    /\ Config.qmake_dirs self' = Config.qmake_dirs self ++ dirs
    /\ rmap_list (resolve_declared env (fs w))
         (declared "qmake_exclude_dirs" (flatten layers)) = Ok excluded
    /\ Config.qmake_exclude_dirs self' = Config.qmake_exclude_dirs self ++ excluded
    /\ stdout w' = stdout w ++ warnings env (flatten layers)
    /\ fs w' = fs w.
Proof.
  intros Hl Hok.
  destruct (MergeFacts.merge_layers_spec env self w layers [] self w
              (MergeFacts.merged_refl env self w) Hl Hok) as (s' & w' & E & Hm).
  cbn [app] in Hm. destruct Hm as [M1 M2 M3 M4 M5 M6 M7 M8 M9 M10 M11 M12].
  destruct M7 as (libs & ? & ?), M8 as (dirs & ? & ?), M9 as (excl & ? & ?).
  exists s', w', libs, dirs, excl. repeat (split; [done|]). done.
Qed.

Lemma merge_layers_appends_and_overwrites_witness :
  Forall (layer_loads env_demo (fs world_demo)) [layer_X; layer_Y]
  /\ forallb (layer_ok env_demo (fs world_demo)) [layer_X; layer_Y] = true
  /\ exists self' w',
       Config.merge_layers env_demo (map fst [layer_X; layer_Y]) (config_defaults [] [])
         world_demo = (Ok self', w')
       /\ Config.cflags self' = ["a"; "b"]
       /\ Config.baudrate self' = YStr "57600"
       /\ Config.lib_paths self' = [mkPath Relative (Some "/proj") "/proj/libA"]
       /\ stdout w'
          = ["Warning: unhandled key colour in configuration file "
             +:+ "<__main__.Path object at 0x7f00>"].
Proof.
  assert (H1 : Forall (layer_loads env_demo (fs world_demo)) [layer_X; layer_Y]).
  { repeat constructor; eexists; split; vm_compute; reflexivity. }
  assert (H2 : forallb (layer_ok env_demo (fs world_demo)) [layer_X; layer_Y] = true)
    by (vm_compute; reflexivity).
  split; [exact H1|]. split; [exact H2|].
  destruct (merge_layers_appends_and_overwrites env_demo [layer_X; layer_Y]
              (config_defaults [] []) world_demo H1 H2)
    as (s' & w' & libs & dirs & excl & E & Hc & _ & _ & Hb & Hl & Hlp & _ & _ & _ & _ & Ho & _).
  exists s', w'. split; [exact E|].
  split; [rewrite Hc; vm_compute; reflexivity|].
  split; [rewrite Hb; vm_compute; reflexivity|].
  split; [|rewrite Ho; vm_compute; reflexivity].
  rewrite Hlp. vm_compute in Hl. injection Hl as <-. vm_compute. reflexivity.
Defined.

(** C3: an unrecognized key that is not a string is fatal.  The file
    [k.yaml] holds the lines [fqbn: arduino:avr:uno] and [1: x], and the
    parser gives the key of the second line as the number 1.  Composing
    the file raises [TypeError] where the text of the warning is put
    together, before anything is printed.  The same file with the key
    [colour] in the place of [1] is composed, and the first line of its
    output is the warning. *)
Theorem non_string_key_is_fatal :
  Config.init env_keys 10 [proj_path "k.yaml"] world_keys
  = (Raise TypeError, mkWorld fs_keys [] [] ["/proj/k.yaml"; "/proj/k.yaml"])
  /\ is_ok (fst (Config.init env_keys 10 [proj_path "s.yaml"] world_keys)) = true
  /\ take 1 (stdout (snd (Config.init env_keys 10 [proj_path "s.yaml"] world_keys)))
     = ["Warning: unhandled key colour in configuration file "
        +:+ "<__main__.Path object at 0x7f00>"].
Proof. repeat split; vm_compute; reflexivity. Qed.

(* ===================================================================== *)
(** * The inclusion stack between compositions *)
(* ===================================================================== *)

(** C8, as amended: the inclusion stack is an attribute of the class,
    shared by all compositions of the process; a composition that returns
    leaves the stack and the file system as it found them, so that a
    second composition of the same configuration returns the same
    result and again leaves the stack as it was. *)
Theorem composition_restores_stack (env : Env) (depth : nat) (paths : list PathObj)
    (w : world) (c : Config.t) (w' : world) :
  Config.init env depth paths w = (Ok c, w') ->
  extra_config_stack w' = extra_config_stack w
  /\ fs w' = fs w
  /\ exists w'', Config.init env depth paths w' = (Ok c, w'')
                 /\ extra_config_stack w'' = extra_config_stack w.
Proof.
  intros H.
  pose proof (ConfigFacts.balanced_init env depth paths w c w' H) as Hs.
  pose proof (ConfigFacts.fs_stable_init env depth paths w _ w' H) as Hf.
  split; [done|]. split; [done|].
  destruct (ConfigFacts.respects_init env depth paths w w') as [E _]; [by split|].
  rewrite H in E. cbn [fst] in E.
  destruct (Config.init env depth paths w') as [r w''] eqn:E'. cbn [fst] in E. subst r.
  exists w''. split; [done|].
  rewrite (ConfigFacts.balanced_init env depth paths w' c w'' E'). exact Hs.
Qed.

Lemma composition_restores_stack_witness :
  exists c w',
    Config.init env_demo 10 [proj_path "f.yaml"; proj_path "d.yaml"] world_demo = (Ok c, w')
    /\ extra_config_stack w' = []
    /\ fs w' = fs_demo
    /\ exists w'', Config.init env_demo 10 [proj_path "f.yaml"; proj_path "d.yaml"] w'
                   = (Ok c, w'')
                   /\ extra_config_stack w'' = [].
Proof.
  destruct (Config.init env_demo 10 [proj_path "f.yaml"; proj_path "d.yaml"] world_demo)
    as [r w'] eqn:E.
  assert (Hr : exists c, r = Ok c).
  { apply (f_equal fst) in E. cbn [fst] in E. rewrite <- E. vm_compute. eauto. }
  destruct Hr as (c & ->). exists c, w'. split; [reflexivity|].
  exact (composition_restores_stack env_demo 10 _ world_demo c w' E).
Defined.

(** C8 as stated fails after a composition that raises: [m.yaml] includes
    a file that does not exist; the composition raises
    [FileNotFoundError] and leaves both paths on the stack, and the same
    composition, run again, raises [CircularInclusion]. *)
Lemma failed_composition_keeps_stack :
  let w1 := snd (Config.init env_demo 10 [proj_path "m.yaml"] world_demo) in
  extra_config_stack world_demo = []
  /\ fst (Config.init env_demo 10 [proj_path "m.yaml"] world_demo)
     = Raise (FileNotFoundError "/proj/missing.yaml")
  /\ extra_config_stack w1 = [proj_path "m.yaml"; proj_path "missing.yaml"]
  /\ fst (Config.init env_demo 10 [proj_path "m.yaml"] w1) = Raise CircularInclusion.
Proof.
  cbv zeta.
  split; [reflexivity|].
  split; [vm_compute; reflexivity|].
  split; vm_compute; reflexivity.
Qed.

(* ===================================================================== *)
(** * Circular inclusion *)
(* ===================================================================== *)

Module CycleFacts.

Lemma bind_ok {A B} (m : M A) (k : A -> M B) (w : world) (a : A) (w1 : world) :
  m w = (Ok a, w1) -> bind m k w = k a w1.
Proof. intros H. unfold bind. by rewrite H. Qed.

Lemma bind_raise {A B} (m : M A) (k : A -> M B) (w : world) (e : exn) (w1 : world) :
  m w = (Raise e, w1) -> bind m k w = (Raise e, w1).
Proof. intros H. unfold bind. by rewrite H. Qed.

(** Entering a file that is not on the stack: it is pushed, loaded, and
    its inclusions are expanded. *)
Lemma enter (env : Env) (depth : nat) (p : PathObj) (w : world) (content : string)
    (data : yaml) (configs : list string) :
  Path.mem p (extra_config_stack w) = false ->
  FS.read (cwd env) (fs w) (path p) = Ok content ->
  safe_load env content = Some data ->
  Config.configs_of data = Ok configs ->
  Config.get_extra_configs env (S depth) p w
  = bind (Config.configs_loop env (Config.get_extra_configs env depth) p configs [])
      (fun r => bind Config.pop (fun _ => ret r))
      (mkWorld (fs w) (extra_config_stack w ++ [p]) (stdout w) (yaml_loads w ++ [path p])).
Proof.
  intros Hm Hr Hl Hc. cbn [Config.get_extra_configs].
  unfold bind at 1. unfold gets at 1. rewrite Hm.
  unfold bind at 1. unfold ret at 1.
  unfold bind at 1. unfold Config.push, modify at 1.
  unfold bind at 1. unfold Config.load.
  unfold bind at 1. unfold lift at 1. cbn [fs set_stack]. rewrite Hr.
  unfold bind at 1. unfold modify at 1. rewrite Hl. unfold ret at 1.
  unfold bind at 1. unfold lift at 1. rewrite Hc.
  cbn [fs extra_config_stack stdout yaml_loads set_stack]. reflexivity.
Qed.

(** Meeting a path that is on the stack. *)
Lemma reenter (env : Env) (depth : nat) (p : PathObj) (w : world) :
  Path.mem p (extra_config_stack w) = true ->
  Config.get_extra_configs env (S depth) p w
  = (Raise CircularInclusion,
     mkWorld (fs w) (extra_config_stack w)
       (stdout w ++ cycle_report p (extra_config_stack w)) (yaml_loads w)).
Proof.
  intros Hm. cbn [Config.get_extra_configs].
  unfold bind at 1. unfold gets at 1. rewrite Hm.
  apply bind_raise. apply ConfigFacts.report_cycle_run.
Qed.

(** A single inclusion whose expansion raises. *)
Lemma single_inclusion_raises (env : Env) (recurse : PathObj -> M (list PathObj))
    (p q : PathObj) (config : string) (w : world) (e : exn) (w' : world) :
  Path.init env (fs w) config (Some (dirname (path p))) = Ok q ->
  recurse q w = (Raise e, w') ->
  bind (Config.configs_loop env recurse p [config] [])
    (fun r => bind Config.pop (fun _ => ret r)) w
  = (Raise e, w').
Proof.
  intros Hi Hr. apply bind_raise. cbn [Config.configs_loop].
  unfold bind at 1. unfold lift at 1. cbn [Path.parent_dir path]. rewrite Hi.
  by apply bind_raise.
Qed.

End CycleFacts.

(** C2, as amended: whenever [get_extra_configs] is entered on a path
    that is already on the inclusion stack it raises [CircularInclusion],
    having printed the path and the whole stack, and without opening or
    parsing any file; and when a file A includes just B and B includes
    just A, composing A from an empty stack raises [CircularInclusion]
    with the stack A, B reported, after A and B have each been parsed
    once. *)
Theorem reentry_raises_circular_inclusion (env : Env) :
  (forall depth p w,
     Path.mem p (extra_config_stack w) = true ->
     Config.get_extra_configs env (S depth) p w
     = (Raise CircularInclusion,
        mkWorld (fs w) (extra_config_stack w)
          (stdout w ++ cycle_report p (extra_config_stack w)) (yaml_loads w)))
  /\ (forall depth A B A' a b cA cB dA dB w,
        extra_config_stack w = [] ->
        FS.read (cwd env) (fs w) (path A) = Ok cA ->
        safe_load env cA = Some dA ->
        Config.configs_of dA = Ok [b] ->
        Path.init env (fs w) b (Some (dirname (path A))) = Ok B ->
        path B <> path A ->
        FS.read (cwd env) (fs w) (path B) = Ok cB ->
        safe_load env cB = Some dB ->
        Config.configs_of dB = Ok [a] ->
        Path.init env (fs w) a (Some (dirname (path B))) = Ok A' ->
        path A' = path A ->
        Config.init env (S (S (S depth))) [A] w
        = (Raise CircularInclusion,
           mkWorld (fs w) [A; B] (stdout w ++ cycle_report A' [A; B])
             (yaml_loads w ++ [path A; path B]))).
Proof.
  split; [intros; by apply CycleFacts.reenter|].
  intros depth A B A' a b cA cB dA dB w Hs HrA HlA HcA HiB Hne HrB HlB HcB HiA HA'.
  unfold Config.init. apply CycleFacts.bind_raise.
  cbn [Config.expand]. apply CycleFacts.bind_raise.
  rewrite (CycleFacts.enter env _ A w cA dA [b]); [|by rewrite Hs|done..].
  rewrite Hs. cbn [app].
  apply (CycleFacts.single_inclusion_raises env _ A B b); [done|].
  rewrite (CycleFacts.enter env _ B _ cB dB [a]); [|cbn|done..].
  2:{ unfold Path.eq. apply String.eqb_neq in Hne. rewrite String.eqb_sym in Hne.
      by rewrite Hne. }
  cbn [fs extra_config_stack stdout yaml_loads app].
  apply (CycleFacts.single_inclusion_raises env _ B A' a); [done|].
  rewrite CycleFacts.reenter.
  - cbn [fs extra_config_stack stdout yaml_loads]. by rewrite <- List.app_assoc.
  - cbn. unfold Path.eq. by rewrite HA', String.eqb_refl.
Qed.

Lemma reentry_raises_circular_inclusion_witness :
  Config.init env_demo 3 [proj_path "a.yaml"] world_demo
  = (Raise CircularInclusion,
     mkWorld fs_demo [proj_path "a.yaml"; proj_path "b.yaml"]
       (cycle_report (proj_path "a.yaml") [proj_path "a.yaml"; proj_path "b.yaml"])
       ["/proj/a.yaml"; "/proj/b.yaml"]).
Proof.
  destruct (reentry_raises_circular_inclusion env_demo) as [_ H].
  refine (H 0 (proj_path "a.yaml") (proj_path "b.yaml") (proj_path "a.yaml")
            "a.yaml" "b.yaml" "A" "B"
            (YMap (string_keyed [("configs", YSeq ["b.yaml"])]))
            (YMap (string_keyed [("configs", YSeq ["a.yaml"])]))
            world_demo _ _ _ _ _ _ _ _ _ _ _);
    try (vm_compute; reflexivity).
  vm_compute. discriminate.
Defined.

(** C2 as stated fails where the files of a cycle share an inclusion:
    [a2.yaml] includes [d.yaml] and [b2.yaml], [b2.yaml] includes
    [d.yaml] and [a2.yaml]; the composition raises [CircularInclusion]
    after [d.yaml] has been parsed twice. *)
Lemma shared_inclusion_parsed_twice :
  fst (Config.init env_demo 10 [proj_path "a2.yaml"] world_demo) = Raise CircularInclusion
  /\ yaml_loads (snd (Config.init env_demo 10 [proj_path "a2.yaml"] world_demo))
     = ["/proj/a2.yaml"; "/proj/d.yaml"; "/proj/b2.yaml"; "/proj/d.yaml"].
Proof. split; vm_compute; reflexivity. Qed.

(* ===================================================================== *)
(** * A configuration without a board identifier *)
(* ===================================================================== *)

Module MainFacts.

Lemma stateless_ret {A} (a : A) : stateless (ret a).
Proof. by intros w r w' [= <- <-]. Qed.

Lemma stateless_raise {A} (e : exn) : stateless (@raise A e).
Proof. by intros w r w' [= <- <-]. Qed.

Lemma stateless_lift {A} (g : gmap string node -> result A) : stateless (lift g).
Proof. by intros w r w' [= <- <-]. Qed.

Lemma stateless_bind {A B} (m : M A) (k : A -> M B) :
  stateless m -> (forall a, stateless (k a)) -> stateless (bind m k).
Proof.
  intros Hm Hk w r w' [(a & w1 & E1 & E2)|(e & E1 & _)]%ConfigFacts.bind_inv.
  - apply Hm in E1 as ->. by apply Hk in E2.
  - by apply Hm in E1.
Qed.

(** The checks of [main] read the file system and change nothing. *)
Lemma stateless_main_checks (env : Env) (args : Args) : stateless (main_checks env args).
Proof.
  unfold main_checks, Error.exit_on_error.
  repeat match goal with
         | |- stateless (bind _ _) => apply stateless_bind; [|intros ?]
         | |- stateless (if ?b then _ else _) => destruct b
         | |- stateless (match ?x with Some _ => _ | None => _ end) => destruct x
         | |- _ => first [apply stateless_ret|apply stateless_raise|apply stateless_lift]
         end.
Qed.

Lemma last_value_no_entry (key : string) (d : yvalue)
    (es : list (PathObj * (string * yvalue))) :
  forallb (fun e => negb (String.eqb (fst (snd e)) key)) es = true ->
  last_value key d es = d.
Proof.
  intros H. unfold last_value.
  destruct (List.find _ (rev es)) as [e|] eqn:E; [|done].
  apply find_some in E as [Hin He]. apply in_rev in Hin.
  rewrite forallb_forall in H. apply H in Hin. by rewrite He in Hin.
Qed.

End MainFacts.

(** C5: when the files of the command line pass their checks, every
    layer of the expanded configuration can be read and merged, and no
    layer has an entry for the board identifier, [main] raises
    [MissingRequiredField] and the file system is as it was: no file has
    been created, written or removed. *)
Theorem missing_fqbn_touches_no_file (env : Env) (depth : nat) (args : Args) (w w0 wl : world)
    (c : Checked) (layers : list (PathObj * list (string * yvalue))) :
  main_checks env args w = (Ok c, w0) ->
  Config.expand env depth (config_paths c) [] w0 = (Ok (map fst layers), wl) ->
  Forall (layer_loads env (fs w)) layers ->
  forallb (layer_ok env (fs w)) layers = true ->
  no_fqbn (flatten layers) = true ->
  exists w', main env depth args w = (Raise MissingRequiredField, w') /\ fs w' = fs w.
Proof.
  intros Hc He Hl Hok Hno.
  pose proof (MainFacts.stateless_main_checks env args _ _ _ Hc) as ->.
  pose proof (ConfigFacts.fs_stable_expand env depth _ _ _ _ _ He) as Hf.
  rewrite <- Hf in Hl, Hok.
  set (self0 := Config.mk (config_paths c) (map fst layers) YNull []
                  (YStr "cat $$SERIALPORT") (YStr "115200") [] [] []).
  destruct (MergeFacts.merge_layers_spec env self0 wl layers [] self0 wl
              (MergeFacts.merged_refl env self0 wl) Hl Hok) as (s' & w' & E & Hm).
  cbn [app] in Hm.
  exists w'. split.
  - unfold main. rewrite (CycleFacts.bind_ok _ _ _ _ _ Hc).
    apply CycleFacts.bind_raise. unfold Config.init.
    rewrite (CycleFacts.bind_ok _ _ _ _ _ He).
    fold self0. rewrite (CycleFacts.bind_ok _ _ _ _ _ E).
    apply CycleFacts.bind_raise.
    rewrite (merged_fqbn _ _ _ _ _ _ Hm).
    rewrite MainFacts.last_value_no_entry by exact Hno. reflexivity.
  - rewrite (merged_fs _ _ _ _ _ _ Hm). exact Hf.
Qed.

Lemma missing_fqbn_touches_no_file_witness :
  exists w',
    main env_demo 10 args_no_fqbn world_demo = (Raise MissingRequiredField, w')
    /\ fs w' = fs world_demo.
Proof.
  assert (H1 : main_checks env_demo args_no_fqbn world_demo = (Ok checked_demo, world_demo))
    by (vm_compute; reflexivity).
  assert (H2 : Config.expand env_demo 10 (config_paths checked_demo) [] world_demo
               = (Ok (map fst [layer_D]), mkWorld fs_demo [] [] ["/proj/d.yaml"]))
    by (vm_compute; reflexivity).
  assert (H3 : Forall (layer_loads env_demo (fs world_demo)) [layer_D]).
  { repeat constructor. exists "D". split; vm_compute; reflexivity. }
  assert (H4 : forallb (layer_ok env_demo (fs world_demo)) [layer_D] = true)
    by (vm_compute; reflexivity).
  assert (H5 : no_fqbn (flatten [layer_D]) = true) by (vm_compute; reflexivity).
  exact (missing_fqbn_touches_no_file env_demo 10 args_no_fqbn world_demo world_demo _
           checked_demo [layer_D] H1 H2 H3 H4 H5).
Defined.

(* ===================================================================== *)
(** * The first line of the generated files *)
(* ===================================================================== *)

Module GenerateFacts.
Import FsFacts ArtifactFacts.

Lemma fs_stable_chmod (env : Env) (p : string) : fs_stable (Qmake.chmod env p).
Proof. intros w r w'. unfold Qmake.chmod. by destruct (FS.exists_ _ _ _); intros [= <- <-]. Qed.

Lemma fs_stable_get_defines (env : Env) (p : PathObj) : fs_stable (Qmake.get_defines env p).
Proof.
  unfold Qmake.get_defines.
  repeat first
    [ apply ConfigFacts.fs_stable_print | apply ConfigFacts.fs_stable_gets
    | apply ConfigFacts.fs_stable_ret | apply ConfigFacts.fs_stable_raise
    | apply ConfigFacts.fs_stable_bind; [|intros ?]
    | match goal with |- fs_stable (match ?x with _ => _ end) => destruct x end ].
Qed.

(** One step of a computation that returns; [Hf] follows the file system
    of the current world. *)
Ltac bind_step H x w1 E :=
  apply ConfigFacts.bind_inv in H as [(x & w1 & E & H)|(? & _ & [=])].

Ltac stable_step H Hf lem :=
  let x := fresh "x" in
  let w1 := fresh "w" in
  let E := fresh "E" in
  bind_step H x w1 E;
  apply lem in E; rewrite Hf in E; clear Hf; rename E into Hf.

Ltac lift_step H Hf x Hx :=
  let w1 := fresh "w" in
  bind_step H x w1 Hx;
  unfold lift in Hx; injection Hx as Hx <-.

Lemma headed_readlines (env : Env) (c : string) :
  headed env c -> exists rest, readlines c = Constants.generated_by_us_string :: rest.
Proof.
  intros (tail & more & ->). unfold Constants.header_strings. cbn [app].
  rewrite LineFacts.concat_all_cons, LineFacts.marker_eq.
  rewrite !StrFacts.sapp_assoc. rewrite LineFacts.readlines_line by reflexivity. eauto.
Qed.

Lemma headed_new (env : Env) (tail : list string) :
  headed env (EmptyString +:+ Str.concat_all (Constants.header_strings env ++ tail)).
Proof. exists tail, EmptyString. by rewrite StrFacts.sapp_nil_r. Qed.

Lemma headed_app (env : Env) (c more : string) : headed env c -> headed env (c +:+ more).
Proof.
  intros (tail & more0 & ->). exists tail, (more0 +:+ more). by rewrite StrFacts.sapp_assoc.
Qed.

(** [Makefile.generate] and the two descriptors of [Qmake.generate] write
    the header first, on a name that was just removed. *)
Lemma write_after_remove (env : Env) (self : PathObj) (out : list string)
    (f0 : gmap string node) (w w' : world) :
  is_canonical f0 (path self) = true ->
  same_links f0 (fs w) ->
  node_at (fs w) (path self) = None ->
  Path.write_lines env self out w = (Ok tt, w') ->
  fs w' = <[path self := File (EmptyString +:+ Str.concat_all out)]> (fs w)
  /\ same_links f0 (fs w') /\ path self <> "/".
Proof.
  intros Hc Hl Hn Hw.
  assert (Hc' : is_canonical (fs w) (path self) = true)
    by (by rewrite <- (is_canonical_same f0)).
  destruct (write_lines_ok env self out w w' Hc' Hw) as (old & Ho & Hf & Hl' & Hr).
  destruct Ho as [[_ ->]|Ho]; [|congruence].
  split; [done|]. split; [by eapply same_links_trans|done].
Qed.

Lemma read_headed (env : Env) (f0 f : gmap string node) (self : PathObj) (c : string) :
  is_canonical f0 (path self) = true ->
  same_links f0 f ->
  node_at f (path self) = Some (File c) ->
  headed env c ->
  exists rest, Path.read_lines env f self = Ok (Constants.generated_by_us_string :: rest).
Proof.
  intros Hc Hl Hn Hh. rewrite (read_lines_file env f self c); [|by rewrite <- (is_canonical_same f0)|done].
  destruct (headed_readlines env c Hh) as (rest & ->). eauto.
Qed.

Lemma node_at_insert_eq (f : gmap string node) (p : string) (n : node) :
  p <> "/" -> node_at (<[p := n]> f) p = Some n.
Proof.
  intros H. rewrite node_at_insert. apply String.eqb_neq in H as ->.
  by rewrite String.eqb_refl.
Qed.

Lemma node_at_insert_ne (f : gmap string node) (p q : string) (n : node) :
  p <> q -> node_at (<[p := n]> f) q = node_at f q.
Proof.
  intros H. rewrite node_at_insert. unfold node_at.
  destruct (String.eqb q "/"); [done|]. by apply String.eqb_neq in H as ->.
Qed.

Lemma node_at_delete_ne (f : gmap string node) (p q : string) :
  p <> q -> node_at (delete p f) q = node_at f q.
Proof.
  intros H. rewrite node_at_delete. unfold node_at.
  destruct (String.eqb q "/"); [done|]. by apply String.eqb_neq in H as ->.
Qed.

Lemma node_at_delete_none (f : gmap string node) (p q : string) :
  node_at f q = None -> node_at (delete p f) q = None.
Proof.
  intros H. rewrite node_at_delete. unfold node_at in *.
  destruct (String.eqb q "/"); [done|]. by destruct (String.eqb p q).
Qed.

Lemma headed_write (env : Env) (old : string) (tail : list string) :
  old = EmptyString \/ headed env old ->
  headed env (old +:+ Str.concat_all (Constants.header_strings env ++ tail)).
Proof. intros [->|H]; [apply headed_new|by apply headed_app]. Qed.

Lemma readlines_script (env : Env) (last : string) :
  exists rest,
    readlines (EmptyString
               +:+ Str.concat_all (["#!/bin/sh" +:+ nl] ++ Constants.header_strings env
                                   ++ [last]))
    = ("#!/bin/sh" +:+ nl) :: Constants.generated_by_us_string :: rest.
Proof.
  unfold Constants.header_strings. cbn [app].
  rewrite !LineFacts.concat_all_cons, LineFacts.marker_eq.
  change (EmptyString +:+ ?x) with x. rewrite !StrFacts.sapp_assoc.
  rewrite LineFacts.readlines_line by reflexivity.
  rewrite LineFacts.readlines_line by reflexivity. eauto.
Qed.

Ltac print_step H :=
  let x := fresh "x" in
  let w1 := fresh "w" in
  let E := fresh "E" in
  bind_step H x w1 E; apply ConfigFacts.fs_stable_print in E;
  rewrite <- E in *; clear E x.

Ltac value_step H x :=
  let w1 := fresh "w" in
  let E := fresh "E" in
  bind_step H x w1 E; unfold lift in E; injection E as E <-.

End GenerateFacts.

(** C9, as amended: the primary descriptor, the companion descriptor and
    the auxiliary file have the marker as their first line when their
    generation returns; the helper script has the line [#!/bin/sh] first
    and the marker second.  The names written are canonical locations,
    and the script is neither of the two companion files. *)
Theorem generated_files_start_with_marker (env : Env) :
  (forall (self : Makefile.t) (w w' : world),
     is_canonical (fs w) (path (Makefile.path self)) = true ->
     Makefile.generate env self w = (Ok tt, w') ->
     exists rest,
       Path.read_lines env (fs w') (Makefile.path self)
       = Ok (Constants.generated_by_us_string :: rest))
  /\ (forall (self : Qmake.t) (w w' : world),
        is_canonical (fs w) (path (Qmake.path self)) = true ->
        is_canonical (fs w) (path (Qmake.prifile_path self)) = true ->
        is_canonical (fs w) (path (Qmake.script_path self)) = true ->
        path (Qmake.script_path self) <> path (Qmake.path self) ->
        path (Qmake.script_path self) <> path (Qmake.prifile_path self) ->
        Qmake.generate env self w = (Ok tt, w') ->
        (exists rest,
           Path.read_lines env (fs w') (Qmake.path self)
           = Ok (Constants.generated_by_us_string :: rest))
        /\ (exists rest,
              Path.read_lines env (fs w') (Qmake.prifile_path self)
              = Ok (Constants.generated_by_us_string :: rest))
        /\ (exists rest,
              Path.read_lines env (fs w') (Qmake.script_path self)
              = Ok (("#!/bin/sh" +:+ nl) :: Constants.generated_by_us_string :: rest))).
Proof.
  split.
  - intros self w w' Hc H. unfold Makefile.generate in H.
    set (P := Makefile.path self) in *.
    GenerateFacts.bind_step H u1 w1 E1. destruct u1.
    destruct (ArtifactFacts.safely_remove_ok env P w w1 Hc E1) as (F1 & L1 & N1).
    clear E1 F1.
    GenerateFacts.bind_step H u2 w2 E2. apply ConfigFacts.fs_stable_print in E2.
    rewrite <- E2 in L1, N1. clear E2.
    GenerateFacts.bind_step H in_lines w3 E3. unfold lift in E3. injection E3 as _ <-.
    GenerateFacts.bind_step H out w4 E4. unfold lift in E4. injection E4 as E4 <-.
    apply ArtifactFacts.render_extends in E4 as (tail & ->).
    GenerateFacts.bind_step H u5 w5 E5. destruct u5.
    destruct (GenerateFacts.write_after_remove env P _ (fs w) w2 w5 Hc L1 N1 E5)
      as (F5 & L5 & Hr).
    apply ConfigFacts.fs_stable_print in H. rewrite <- H in F5, L5.
    eapply (GenerateFacts.read_headed env (fs w) (fs w') P); [exact Hc|exact L5| |].
    + rewrite F5. by apply GenerateFacts.node_at_insert_eq.
    + apply GenerateFacts.headed_new.
  - intros self w w' HcP HcR HcS HSP HSR H. unfold Qmake.generate in H.
    set (P := Qmake.path self) in *. set (R := Qmake.prifile_path self) in *.
    set (S := Qmake.script_path self) in *.
    GenerateFacts.bind_step H u1 w1 E1. destruct u1.
    destruct (ArtifactFacts.safely_remove_ok env P w w1 HcP E1) as (F1 & L1 & N1).
    clear E1 F1.
    GenerateFacts.bind_step H u2 w2 E2. destruct u2.
    assert (HcR1 : is_canonical (fs w1) (path R) = true)
      by (by rewrite <- (FsFacts.is_canonical_same (fs w))).
    destruct (ArtifactFacts.safely_remove_ok env R w1 w2 HcR1 E2) as (F2 & L2 & N2).
    assert (L02 : same_links (fs w) (fs w2)) by (by eapply FsFacts.same_links_trans).
    assert (NP : node_at (fs w2) (path P) = None)
      by (rewrite F2; by apply GenerateFacts.node_at_delete_none).
    clear E2 F2 L1 L2 N1 HcR1.
    do 3 GenerateFacts.print_step H.
    GenerateFacts.value_step H headers. clear E.
    GenerateFacts.print_step H.
    GenerateFacts.value_step H sources. clear E.
    do 2 GenerateFacts.print_step H.
    GenerateFacts.bind_step H defines w9 E9.
    apply GenerateFacts.fs_stable_get_defines in E9. rewrite <- E9 in *. clear E9.
    GenerateFacts.print_step H.
    GenerateFacts.value_step H in_lines. clear E.
    GenerateFacts.value_step H out_lines.
    apply ArtifactFacts.render_extends in E as (tail & ->).
    GenerateFacts.bind_step H u w11 E11. destruct u.
    destruct (GenerateFacts.write_after_remove env P _ (fs w) _ w11 HcP L02 NP E11)
      as (F11 & L11 & HrP).
    assert (HP11 : exists cP, node_at (fs w11) (path P) = Some (File cP)
                              /\ headed env cP).
    { eexists. split; [rewrite F11; by apply GenerateFacts.node_at_insert_eq|].
      apply GenerateFacts.headed_new. }
    assert (HR11 : node_at (fs w11) (path R) = None
                   \/ exists cR, node_at (fs w11) (path R) = Some (File cR)
                                 /\ headed env cR).
    { destruct (String.eqb_spec (path P) (path R)) as [E|E].
      - right. by rewrite <- E.
      - left. rewrite F11. by rewrite GenerateFacts.node_at_insert_ne. }
    clear E11 F11 N2 NP L02 HrP.
    do 2 GenerateFacts.print_step H.
    GenerateFacts.value_step H in_lines2. clear E.
    GenerateFacts.value_step H out_lines2.
    apply ArtifactFacts.render_extends in E as (tail2 & ->).
    GenerateFacts.bind_step H u w14 E14. destruct u.
    lazymatch type of E14 with
    | Path.write_lines _ _ _ ?wx = _ =>
        assert (HcR13 : is_canonical (fs wx) (path R) = true)
          by (by rewrite <- (FsFacts.is_canonical_same (fs w)))
    end.
    destruct (ArtifactFacts.write_lines_ok env R _ _ w14 HcR13 E14)
      as (old & Hold & F14 & L14 & HrR).
    assert (Hh : headed env
                   (old +:+ Str.concat_all (Constants.header_strings env ++ tail2))).
    { apply GenerateFacts.headed_write.
      destruct Hold as [[_ ->]|Hold]; [by left|]. right.
      destruct HR11 as [HR11|(cR & HR11 & HcR')]; congruence. }
    assert (HR14 : exists cR, node_at (fs w14) (path R) = Some (File cR)
                              /\ headed env cR).
    { eexists. split; [rewrite F14; by apply GenerateFacts.node_at_insert_eq|done]. }
    assert (HP14 : exists cP, node_at (fs w14) (path P) = Some (File cP)
                              /\ headed env cP).
    { destruct (String.eqb_spec (path R) (path P)) as [E|E].
      - by rewrite <- E.
      - rewrite F14. by rewrite GenerateFacts.node_at_insert_ne. }
    assert (L014 : same_links (fs w) (fs w14)) by (by eapply FsFacts.same_links_trans).
    clear E14 F14 L14 Hold Hh HP11 HR11 HcR13 L11 HrR old.
    GenerateFacts.print_step H.
    unfold Qmake.create_runscript in H. fold S in H.
    GenerateFacts.bind_step H u w16 E16. destruct u.
    lazymatch type of E16 with
    | Path.safely_remove_or_exit _ _ ?wx = _ =>
        assert (HcS15 : is_canonical (fs wx) (path S) = true)
          by (by rewrite <- (FsFacts.is_canonical_same (fs w)))
    end.
    destruct (ArtifactFacts.safely_remove_ok env S _ w16 HcS15 E16) as (F16 & L16 & N16).
    assert (HP16 : exists cP, node_at (fs w16) (path P) = Some (File cP)
                              /\ headed env cP)
      by (rewrite F16; by rewrite GenerateFacts.node_at_delete_ne).
    assert (HR16 : exists cR, node_at (fs w16) (path R) = Some (File cR)
                              /\ headed env cR)
      by (rewrite F16; by rewrite GenerateFacts.node_at_delete_ne).
    assert (L016 : same_links (fs w) (fs w16)) by (by eapply FsFacts.same_links_trans).
    clear E16 F16 L16 HcS15 HP14 HR14 L014.
    GenerateFacts.value_step H rel. clear E.
    GenerateFacts.value_step H r. clear E.
    GenerateFacts.bind_step H u w17 E17. destruct u.
    destruct (GenerateFacts.write_after_remove env S _ (fs w) _ w17 HcS L016 N16 E17)
      as (F17 & L17 & HrS).
    apply GenerateFacts.fs_stable_chmod in H. rewrite <- H in *. clear H E17.
    destruct HP16 as (cP & HP & HhP), HR16 as (cR & HR & HhR).
    split; [|split].
    + eapply (GenerateFacts.read_headed env (fs w) _ P); [exact HcP|exact L17| |exact HhP].
      rewrite F17. by rewrite GenerateFacts.node_at_insert_ne.
    + eapply (GenerateFacts.read_headed env (fs w) _ R); [exact HcR|exact L17| |exact HhR].
      rewrite F17. by rewrite GenerateFacts.node_at_insert_ne.
    + assert (HcS' : is_canonical (fs w') (path S) = true)
        by (by rewrite <- (FsFacts.is_canonical_same (fs w))).
      erewrite (ArtifactFacts.read_lines_file env _ S); [|exact HcS'|].
      2:{ rewrite F17. by apply GenerateFacts.node_at_insert_eq. }
      destruct (GenerateFacts.readlines_script env ("make -f " +:+ r +:+ " run" +:+ nl))
        as (rest & ->). eauto.
Qed.

Lemma generated_files_start_with_marker_witness :
  (exists w' rest,
     Makefile.generate env_demo makefile_demo world_demo = (Ok tt, w')
     /\ Path.read_lines env_demo (fs w') (Makefile.path makefile_demo)
        = Ok (Constants.generated_by_us_string :: rest))
  /\ (exists w' rest,
        Qmake.generate env_demo qmake_demo world_qmake = (Ok tt, w')
        /\ Path.read_lines env_demo (fs w') (Qmake.script_path qmake_demo)
           = Ok (("#!/bin/sh" +:+ nl) :: Constants.generated_by_us_string :: rest)).
Proof.
  destruct (generated_files_start_with_marker env_demo) as [HM HQ].
  split.
  - destruct (Makefile.generate env_demo makefile_demo world_demo) as [r w'] eqn:E.
    assert (Hr : r = Ok tt).
    { apply (f_equal fst) in E. cbn [fst] in E. rewrite <- E. vm_compute. reflexivity. }
    subst r.
    assert (Hc : is_canonical (fs world_demo) (path (Makefile.path makefile_demo)) = true)
      by (vm_compute; reflexivity).
    destruct (HM makefile_demo world_demo w' Hc E) as (rest & Hrest).
    exists w', rest. split; [reflexivity|exact Hrest].
  - destruct (Qmake.generate env_demo qmake_demo world_qmake) as [r w'] eqn:E.
    assert (Hr : r = Ok tt).
    { apply (f_equal fst) in E. cbn [fst] in E. rewrite <- E. vm_compute. reflexivity. }
    subst r.
    assert (H1 : is_canonical (fs world_qmake) (path (Qmake.path qmake_demo)) = true)
      by (vm_compute; reflexivity).
    assert (H2 : is_canonical (fs world_qmake) (path (Qmake.prifile_path qmake_demo)) = true)
      by (vm_compute; reflexivity).
    assert (H3 : is_canonical (fs world_qmake) (path (Qmake.script_path qmake_demo)) = true)
      by (vm_compute; reflexivity).
    assert (H4 : path (Qmake.script_path qmake_demo) <> path (Qmake.path qmake_demo))
      by (vm_compute; discriminate).
    assert (H5 : path (Qmake.script_path qmake_demo) <> path (Qmake.prifile_path qmake_demo))
      by (vm_compute; discriminate).
    destruct (HQ qmake_demo world_qmake w' H1 H2 H3 H4 H5 E) as (_ & _ & rest & Hrest).
    exists w', rest. split; [reflexivity|exact Hrest].
Defined.

(** C9 as stated fails on the helper script: its first line is
    [#!/bin/sh], the marker is its second line. *)
Lemma helper_script_starts_with_shebang :
  fst (Qmake.generate env_demo qmake_demo world_qmake) = Ok tt
  /\ Path.read_lines env_demo (fs (snd (Qmake.generate env_demo qmake_demo world_qmake)))
       (Qmake.script_path qmake_demo)
     = Ok ["#!/bin/sh" +:+ nl;
           Constants.generated_by_us_string;
           "#" +:+ nl;
           "# Command line:" +:+ nl;
           "# arduino-genmakefile.py --sketch s.ino" +:+ nl;
           nl;
           "make -f Makefile run" +:+ nl]
  /\ "#!/bin/sh" +:+ nl <> Constants.generated_by_us_string.
Proof.
  split; [vm_compute; reflexivity|].
  split; [vm_compute; reflexivity|].
  vm_compute. discriminate.
Qed.

(* ===================================================================== *)
(** * Excluded directories *)
(* ===================================================================== *)

(** [str(excluded_dir)] is the default text of an object and begins with
    [<]; no absolute path begins with it, so no path is ever excluded. *)
Lemma is_rawpath_excluded_never (env : Env) (raw_real_path : string)
    (excluded_dirs : list PathObj) :
  isabs raw_real_path = true ->
  Qmake.is_rawpath_excluded env raw_real_path excluded_dirs = false.
Proof.
  intros (s & ->)%PathInvariant.isabs_inv.
  induction excluded_dirs as [|d ds IH]; [reflexivity|].
  cbn [Qmake.is_rawpath_excluded]. unfold Str.startswith, Path.str.
  change ("<__main__.Path object at " +:+ addr_of env d +:+ ">")
    with (String "<" ("__main__.Path object at " +:+ addr_of env d +:+ ">")).
  rewrite StrFacts.prefix_cons. cbn [Ascii.eqb Bool.eqb andb]. exact IH.
Qed.

(** C6 on the code: with [/proj/ex] excluded, the scan of [/proj] for
    headers still returns [/proj/ex/a.h]. *)
Theorem excluded_directory_is_scanned :
  Qmake.init env_scan fs_scan config_scan (proj_path "proj.pro")
    (mkPath Absolute None "/opt/agm/templates/qmake.pro") (proj_path "s.ino")
    (proj_path "Makefile") = Ok qmake_scan
  /\ Qmake.excluded_dirs qmake_scan = [proj_path "ex"]
  /\ Str.startswith "/proj/ex/a.h" (path (proj_path "ex")) = true
  /\ Qmake.get_files env_scan fs_scan qmake_scan [".h"; ".hpp"]
     = Ok [proj_path "ex/a.h"; proj_path "b.h"].
Proof. repeat split; vm_compute; reflexivity. Qed.

(* ===================================================================== *)
(** * Checks and destructive actions *)
(* ===================================================================== *)

(** C7 on the code: the configuration names a library directory that
    does not exist; [main] removes the descriptor of the earlier run and
    only then, while rendering, checks the library directories and
    raises. *)
Theorem library_check_follows_removal :
  fs world_demo !! "/proj/Makefile"
  = Some (File (Constants.generated_by_us_string +:+ "old"))
  /\ fst (main env_demo 10 args_missing_lib world_demo)
     = Raise (FileNotFoundError "/proj/nolib doesn't exist")
  /\ fs (snd (main env_demo 10 args_missing_lib world_demo)) !! "/proj/Makefile" = None.
Proof. repeat split; vm_compute; reflexivity. Qed.

(* ===================================================================== *)
(** * The existence checks *)
(* ===================================================================== *)

Module CheckFacts.

Lemma isfile_exists (env : Env) (f : gmap string node) (p : PathObj) :
  Path.isfile env f p = true -> Path.exists_ env f p = true.
Proof.
  unfold Path.isfile, Path.exists_, FS.isfile, FS.exists_.
  by destruct (stat (cwd env) f (path p)) as [[]|].
Qed.

Lemma isdir_exists (env : Env) (f : gmap string node) (p : PathObj) :
  Path.isdir env f p = true -> Path.exists_ env f p = true.
Proof.
  unfold Path.isdir, Path.exists_, FS.isdir, FS.exists_.
  by destruct (stat (cwd env) f (path p)) as [[]|].
Qed.

Lemma check_files_ok (env : Env) (f : gmap string node) (paths : list PathObj) (u : unit) :
  Path.check_files_exist env f paths = Ok u ->
  forallb (Path.isfile env f) paths = true.
Proof.
  induction paths as [|p paths IH]; [done|]. cbn [Path.check_files_exist forallb].
  destruct (Path.exists_ env f p); cbn [negb]; [|done].
  destruct (Path.isfile env f p); cbn [negb andb]; [exact IH|done].
Qed.

End CheckFacts.

(** X1: [Path.check_files_exist] returns exactly when every path of the
    list is a regular file.  Otherwise it raises for the first path that
    is not one, whatever follows it in the list: [FileNotFoundError]
    when that path does not exist, [FileExistsError] when it exists and
    is not a regular file. *)
Theorem check_files_exist_first_offender (env : Env) (f : gmap string node)
    (paths : list PathObj) :
  match Path.check_files_exist env f paths with
  | Ok _ => forallb (Path.isfile env f) paths = true
  | Raise e =>
      exists ok bad rest,
        paths = ok ++ bad :: rest
        /\ forallb (Path.isfile env f) ok = true
        /\ Path.isfile env f bad = false
        /\ e = if Path.exists_ env f bad
               then FileExistsError (path bad +:+ " is not a file")
               else FileNotFoundError (path bad +:+ " doesn't exist")
  end.
Proof.
  induction paths as [|p paths IH]; [done|].
  cbn [Path.check_files_exist forallb].
  destruct (Path.exists_ env f p) eqn:He; cbn [negb].
  - destruct (Path.isfile env f p) eqn:Hf; cbn [negb andb].
    + destruct (Path.check_files_exist env f paths) as [u|e]; [exact IH|].
      destruct IH as (ok & bad & rest & -> & Hok & Hbad & ->).
      exists (p :: ok), bad, rest. cbn [forallb]. by rewrite Hf, Hok.
    + exists [], p, paths. by rewrite He.
  - exists [], p, paths. rewrite He. repeat split; try done.
    destruct (Path.isfile env f p) eqn:Hf; [|done].
    apply CheckFacts.isfile_exists in Hf. congruence.
Qed.

(** X2: [Path.check_dirs_exist] returns exactly when every path of the
    list is a directory, and otherwise raises for the first path that is
    not one: [FileNotFoundError] when it does not exist,
    [FileExistsError] when it exists and is not a directory. *)
Theorem check_dirs_exist_first_offender (env : Env) (f : gmap string node)
    (paths : list PathObj) :
  match Path.check_dirs_exist env f paths with
  | Ok _ => forallb (Path.isdir env f) paths = true
  | Raise e =>
      exists ok bad rest,
        paths = ok ++ bad :: rest
        /\ forallb (Path.isdir env f) ok = true
        /\ Path.isdir env f bad = false
        /\ e = if Path.exists_ env f bad
               then FileExistsError (path bad +:+ " is not a directory")
               else FileNotFoundError (path bad +:+ " doesn't exist")
  end.
Proof.
  induction paths as [|p paths IH]; [done|].
  cbn [Path.check_dirs_exist forallb].
  destruct (Path.exists_ env f p) eqn:He; cbn [negb].
  - destruct (Path.isdir env f p) eqn:Hf; cbn [negb andb].
    + destruct (Path.check_dirs_exist env f paths) as [u|e]; [exact IH|].
      destruct IH as (ok & bad & rest & -> & Hok & Hbad & ->).
      exists (p :: ok), bad, rest. cbn [forallb]. by rewrite Hf, Hok.
    + exists [], p, paths. by rewrite He.
  - exists [], p, paths. rewrite He. repeat split; try done.
    destruct (Path.isdir env f p) eqn:Hf; [|done].
    apply CheckFacts.isdir_exists in Hf. congruence.
Qed.

(* ===================================================================== *)
(** * The include directories *)
(* ===================================================================== *)

Module HeadersFacts.

Lemma mem_spec (x : PathObj) (l : list PathObj) :
  Path.mem x l = true <-> In (path x) (map path l).
Proof.
  unfold Path.mem, Path.eq. rewrite existsb_exists, in_map_iff.
  split; intros (y & H1 & H2).
  - exists y. apply String.eqb_eq in H2. done.
  - exists y. split; [done|]. by apply String.eqb_eq.
Qed.

Lemma mem_same (x y : PathObj) (l : list PathObj) :
  Path.eq x y = true -> Path.mem y l = Path.mem x l.
Proof.
  unfold Path.eq. intros H%String.eqb_eq.
  unfold Path.mem, Path.eq. by rewrite H.
Qed.

Lemma mem_add (x : PathObj) (l : list PathObj) :
  Path.mem x (if Path.mem x l then l else l ++ [x]) = true.
Proof.
  destruct (Path.mem x l) eqn:H; [done|].
  apply mem_spec. rewrite map_app. apply in_or_app. right. by left.
Qed.

Lemma loop_spec (headers : list PathObj) (prev : option PathObj) (ret : list PathObj) :
  (forall d, prev = Some d -> Path.mem d ret = true) ->
  Qmake.headers_dirs_loop headers prev ret
  = distinct_locations (map Path.parent_dir headers) ret.
Proof.
  revert prev ret. induction headers as [|h headers IH]; intros prev ret Hprev; [done|].
  cbn [Qmake.headers_dirs_loop map distinct_locations].
  destruct prev as [d|].
  - destruct (Path.eq d (Path.parent_dir h)) eqn:E.
    + rewrite (mem_same _ _ ret E), (Hprev d eq_refl). by apply IH.
    + apply IH. intros ? [= <-]. apply mem_add.
  - apply IH. intros ? [= <-]. apply mem_add.
Qed.

Lemma distinct_nodup (l acc : list PathObj) :
  NoDup (map path acc) -> NoDup (map path (distinct_locations l acc)).
Proof.
  revert acc. induction l as [|x l IH]; intros acc H; [done|].
  cbn [distinct_locations]. apply IH.
  destruct (Path.mem x acc) eqn:E; [done|].
  rewrite map_app. cbn [map].
  apply NoDup_app. split; [done|]. split.
  - intros p Hp Hq. apply list_elem_of_singleton in Hq as ->.
    apply list_elem_of_In, mem_spec in Hp. congruence.
  - apply NoDup_singleton.
Qed.

Lemma distinct_keeps (x : PathObj) (l acc : list PathObj) :
  Path.mem x acc = true -> Path.mem x (distinct_locations l acc) = true.
Proof.
  revert acc. induction l as [|y l IH]; intros acc H; [done|].
  cbn [distinct_locations]. apply IH.
  destruct (Path.mem y acc); [done|].
  apply mem_spec. rewrite map_app. apply in_or_app. left. by apply mem_spec.
Qed.

Lemma distinct_complete (x : PathObj) (l acc : list PathObj) :
  In x l -> Path.mem x (distinct_locations l acc) = true.
Proof.
  revert acc. induction l as [|y l IH]; intros acc; [done|].
  intros [->|H]; cbn [distinct_locations]; [|by apply IH].
  apply distinct_keeps, mem_add.
Qed.

Lemma distinct_sound (x : PathObj) (l acc : list PathObj) :
  In x (distinct_locations l acc) -> In x acc \/ In x l.
Proof.
  revert acc. induction l as [|y l IH]; intros acc; [by left|].
  cbn [distinct_locations]. intros [H|H]%IH; [|right; by right].
  destruct (Path.mem y acc); [by left|].
  apply in_app_or in H as [H|[->|[]]]; [by left|right; by left].
Qed.

End HeadersFacts.

(** X3: [Qmake.headers_dirs] lists the parent directories of the
    headers in the order of their first appearance, each location once:
    remembering the previous directory only saves membership tests.
    Every header's directory is in the result, every directory of the
    result is that of a header, and no location is listed twice. *)
Theorem headers_dirs_distinct_parents (headers : list PathObj) :
  Qmake.headers_dirs headers = distinct_locations (map Path.parent_dir headers) []
  /\ NoDup (map path (Qmake.headers_dirs headers))
  /\ (forall h, In h headers ->
        Path.mem (Path.parent_dir h) (Qmake.headers_dirs headers) = true)
  /\ (forall d, In d (Qmake.headers_dirs headers) ->
        exists h, In h headers /\ d = Path.parent_dir h).
Proof.
  assert (E : Qmake.headers_dirs headers
              = distinct_locations (map Path.parent_dir headers) [])
    by (apply HeadersFacts.loop_spec; intros ? [=]).
  rewrite E. split; [done|]. split; [|split].
  - apply HeadersFacts.distinct_nodup. constructor.
  - intros h Hh. apply HeadersFacts.distinct_complete. by apply in_map.
  - intros d [[]|Hd]%HeadersFacts.distinct_sound.
    apply in_map_iff in Hd as (h & <- & Hh). by exists h.
Qed.

Lemma headers_dirs_distinct_parents_witness :
  Path.mem (Path.parent_dir (proj_path "a/w.h"))
    (Qmake.headers_dirs
       [proj_path "a/x.h"; proj_path "a/y.h"; proj_path "b/z.h"; proj_path "a/w.h"])
  = true.
Proof.
  apply (headers_dirs_distinct_parents
           [proj_path "a/x.h"; proj_path "a/y.h"; proj_path "b/z.h"; proj_path "a/w.h"]).
  right. right. right. left. reflexivity.
Defined.

(* ===================================================================== *)
(** * Replacing in a string *)
(* ===================================================================== *)

Module ReplaceFacts.

Import StrFacts.

Lemma drop_app (a b : string) : Str.drop (String.length a) (a +:+ b) = b.
Proof. induction a as [|c a IH]; [by destruct b|]. by rewrite sapp_cons. Qed.

Lemma drop_length_le (n : nat) (s : string) :
  String.length (Str.drop n s) <= String.length s.
Proof.
  revert s. induction n as [|n IH]; intros [|c s]; cbn; try lia.
  specialize (IH s). lia.
Qed.

Lemma drop_length_lt (n : nat) (c : ascii) (s : string) :
  String.length (Str.drop (S n) (String c s)) < String.length (String c s).
Proof. cbn. pose proof (drop_length_le n s). lia. Qed.

(** With a non-empty [old], any fuel above the length of [s] gives the
    same result. *)
Lemma replace_aux_fuel (o : ascii) (old new : string) (n : nat) :
  forall s fuel1 fuel2,
    String.length s < n -> String.length s < fuel1 -> String.length s < fuel2 ->
    Str.replace_aux fuel1 (String o old) new s = Str.replace_aux fuel2 (String o old) new s.
Proof.
  induction n as [|n IH]; intros s fuel1 fuel2 Hn H1 H2; [lia|].
  destruct fuel1 as [|fuel1]; [lia|]. destruct fuel2 as [|fuel2]; [lia|].
  cbn [Str.replace_aux].
  destruct (String.prefix (String o old) s) eqn:P.
  - destruct s as [|c s]; [done|]. f_equal.
    pose proof (drop_length_lt (String.length old) c s) as Hd.
    cbn [String.length] in *. apply IH; lia.
  - destruct s as [|c s]; [done|]. f_equal. cbn [String.length] in *. apply IH; lia.
Qed.

Lemma replace_unfold (o : ascii) (old new s : string) :
  Str.replace s (String o old) new
  = if String.prefix (String o old) s
    then new +:+ Str.replace (Str.drop (String.length (String o old)) s) (String o old) new
    else match s with
         | EmptyString => EmptyString
         | String c s' => String c (Str.replace s' (String o old) new)
         end.
Proof.
  unfold Str.replace at 1. cbn [Str.replace_aux].
  destruct (String.prefix (String o old) s) eqn:P.
  - f_equal. unfold Str.replace. destruct s as [|c s]; [done|].
    pose proof (drop_length_lt (String.length old) c s) as Hd.
    cbn [String.length] in *.
    apply (replace_aux_fuel _ _ _ (S (S (String.length s)))); lia.
  - by destruct s.
Qed.

(** A text without [old] is left as it is. *)
Lemma replace_absent (old new s : string) :
  Str.contains old s = false -> Str.replace s old new = s.
Proof.
  destruct old as [|o old]; [done|].
  induction s as [|c s IH]; intros H; rewrite replace_unfold.
  - done.
  - cbn [Str.contains] in H. apply orb_false_elim in H as [-> H]. by rewrite IH.
Qed.

(** The first occurrence of [old] is replaced and the rest of the text
    is treated in the same way. *)
Lemma replace_first_occurrence (o : ascii) (old new a b : string) :
  (forall a1 c a2, a = a1 +:+ String c a2 ->
     String.prefix (String o old) (String c a2 +:+ String o old +:+ b) = false) ->
  Str.replace (a +:+ String o old +:+ b) (String o old) new
  = a +:+ new +:+ Str.replace b (String o old) new.
Proof.
  induction a as [|c a IH]; intros H.
  - rewrite !sapp_nil_l, replace_unfold, prefix_app, drop_app. done.
  - rewrite sapp_cons, replace_unfold, <- sapp_cons.
    rewrite (H EmptyString c a eq_refl). rewrite !sapp_cons. f_equal.
    apply IH. intros a1 c' a2 ->. apply (H (String c a1) c' a2). by rewrite sapp_cons.
Qed.

End ReplaceFacts.

Module DefineFacts.

Import StrFacts.

Lemma contains_app_r (old a s : string) :
  Str.contains old (a +:+ s) = false -> Str.contains old s = false.
Proof.
  induction a as [|c a IH]; [by rewrite sapp_nil_l|].
  rewrite sapp_cons. cbn [Str.contains]. intros [_ H]%orb_false_elim. by apply IH.
Qed.

(** A backslash followed by a double quote does not start inside a text
    that does not contain one, even when one follows the text. *)
Lemma no_early_escaped_quote (a b : string) :
  Str.contains ("\" +:+ dquote) a = false ->
  forall a1 c a2, a = a1 +:+ String c a2 ->
    String.prefix (String "\" dquote) (String c a2 +:+ String "\" dquote +:+ b) = false.
Proof.
  intros H a1 c a2 ->. apply contains_app_r in H.
  change ("\" +:+ dquote) with (String "\" dquote) in H.
  cbn [Str.contains] in H. apply orb_false_elim in H as [H _].
  rewrite sapp_cons. unfold dquote in *. rewrite prefix_cons in *.
  destruct (Ascii.eqb "\" c); [|done]. cbn [andb] in *.
  destruct a2 as [|c' a2].
  - rewrite sapp_nil_l, sapp_cons. by rewrite prefix_cons.
  - rewrite sapp_cons. rewrite prefix_cons in *. rewrite prefix_nil in *.
    rewrite andb_true_r in *. done.
Qed.

End DefineFacts.

(** X4: [Qmake.to_qmake_define] removes the leading [-D] and puts a
    backslash before every backslash-quote pair: a definition free of
    such pairs loses its [-D] only, and the text up to the first pair is
    kept, the pair becomes backslash backslash backslash quote, and the
    text after it is treated in the same way. *)
Theorem to_qmake_define_escapes_quotes (a b : string) :
  Str.contains ("\" +:+ dquote) a = false ->
  Qmake.to_qmake_define ("-D" +:+ a) = a
  /\ Qmake.to_qmake_define ("-D" +:+ a +:+ ("\" +:+ dquote) +:+ b)
     = a +:+ ("\\\" +:+ dquote) +:+ Qmake.to_qmake_define ("-D" +:+ b).
Proof.
  intros H. unfold Qmake.to_qmake_define.
  change (Str.drop 2 ("-D" +:+ a)) with a.
  change (Str.drop 2 ("-D" +:+ b)) with b.
  change (Str.drop 2 ("-D" +:+ a +:+ ("\" +:+ dquote) +:+ b))
    with (a +:+ ("\" +:+ dquote) +:+ b).
  split; [by apply ReplaceFacts.replace_absent|].
  change ("\" +:+ dquote) with (String "\" dquote) in *.
  apply ReplaceFacts.replace_first_occurrence.
  by apply DefineFacts.no_early_escaped_quote.
Qed.

Lemma to_qmake_define_escapes_quotes_witness :
  Qmake.to_qmake_define ("-D" +:+ "NAME=")  = "NAME="
  /\ Qmake.to_qmake_define ("-D" +:+ "NAME=" +:+ ("\" +:+ dquote) +:+ "v")
     = "NAME=" +:+ ("\\\" +:+ dquote) +:+ Qmake.to_qmake_define ("-D" +:+ "v").
Proof.
  apply (to_qmake_define_escapes_quotes "NAME=" "v"). vm_compute. reflexivity.
Defined.

(* ===================================================================== *)
(** * The definitions harvested from the build output *)
(* ===================================================================== *)

Module HarvestFacts.

Import StrFacts.

Lemma Inv_add (defines : list string) (d : string) :
  harvest_inv defines -> define_like d ->
  harvest_inv (if existsb (String.eqb d) defines then defines else defines ++ [d]).
Proof.
  intros [Hn Hf] Hd. destruct (existsb (String.eqb d) defines) eqn:E; [done|].
  split.
  - apply NoDup_app. split; [done|]. split; [|apply NoDup_singleton].
    intros x Hx ->%list_elem_of_singleton.
    assert (existsb (String.eqb d) defines = true); [|congruence].
    apply existsb_exists. exists d. split; [by apply list_elem_of_In|apply String.eqb_refl].
  - apply Forall_app. split; [done|]. by constructor.
Qed.

Lemma startswith_D_replace (q new : string) :
  Str.startswith q "-D" = true ->
  Str.startswith (Str.replace q "BACKSLASH_QUOTE" new) "-D" = true.
Proof.
  unfold Str.startswith. destruct q as [|c1 [|c2 q]]; [done| |].
  { rewrite prefix_cons. cbn. by rewrite andb_false_r. }
  rewrite !prefix_cons, prefix_nil, andb_true_r.
  intros [H1%Ascii.eqb_eq H2%Ascii.eqb_eq]%andb_prop. subst c1 c2.
  rewrite ReplaceFacts.replace_unfold.
  change (String.prefix "BACKSLASH_QUOTE" (String "-" (String "D" q))) with false.
  cbv iota. rewrite ReplaceFacts.replace_unfold.
  change (String.prefix "BACKSLASH_QUOTE" (String "D" q)) with false.
  cbv iota. by rewrite !prefix_cons, prefix_nil, !Ascii.eqb_refl.
Qed.

Lemma Inv_quoted (defines : list string) (q : string) :
  harvest_inv defines -> harvest_inv (Qmake.harvest_quoted defines q).
Proof.
  intros H. unfold Qmake.harvest_quoted.
  destruct (Str.startswith q "-D") eqn:E; [|done].
  apply Inv_add; [done|]. left. by apply startswith_D_replace.
Qed.

Lemma Inv_token (defines : list string) (t : string) :
  harvest_inv defines -> harvest_inv (Qmake.harvest_token defines t).
Proof.
  intros H. unfold Qmake.harvest_token.
  destruct (Str.startswith t "-D") eqn:E1; cbn [orb andb].
  - destruct (Str.contains "BACKSLASH_QUOTE" t); [done|]. cbn [negb].
    apply Inv_add; [done|]. by left.
  - destruct (Str.startswith t (dquote +:+ "-D")) eqn:E2; cbn [orb andb].
    + destruct (Str.contains "BACKSLASH_QUOTE" t); [done|]. cbn [negb].
      apply Inv_add; [done|]. right. by left.
    + destruct (Str.startswith t "'-D") eqn:E3; cbn [orb andb]; [|done].
      destruct (Str.contains "BACKSLASH_QUOTE" t); [done|]. cbn [negb].
      apply Inv_add; [done|]. right. by right.
Qed.

Lemma Inv_fold (step : list string -> string -> list string) (l : list string)
    (defines : list string) :
  (forall d x, harvest_inv d -> harvest_inv (step d x)) -> harvest_inv defines -> harvest_inv (fold_left step l defines).
Proof.
  intros Hs. revert defines. induction l as [|x l IH]; intros defines H; [done|].
  cbn [fold_left]. by apply IH, Hs.
Qed.

Lemma Inv_command (defines defines' : list string) (cmd : string) :
  harvest_inv defines -> Qmake.harvest_command defines cmd = Qmake.Defines defines' -> harvest_inv defines'.
Proof.
  intros H. unfold Qmake.harvest_command.
  destruct (Str.split_ws cmd) as [|first tokens]; [done|].
  destruct (Str.endswith first "arduino-cli"); intros [= <-]; [done|].
  apply Inv_fold; [apply Inv_token|]. apply Inv_fold; [apply Inv_quoted|done].
Qed.

Lemma Inv_commands (cmds : list string) (defines defines' : list string) :
  harvest_inv defines -> Qmake.harvest_commands cmds defines = Qmake.Defines defines' -> harvest_inv defines'.
Proof.
  revert defines. induction cmds as [|cmd cmds IH]; intros defines H.
  - by intros [= <-].
  - cbn [Qmake.harvest_commands].
    destruct (Qmake.harvest_command defines cmd) as [d|] eqn:E; [|done].
    apply IH. by apply (Inv_command defines d cmd).
Qed.

(** The scan fails exactly on a command without a token. *)
Lemma command_fails (defines : list string) (cmd : string) :
  Qmake.harvest_command defines cmd = Qmake.IndexError <-> Str.split_ws cmd = [].
Proof.
  unfold Qmake.harvest_command.
  destruct (Str.split_ws cmd) as [|first tokens]; [done|].
  by destruct (Str.endswith first "arduino-cli").
Qed.

Lemma commands_fail (cmds : list string) (defines : list string) :
  Qmake.harvest_commands cmds defines = Qmake.IndexError
  <-> exists cmd, In cmd cmds /\ Str.split_ws cmd = [].
Proof.
  revert defines. induction cmds as [|cmd cmds IH]; intros defines.
  - split; [done|]. by intros (? & [] & _).
  - cbn [Qmake.harvest_commands].
    destruct (Qmake.harvest_command defines cmd) as [d|] eqn:E.
    + rewrite IH. split; intros (c & Hc & Hs).
      * exists c. split; [by right|done].
      * destruct Hc as [->|Hc]; [|by exists c].
        apply (command_fails defines) in Hs. congruence.
    + split; [|done]. intros _. exists cmd. split; [by left|].
      by apply (command_fails defines).
Qed.

End HarvestFacts.

(** X5: the definitions [Qmake.get_defines] harvests from a build output
    are pairwise different, and each of them starts with [-D], possibly
    after a double or a single quote. *)
Theorem harvested_defines_distinct (output : string) (defines : list string) :
  Qmake.defines_of_output output = Qmake.Defines defines ->
  NoDup defines
  /\ Forall (fun d => Str.startswith d "-D" = true
                      \/ Str.startswith d (dquote +:+ "-D") = true
                      \/ Str.startswith d "'-D" = true) defines.
Proof.
  intros H. apply (HarvestFacts.Inv_commands _ [] defines) in H; [exact H|].
  split; constructor.
Qed.

Lemma harvested_defines_distinct_witness :
  NoDup ["-DY=1"; "-DX"; dquote +:+ "-DY=1" +:+ dquote]
  /\ Forall (fun d => Str.startswith d "-D" = true
                      \/ Str.startswith d (dquote +:+ "-D") = true
                      \/ Str.startswith d "'-D" = true)
       ["-DY=1"; "-DX"; dquote +:+ "-DY=1" +:+ dquote].
Proof.
  apply (harvested_defines_distinct build_output_demo). vm_compute. reflexivity.
Defined.

(** X6: the scan of the build output raises [IndexError] exactly when
    one of the commands of the output, continuation lines joined, is
    made of white space only: [cmd.split()[0]] is taken of every
    non-empty command. *)
Theorem blank_command_raises_index_error (output : string) :
  Qmake.defines_of_output output = Qmake.IndexError
  <-> exists cmd,
        In cmd (Qmake.command_lines (Str.splitlines output) EmptyString [])
        /\ Str.split_ws cmd = [].
Proof. apply HarvestFacts.commands_fail. Qed.

Lemma blank_command_raises_index_error_witness :
  Qmake.defines_of_output build_output_blank = Qmake.IndexError.
Proof.
  apply (proj2 (blank_command_raises_index_error build_output_blank)).
  exists "   ". split; [|reflexivity]. vm_compute. right. by left.
Defined.

(* ===================================================================== *)
(** * Normalized locations *)
(* ===================================================================== *)

Module NormalFacts.

Import StrFacts PathFacts.

Lemma split_slash_no_slashes (s : string) : forallb Str.no_slash (Str.split_slash s) = true.
Proof.
  induction s as [|c s IH]; [done|]. cbn [Str.split_slash].
  destruct (Ascii.eqb c "/") eqn:E; [by cbn [forallb]; rewrite IH|].
  destruct (Str.split_slash s) as [|h t]; cbn [forallb Str.no_slash] in *.
  - by rewrite E.
  - by rewrite E.
Qed.

Lemma norm_step_good (k : nat) (acc : list string) (comp : string) :
  k <> 0 -> Str.no_slash comp = true -> forallb good_name acc = true ->
  forallb good_name (norm_step k acc comp) = true.
Proof.
  intros Hk Hc Hacc. unfold norm_step.
  destruct (String.eqb comp EmptyString) eqn:E1; [done|].
  destruct (String.eqb comp ".") eqn:E2; [done|]. cbn [orb].
  destruct (String.eqb comp "..") eqn:E3; cbn [negb].
  - destruct acc as [|last before].
    + apply Nat.eqb_neq in Hk. by rewrite Hk.
    + cbn [forallb] in Hacc. apply andb_true_iff in Hacc as [Hl Hb].
      apply good_name_spec in Hl as (_ & _ & Hl%String.eqb_neq & _). by rewrite Hl.
  - cbn [forallb]. rewrite Hacc, andb_true_r. unfold good_name.
    by rewrite E1, E2, E3, Hc.
Qed.

Lemma fold_norm_good (k : nat) (comps acc : list string) :
  k <> 0 -> forallb Str.no_slash comps = true -> forallb good_name acc = true ->
  forallb good_name (fold_left (norm_step k) comps acc) = true.
Proof.
  intros Hk. revert acc. induction comps as [|c comps IH]; intros acc Hc Hacc; [done|].
  cbn [forallb] in Hc. apply andb_true_iff in Hc as [Hc Hcs].
  cbn [fold_left]. apply IH; [done|]. by apply norm_step_good.
Qed.

Lemma goods_rev (l : list string) :
  forallb good_name l = true -> forallb good_name (rev l) = true.
Proof. rewrite !forallb_forall. intros H x Hx%in_rev. by apply H. Qed.

(** [os.path.normpath] of an absolute path is normalized. *)
Lemma normpath_normalized (s : string) : isabs s = true -> normalized (normpath s).
Proof.
  intros Habs. unfold normpath.
  destruct (String.eqb_spec s EmptyString) as [->|_]; [done|].
  unfold isabs in Habs. rewrite Habs.
  set (k := if Str.startswith s "//" && negb (Str.startswith s "///") then 2 else 1).
  assert (Hk : k <> 0) by (unfold k; by destruct (_ && _)).
  set (comps := rev (fold_left (norm_step k) (Str.split_slash s) [])).
  assert (Hg : forallb good_name comps = true).
  { apply goods_rev, fold_norm_good; [done|apply split_slash_no_slashes|done]. }
  assert (E : slashes k +:+ String.concat "/" comps = abs_of comps
              \/ slashes k +:+ String.concat "/" comps = "/" +:+ abs_of comps).
  { unfold k. destruct (_ && _); [right|left]; reflexivity. }
  destruct (String.eqb_spec (slashes k +:+ String.concat "/" comps) EmptyString) as [E'|_].
  { rewrite E' in E. by destruct E. }
  exists comps. done.
Qed.

Lemma realpath_normalized (cwd : string) (f : gmap string node) (s : string) :
  isabs cwd = true -> normalized (realpath cwd f s).
Proof.
  intros Hc. unfold realpath, abspath.
  destruct (isabs (joinrealpath cwd f (size f) EmptyString s [] ).1.1) eqn:E.
  - by apply normpath_normalized.
  - by apply normpath_normalized, PathInvariant.join_isabs.
Qed.

End NormalFacts.

(** X7: what [Path.__init__] establishes, with an absolute working
    directory: the location is absolute and normalized (its components
    are names, none of them empty, a dot or two dots); the path is a
    [User] path exactly when the string starts with [~/], and otherwise
    [Absolute] exactly when it starts with a slash; a [User] path is
    based on the home directory, a [Relative] path on the given base
    directory, and an [Absolute] path has no base directory. *)
Theorem path_init_invariant (env : Env) (f : gmap string node) (p : string)
    (b : option string) (x : PathObj) :
  isabs (cwd env) = true ->
  Path.init env f p b = Ok x ->
  normalized (path x)
  /\ _type x = (if Str.startswith p "~/" then User
                else if isabs p then Absolute else Relative)
  /\ basedir x = match _type x with
                 | User => Some (expanduser (home env) "~/")
                 | Absolute => None
                 | Relative => b
                 end.
Proof.
  intros Hc. unfold Path.init.
  destruct (Str.startswith p "~/").
  { intros [= <-]. cbn [path _type basedir]. split; [|done].
    by apply NormalFacts.realpath_normalized. }
  destruct (isabs p).
  { intros [= <-]. cbn [path _type basedir]. split; [|done].
    by apply NormalFacts.realpath_normalized. }
  destruct (Path.check_basedir_valid env f b); [|done]. cbn [rbind].
  intros [= <-]. cbn [path _type basedir]. split; [|done].
  by apply NormalFacts.realpath_normalized.
Qed.

Lemma path_init_invariant_witness :
  normalized "/opt/agm/templates"
  /\ Relative = Relative
  /\ Some "/proj" = Some "/proj".
Proof.
  apply (path_init_invariant env_demo fs_demo "../opt/agm/./templates" (Some "/proj")
           (mkPath Relative (Some "/proj") "/opt/agm/templates")).
  - reflexivity.
  - vm_compute. reflexivity.
Defined.

(* ===================================================================== *)
(** * Relative forms, extensions and parents *)
(* ===================================================================== *)

Module RelativeFacts.

Import StrFacts PathFacts.

Lemma nonempty_comps_rel (s : string) : forallb rel_name (nonempty_comps s) = true.
Proof.
  unfold nonempty_comps. pose proof (NormalFacts.split_slash_no_slashes s) as H.
  induction (Str.split_slash s) as [|c l IH]; [done|].
  cbn [forallb] in H. apply andb_true_iff in H as [Hc Hl].
  cbn [List.filter]. destruct (String.eqb c EmptyString) eqn:E; cbn [negb]; [by apply IH|].
  cbn [forallb]. rewrite IH by done. unfold rel_name. by rewrite E, Hc.
Qed.

Lemma rel_names_skipn (n : nat) (l : list string) :
  forallb rel_name l = true -> forallb rel_name (List.skipn n l) = true.
Proof.
  rewrite !forallb_forall. intros H x Hx. apply H.
  rewrite <- (firstn_skipn n l). apply in_or_app. by right.
Qed.

(** [os.path.relpath] is [.] or a sequence of names and [..]. *)
Lemma relpath_shape (cwd path start : string) :
  exists l, l <> [] /\ forallb rel_name l = true
            /\ relpath cwd path start = String.concat "/" l.
Proof.
  unfold relpath.
  set (sl := nonempty_comps (abspath cwd start)).
  set (pl := nonempty_comps (abspath cwd path)).
  set (i := common_prefix_len sl pl).
  destruct (repeat ".." (length sl - i) ++ List.skipn i pl) as [|a l] eqn:E.
  - by exists ["."].
  - exists (a :: l). split; [done|].
    assert (H : forallb rel_name (a :: l) = true).
    { rewrite <- E, forallb_app, CanonicalFacts.rel_name_dotdots.
      apply rel_names_skipn, nonempty_comps_rel. }
    split; [done|]. by apply RealpathFacts.join_list_concat.
Qed.

Lemma relpath_never_abs (cwd path start : string) : isabs (relpath cwd path start) = false.
Proof.
  destruct (relpath_shape cwd path start) as (l & Hne & Hl & ->).
  by apply CanonicalFacts.concat_rel_not_abs.
Qed.

Lemma relpath_not_empty (cwd path start : string) : relpath cwd path start <> EmptyString.
Proof.
  destruct (relpath_shape cwd path start) as (l & Hne & Hl & ->).
  destruct l as [|a l]; [done|]. cbn [forallb] in Hl. apply andb_true_iff in Hl as [Ha _].
  apply RealpathFacts.rel_name_spec in Ha as [Ha _].
  destruct a; [done|]. by destruct l.
Qed.

Lemma split_abs_rel (cs : list string) (c : string) :
  forallb good_name cs = true -> rel_name c = true ->
  split (abs_of (cs ++ [c])) = (abs_of cs, c).
Proof.
  intros Hg Hc. apply RealpathFacts.rel_name_spec in Hc as (Hne & Hns).
  unfold split. destruct cs as [|e cs].
  - change (abs_of ([] ++ [c])) with (EmptyString +:+ "/" +:+ c).
    by rewrite rpartition_app.
  - rewrite abs_of_snoc by done. rewrite rpartition_app by done.
    destruct (abs_of_ends (e :: cs)) as (s & d & E & Hd); [done..|].
    apply good_name_spec in Hd as (? & _ & _ & ?).
    rewrite E. rewrite all_slashes_app, (all_slashes_app s d).
    rewrite (no_slash_not_all_slashes d) by done. rewrite andb_false_r. cbn [andb negb].
    destruct (String.eqb_spec ((s +:+ d) +:+ "/") EmptyString) as [E'|_].
    { destruct s; [destruct d|]; done. }
    cbn [negb]. rewrite rstrip_slash_snoc. by rewrite rstrip_slash_app.
Qed.

Lemma contains_slash (s : string) : Str.contains "/" s = false -> Str.no_slash s = true.
Proof.
  induction s as [|c s IH]; [done|]. cbn [Str.contains Str.no_slash].
  rewrite prefix_cons, prefix_nil, andb_true_r.
  intros [H1 H2]%orb_false_elim. rewrite Ascii.eqb_sym, H1. by apply IH.
Qed.

Lemma rpartition_dot_app (s h t : string) :
  Str.rpartition_dot s = Some (h, t) -> s = h +:+ t.
Proof.
  revert h t. induction s as [|c s IH]; intros h t; [done|]. cbn [Str.rpartition_dot].
  destruct (Str.rpartition_dot s) as [[h' t']|].
  - intros [= <- <-]. rewrite sapp_cons. f_equal. by apply IH.
  - destruct (Ascii.eqb c "."); [|done]. by intros [= <- <-].
Qed.

Lemma stem_rel_name (name : string) :
  rel_name name = true -> rel_name (Path.pathlib_stem name) = true.
Proof.
  intros H. unfold Path.pathlib_stem.
  destruct (Str.rpartition_dot name) as [[h t]|] eqn:E; [|done].
  destruct (String.eqb h EmptyString) eqn:Eh; [done|]. cbn [negb andb].
  destruct (Nat.leb 2 (String.length t)); [|done].
  apply rpartition_dot_app in E. subst name.
  unfold rel_name in *. rewrite Eh. cbn [negb andb].
  apply andb_true_iff in H as [_ H]. rewrite no_slash_app in H.
  by apply andb_true_iff in H as [-> _].
Qed.

Lemma rel_name_app (a b : string) :
  rel_name a = true -> Str.no_slash b = true -> rel_name (a +:+ b) = true.
Proof.
  unfold rel_name. intros [Ha Hs]%andb_true_iff Hb.
  rewrite no_slash_app, Hs, Hb. destruct a; [done|]. by rewrite sapp_cons.
Qed.

Lemma pathlib_parts_abs_of (cs : list string) :
  forallb good_name cs = true -> Path.pathlib_parts (abs_of cs) = cs.
Proof.
  intros Hg. unfold Path.pathlib_parts. destruct cs as [|c cs]; [reflexivity|].
  rewrite split_slash_abs_of by done.
  transitivity (List.filter (fun x => negb (String.eqb x EmptyString || String.eqb x "."))
                  (c :: cs)); [reflexivity|].
  induction (c :: cs) as [|d l IH]; [done|].
  cbn [forallb] in Hg. apply andb_true_iff in Hg as [Hd Hl].
  apply good_name_spec in Hd as (H1%String.eqb_neq & H2%String.eqb_neq & _).
  cbn [List.filter]. rewrite H1, H2. cbn [orb negb]. by rewrite IH.
Qed.

Lemma pathlib_root_abs_of (cs : list string) :
  forallb good_name cs = true -> Path.pathlib_root (abs_of cs) = "/".
Proof.
  intros Hg. unfold Path.pathlib_root.
  pose proof (isabs_abs_of cs) as H. unfold isabs in H. rewrite H.
  by rewrite startswith_dslash_abs_of.
Qed.

(** [with_suffix] on a normalized path replaces the suffix of the last
    component. *)
Lemma with_suffix_abs_of (cs : list string) (name ext p : string) :
  forallb good_name (cs ++ [name]) = true ->
  Path.with_suffix (abs_of (cs ++ [name])) ext = Ok p ->
  p = abs_of (cs ++ [Path.pathlib_stem name +:+ ext])
  /\ rel_name (Path.pathlib_stem name +:+ ext) = true.
Proof.
  intros Hg. unfold Path.with_suffix.
  destruct (Str.contains "/" ext) eqn:Hs; [done|].
  destruct (_ || _); [done|].
  rewrite pathlib_parts_abs_of, pathlib_root_abs_of by done.
  rewrite rev_app_distr. cbn [rev app]. rewrite rev_involutive.
  intros [= <-]. split; [done|].
  apply goods_app in Hg as [_ Hn]. cbn [forallb] in Hn. rewrite andb_true_r in Hn.
  apply rel_name_app; [|by apply contains_slash].
  by apply stem_rel_name, RealpathFacts.good_rel_name.
Qed.

Lemma rpartition_dot_none (e : string) :
  Str.contains "." e = false -> Str.rpartition_dot e = None.
Proof.
  induction e as [|c e IH]; [done|]. cbn [Str.contains Str.rpartition_dot].
  rewrite prefix_cons, prefix_nil, andb_true_r.
  intros [H1 H2]%orb_false_elim. rewrite IH by done. by rewrite Ascii.eqb_sym, H1.
Qed.

Lemma rpartition_dot_suffix (s e : string) :
  Str.contains "." e = false ->
  Str.rpartition_dot (s +:+ String "." e) = Some (s, String "." e).
Proof.
  intros He. induction s as [|c s IH].
  - rewrite sapp_nil_l. cbn [Str.rpartition_dot]. by rewrite rpartition_dot_none.
  - rewrite sapp_cons. cbn [Str.rpartition_dot]. by rewrite IH.
Qed.

(** [with_extension] on a normalized location. *)
Lemma with_extension_abs_of (self y : PathObj) (ext : string)
    (cs : list string) (name : string) :
  path self = abs_of (cs ++ [name]) ->
  forallb good_name (cs ++ [name]) = true ->
  Path.with_extension self ext = Ok y ->
  path y = abs_of (cs ++ [Path.pathlib_stem name +:+ ext])
  /\ Path.parent_dir y = Path.parent_dir self
  /\ _type y = _type self /\ basedir y = basedir self.
Proof.
  intros Hp Hg. unfold Path.with_extension. rewrite Hp.
  destruct (Path.with_suffix (abs_of (cs ++ [name])) ext) as [p|] eqn:E; [|done].
  cbn [rbind]. intros [= <-]. cbn [path _type basedir].
  apply with_suffix_abs_of in E as [-> Hn]; [|done].
  split; [done|]. split; [|done].
  unfold Path.parent_dir. cbn [path _type basedir]. rewrite Hp. f_equal.
  apply PathFacts.goods_app in Hg as [Hcs Hname]. cbn [forallb] in Hname.
  rewrite andb_true_r in Hname.
  unfold dirname. rewrite split_abs_rel by done.
  by rewrite PathFacts.split_abs_of.
Qed.

(** [to_relative] followed by [rel_path] between canonical locations. *)
Lemma to_relative_rel_path (env : Env) (f : gmap string node) (x y : PathObj)
    (base : string) :
  is_canonical f base = true ->
  is_canonical f (path x) = true ->
  Str.startswith (relpath (cwd env) (path x) base) "~/" = false ->
  Path.to_relative env f x base = Ok y ->
  Path.rel_path env y = Ok (relpath (cwd env) (path x) base).
Proof.
  intros Hbase Hx Htilde.
  apply CanonicalFacts.is_canonical_spec in Hbase as (bs & -> & Gbs & Lbs).
  destruct x as [ty bd loc]. cbn [path] in *.
  apply CanonicalFacts.is_canonical_spec in Hx as (ps & -> & Gps & Lps).
  unfold Path.to_relative, Path.relpath_checked. cbn [path].
  destruct (Path.check_basedir_valid env f (Some (abs_of bs))) as [v|] eqn:Hv; [|done].
  cbn [rbind].
  change (String.eqb (abs_of ps) EmptyString) with false. cbn iota. cbn [rbind].
  unfold Path.init. rewrite Htilde, relpath_never_abs, Hv. cbn [rbind default].
  intros [= <-]. unfold Path.rel_path, Path.relpath_checked. cbn [_type basedir path default].
  rewrite CanonicalFacts.realpath_join_relpath by done.
  change (String.eqb (abs_of ps) EmptyString) with false. done.
Qed.

End RelativeFacts.

(** X8: the relative form that ends up in the generated files.  When
    the base directory and the location of a path are canonical and the
    relative form does not begin with [~/], [to_relative(base)] followed
    by [rel_path()] returns [os.path.relpath] of the location from the
    base directory: the composition never raises, and it takes the
    lexical path, with as many [..] as needed. *)
Theorem to_relative_then_rel_path (env : Env) (f : gmap string node) (x y : PathObj)
    (base : string) :
  is_canonical f base = true ->
  is_canonical f (path x) = true ->
  Str.startswith (relpath (cwd env) (path x) base) "~/" = false ->
  Path.to_relative env f x base = Ok y ->
  Path.rel_path env y = Ok (relpath (cwd env) (path x) base).
Proof. apply RelativeFacts.to_relative_rel_path. Qed.

Lemma to_relative_then_rel_path_witness :
  Path.rel_path env_demo (mkPath Relative (Some "/proj") "/opt/agm/templates")
  = Ok (relpath (cwd env_demo) "/opt/agm/templates" "/proj").
Proof.
  apply (to_relative_then_rel_path env_demo fs_demo
           (mkPath Absolute None "/opt/agm/templates")
           (mkPath Relative (Some "/proj") "/opt/agm/templates") "/proj");
    vm_compute; reflexivity.
Defined.

(** X9: [Path.with_extension] changes the last component only.  On a
    normalized location whose last component is [name], the new
    location has the same components before it and the stem of [name]
    followed by the extension as its last one; the parent directory,
    the type and the base directory are those of the original. *)
Theorem with_extension_same_directory (self y : PathObj) (ext : string)
    (cs : list string) (name : string) :
  path self = abs_of (cs ++ [name]) ->
  forallb good_name (cs ++ [name]) = true ->
  Path.with_extension self ext = Ok y ->
  path y = abs_of (cs ++ [Path.pathlib_stem name +:+ ext])
  /\ Path.parent_dir y = Path.parent_dir self
  /\ _type y = _type self /\ basedir y = basedir self.
Proof. apply RelativeFacts.with_extension_abs_of. Qed.

Lemma with_extension_same_directory_witness :
  let self := mkPath Relative (Some "/proj") "/proj/src/s.ino" in
  let y := mkPath Relative (Some "/proj") "/proj/src/s.ino.bin" in
  path y = abs_of (["proj"; "src"] ++ [Path.pathlib_stem "s.ino" +:+ ".ino.bin"])
  /\ Path.parent_dir y = Path.parent_dir self
  /\ _type y = _type self /\ basedir y = basedir self.
Proof.
  intros self y.
  apply (with_extension_same_directory self y ".ino.bin" ["proj"; "src"] "s.ino");
    vm_compute; reflexivity.
Defined.

(** X10: taking a location apart and joining it again.  For a
    normalized location with at least one component, the location of
    [parent_dir()] joined with [basename()] is the location itself, and
    the parent directory is the location without its last component. *)
Theorem parent_dir_basename_round_trip (self : PathObj) (cs : list string) (name : string) :
  path self = abs_of (cs ++ [name]) ->
  forallb good_name (cs ++ [name]) = true ->
  path (Path.parent_dir self) = abs_of cs
  /\ Path.basename self = name
  /\ join (path (Path.parent_dir self)) (Path.basename self) = path self.
Proof.
  intros Hp Hg. apply PathFacts.goods_app in Hg as [Hcs Hname].
  cbn [forallb] in Hname. rewrite andb_true_r in Hname.
  unfold Path.parent_dir, Path.basename. cbn [path]. rewrite Hp.
  rewrite FsFacts.dirname_abs_of, FsFacts.basename_abs_of by done.
  by rewrite PathFacts.join_abs_of.
Qed.

Lemma parent_dir_basename_round_trip_witness :
  let self := mkPath Relative (Some "/proj") "/proj/src/s.ino" in
  path (Path.parent_dir self) = abs_of ["proj"; "src"]
  /\ Path.basename self = "s.ino"
  /\ join (path (Path.parent_dir self)) (Path.basename self) = path self.
Proof.
  intros self.
  apply (parent_dir_basename_round_trip self ["proj"; "src"] "s.ino");
    vm_compute; reflexivity.
Defined.

(** X11: the domain of a scanned file follows the root it was found
    under.  For an absolute [raw_path], [Qmake.path_from_ancestor]
    always returns under a [User] or an [Absolute] root; the path it
    returns is a [User] path under a [User] root, an [Absolute] path
    under an [Absolute] root, and never an [Absolute] path under a
    [Relative] root. *)
Theorem path_from_ancestor_domain (env : Env) (f : gmap string node)
    (ancestor qmake_path : PathObj) (raw_path : string) :
  isabs raw_path = true ->
  (Path.isrel ancestor = false ->
     exists y, Qmake.path_from_ancestor env f ancestor qmake_path raw_path = Ok y)
  /\ (forall y, Qmake.path_from_ancestor env f ancestor qmake_path raw_path = Ok y ->
        match _type ancestor with
        | User => _type y = User
        | Absolute => _type y = Absolute
        | Relative => _type y <> Absolute
        end).
Proof.
  intros Habs. pose proof (PathInvariant.isabs_inv _ Habs) as (raw' & ->).
  assert (Htilde : Str.startswith (String "/" raw') "~/" = false) by done.
  unfold Qmake.path_from_ancestor, Path.isuser, Path.isabs, Path.isrel.
  destruct (_type ancestor).
  - split; [done|]. intros y.
    unfold Path.init at 1. rewrite Htilde, Habs. cbn [rbind].
    unfold Path.to_relative, Path.relpath_checked. cbn [path].
    destruct (Path.check_basedir_valid env f _) as [v|] eqn:Hv; [|done]. cbn [rbind].
    destruct (String.eqb _ EmptyString); [done|]. cbn [rbind].
    unfold Path.init. rewrite RelativeFacts.relpath_never_abs.
    destruct (Str.startswith (relpath _ _ _) "~/"); [by intros [= <-]|].
    rewrite Hv. cbn [rbind]. by intros [= <-].
  - unfold Path.init. rewrite Htilde, Habs. cbv iota.
    split; [by eexists|]. by intros y [= <-].
  - unfold Path.relpath_checked.
    change (String.eqb (String "/" raw') EmptyString) with false. cbn [rbind].
    set (r := relpath (cwd env) (String "/" raw') (expanduser (home env) "~/")).
    assert (E : Str.startswith (join "~/" r) "~/" = true).
    { unfold join. pose proof (RelativeFacts.relpath_never_abs (cwd env) (String "/" raw')
                                 (expanduser (home env) "~/")) as H.
      unfold isabs in H. fold r in H. rewrite H.
      change (String.eqb "~/" EmptyString || Str.endswith "~/" "/") with true.
      cbv iota. apply StrFacts.prefix_app. }
    unfold Path.init. rewrite E. cbv iota. split; [by eexists|]. by intros y [= <-].
Qed.

Lemma path_from_ancestor_domain_witness :
  exists y, Qmake.path_from_ancestor env_demo fs_demo user_lib (proj_path "proj.pro")
              "/home/u/Arduino/lib/a.h" = Ok y.
Proof.
  apply (path_from_ancestor_domain env_demo fs_demo user_lib (proj_path "proj.pro")
           "/home/u/Arduino/lib/a.h"); reflexivity.
Defined.

(** X12: the files a qmake project is made of are created next to the
    project file.  For a project file [stem.pro] at a normalized
    location, [Qmake.__init__] places the companion file at [stem.pri]
    and the run script at [stem], both in the directory of the project
    file.  A project file named just [.pro] has no suffix to replace:
    its companion is [.pro.pri], and its run script is the project file
    itself. *)
Theorem qmake_init_siblings (env : Env) (f : gmap string node) (config : Config.t)
    (pro template sketch makefile : PathObj) (q : Qmake.t)
    (cs : list string) (stem : string) :
  path pro = abs_of (cs ++ [stem +:+ ".pro"]) ->
  forallb good_name (cs ++ [stem +:+ ".pro"]) = true ->
  Qmake.init env f config pro template sketch makefile = Ok q ->
  let name := if String.eqb stem EmptyString then ".pro" else stem in
  path (Qmake.prifile_path q) = abs_of (cs ++ [name +:+ ".pri"])
  /\ path (Qmake.script_path q) = abs_of (cs ++ [name])
  /\ Path.parent_dir (Qmake.prifile_path q) = Path.parent_dir pro
  /\ Path.parent_dir (Qmake.script_path q) = Path.parent_dir pro
  /\ Qmake.path q = pro.
Proof.
  intros Hp Hg. unfold Qmake.init.
  destruct (Path.with_extension pro ".pri") as [pri|] eqn:E1; [|done]. cbn [rbind].
  destruct (Path.with_extension template ".pri") as [tpri|]; [|done]. cbn [rbind].
  destruct (Path.to_relative env f sketch _) as [sk|]; [|done]. cbn [rbind].
  destruct (Path.with_extension pro EmptyString) as [script|] eqn:E2; [|done]. cbn [rbind].
  intros [= <-]. cbn [Qmake.prifile_path Qmake.script_path Qmake.path].
  assert (Hstem : Path.pathlib_stem (stem +:+ ".pro")
                  = if String.eqb stem EmptyString then ".pro" else stem).
  { unfold Path.pathlib_stem.
    rewrite (RelativeFacts.rpartition_dot_suffix stem "pro") by done.
    destruct (String.eqb_spec stem EmptyString) as [->|_]; done. }
  apply (RelativeFacts.with_extension_abs_of pro pri ".pri" cs _ Hp Hg) in E1
    as (H1 & H2 & _).
  apply (RelativeFacts.with_extension_abs_of pro script EmptyString cs _ Hp Hg) in E2
    as (H3 & H4 & _).
  rewrite Hstem in H1, H3. rewrite StrFacts.sapp_nil_r in H3. done.
Qed.

Lemma qmake_init_siblings_witness :
  path (Qmake.prifile_path qmake_demo) = abs_of (["proj"] ++ ["proj" +:+ ".pri"])
  /\ path (Qmake.script_path qmake_demo) = abs_of (["proj"] ++ ["proj"])
  /\ Path.parent_dir (Qmake.prifile_path qmake_demo) = Path.parent_dir (proj_path "proj.pro")
  /\ Path.parent_dir (Qmake.script_path qmake_demo) = Path.parent_dir (proj_path "proj.pro")
  /\ Qmake.path qmake_demo = proj_path "proj.pro".
Proof.
  apply (qmake_init_siblings env_demo fs_demo config_demo (proj_path "proj.pro")
           (mkPath Absolute None "/opt/agm/templates/qmake.pro")
           (proj_path "s.ino") (proj_path "Makefile") qmake_demo ["proj"] "proj");
    vm_compute; reflexivity.
Defined.

(* ===================================================================== *)
(** * What a composed configuration holds *)
(* ===================================================================== *)

Module ComposeFacts.

Import ConfigFacts.

Ltac bind_ok H x w1 E :=
  apply bind_inv in H as [(x & w1 & E & H)|(? & _ & [=])].

(** ** The paths of the configuration *)

Lemma merge_key_keeps (env : Env) (p : PathObj) (self s : Config.t)
    (e : ykey * yvalue) (w w' : world) :
  Config.merge_key env p self e w = (Ok s, w') ->
  Config.main_paths s = Config.main_paths self /\ Config.paths s = Config.paths self.
Proof.
  destruct e as [k v]. unfold Config.merge_key.
  repeat match goal with
         | |- (if ?b then _ else _) _ = _ -> _ => destruct b
         end;
    intros H;
    repeat match type of H with
           | bind _ _ _ = _ =>
               let x := fresh "x" in let w1 := fresh "w" in let E := fresh "E" in
               bind_ok H x w1 E
           end;
    by injection H as <- <-.
Qed.

Lemma merge_keys_keeps (env : Env) (p : PathObj) (entries : list (ykey * yvalue))
    (self s : Config.t) (w w' : world) :
  Config.merge_keys env p entries self w = (Ok s, w') ->
  Config.main_paths s = Config.main_paths self /\ Config.paths s = Config.paths self.
Proof.
  revert self w. induction entries as [|e entries IH]; intros self w H.
  - by injection H as <- <-.
  - cbn [Config.merge_keys] in H. bind_ok H s1 w1 E.
    apply merge_key_keeps in E as [E1 E2]. apply IH in H as [H1 H2]. split; congruence.
Qed.

Lemma merge_layer_keeps (env : Env) (self s : Config.t) (p : PathObj) (w w' : world) :
  Config.merge_layer env self p w = (Ok s, w') ->
  Config.main_paths s = Config.main_paths self /\ Config.paths s = Config.paths self.
Proof.
  unfold Config.merge_layer. intros H. bind_ok H data w1 E.
  destruct data as [entries|]; [|done]. by apply merge_keys_keeps in H.
Qed.

Lemma merge_layers_keeps (env : Env) (layers : list PathObj) (self s : Config.t)
    (w w' : world) :
  Config.merge_layers env layers self w = (Ok s, w') ->
  Config.main_paths s = Config.main_paths self /\ Config.paths s = Config.paths self.
Proof.
  revert self w. induction layers as [|p layers IH]; intros self w H.
  - by injection H as <- <-.
  - cbn [Config.merge_layers] in H. bind_ok H s1 w1 E.
    apply merge_layer_keeps in E as [E1 E2]. apply IH in H as [H1 H2]. split; congruence.
Qed.

(** What [Config.__init__] returns is what the merge has built, and its
    board identifier is a string. *)
Lemma init_inv (env : Env) (depth : nat) (paths : list PathObj) (w w' : world)
    (c : Config.t) :
  Config.init env depth paths w = (Ok c, w') ->
  exists all w1 w2 board,
    Config.expand env depth paths [] w = (Ok all, w1)
    /\ Config.merge_layers env all
         (Config.mk paths all YNull [] (YStr "cat $$SERIALPORT") (YStr "115200") [] [] [])
         w1 = (Ok c, w2)
    /\ Config.fqbn c = YStr board
    /\ yaml_loads w' = yaml_loads w2.
Proof.
  unfold Config.init. intros H.
  bind_ok H layers w1 E1. bind_ok H self w2 E2.
  bind_ok H u w3 E3. bind_ok H u1 w4 E4. bind_ok H u2 w5 E5.
  bind_ok H text w6 E6. bind_ok H u3 w7 E7. bind_ok H u4 w8 E8.
  unfold lift, Config.to_str in E6.
  destruct (Config.fqbn self) as [| board | |] eqn:Ef; try done.
  unfold ret, print, modify in *. simplify_eq.
  eexists layers, w1, _, board. split; [exact E1|]. split; [exact E2|]. done.
Qed.

Lemma expand_layout (env : Env) (depth : nat) (w0 : world) (paths acc : list PathObj)
    (w : world) (r : list PathObj) (w' : world) :
  sim w0 w ->
  Config.expand env depth paths acc w = (Ok r, w') ->
  r = acc ++ flat_map (fun p => p :: inclusions env depth w0 p) paths
  /\ Forall (fun p => is_ok (fst (Config.get_extra_configs env depth p w0)) = true) paths
  /\ sim w0 w'.
Proof.
  revert acc w. induction paths as [|p paths IH]; intros acc w Hs H.
  - injection H as <- <-. by rewrite List.app_nil_r.
  - cbn [Config.expand] in H. bind_ok H sub w1 E.
    destruct (respects_get_extra_configs env depth p w0 w Hs) as [Er _].
    rewrite E in Er. cbn [fst] in Er.
    assert (Hs1 : sim w0 w1).
    { destruct Hs as [Hf Hst]. split.
      - rewrite Hf. symmetry. exact (fs_stable_get_extra_configs env depth p w _ w1 E).
      - rewrite Hst. symmetry. exact (balanced_get_extra_configs env depth p w sub w1 E). }
    apply IH in H as (-> & Hall & Hs'); [|done]. split; [|split; [|done]].
    + cbn [flat_map]. unfold inclusions at 2. rewrite Er.
      by rewrite <- !List.app_assoc.
    + constructor; [by rewrite Er|done].
Qed.

(** ** The files handed to the parser *)

Lemma parses_nothing_ret {A} (a : A) : parses_nothing (ret a).
Proof. by intros w r w' [= <- <-]. Qed.

Lemma parses_nothing_raise {A} (e : exn) : parses_nothing (@raise A e).
Proof. by intros w r w' [= <- <-]. Qed.

Lemma parses_nothing_lift {A} (g : gmap string node -> result A) : parses_nothing (lift g).
Proof. by intros w r w' [= <- <-]. Qed.

Lemma parses_nothing_print (line : string) : parses_nothing (print line).
Proof. by intros w r w' [= <- <-]. Qed.

Lemma parses_nothing_bind {A B} (m : M A) (k : A -> M B) :
  parses_nothing m -> (forall a, parses_nothing (k a)) -> parses_nothing (bind m k).
Proof.
  intros Hm Hk w r w' [(a & w1 & E1 & E2)|(e & E1 & _)]%bind_inv.
  - rewrite (Hk _ _ _ _ E2). by apply Hm in E1.
  - by apply Hm in E1.
Qed.

Lemma parses_nothing_merge_key (env : Env) (p : PathObj) (self : Config.t)
    (e : ykey * yvalue) : parses_nothing (Config.merge_key env p self e).
Proof.
  destruct e as [k v]. unfold Config.merge_key.
  repeat match goal with
         | |- parses_nothing (if ?b then _ else _) => destruct b
         | |- parses_nothing (bind _ _) => apply parses_nothing_bind; [|intros ?]
         | |- _ => first [apply parses_nothing_ret|apply parses_nothing_lift
                         |apply parses_nothing_print]
         end.
Qed.

Lemma parses_nothing_merge_keys (env : Env) (p : PathObj)
    (entries : list (ykey * yvalue)) (self : Config.t) :
  parses_nothing (Config.merge_keys env p entries self).
Proof.
  revert self. induction entries as [|e entries IH]; intros self; [apply parses_nothing_ret|].
  cbn [Config.merge_keys]. apply parses_nothing_bind; [apply parses_nothing_merge_key|].
  intros s. apply IH.
Qed.

Lemma load_parses (env : Env) (p : PathObj) (w w' : world) (data : yaml) :
  Config.load env p w = (Ok data, w') -> yaml_loads w' = yaml_loads w ++ [path p].
Proof.
  unfold Config.load. intros H. bind_ok H content w1 E1. bind_ok H u w2 E2.
  destruct (safe_load env content); [|done].
  unfold lift, modify, ret in *. by simplify_eq.
Qed.

Lemma merge_layer_parses (env : Env) (self s : Config.t) (p : PathObj) (w w' : world) :
  Config.merge_layer env self p w = (Ok s, w') ->
  yaml_loads w' = yaml_loads w ++ [path p].
Proof.
  unfold Config.merge_layer. intros H. bind_ok H data w1 E.
  destruct data as [entries|]; [|done].
  apply parses_nothing_merge_keys in H. rewrite H.
  destruct (Config.load env p w) as [[d|e] w2] eqn:El.
  - injection E as _ <-. by apply load_parses in El.
  - unfold Error.exit_on_exception, bind, print, modify, raise in E. by destruct e.
Qed.

Lemma merge_layers_parse (env : Env) (layers : list PathObj) (self s : Config.t)
    (w w' : world) :
  Config.merge_layers env layers self w = (Ok s, w') ->
  yaml_loads w' = yaml_loads w ++ map path layers.
Proof.
  revert self w. induction layers as [|p layers IH]; intros self w H.
  - injection H as _ <-. by rewrite List.app_nil_r.
  - cbn [Config.merge_layers] in H. bind_ok H s1 w1 E.
    apply merge_layer_parses in E. apply IH in H. rewrite H, E.
    by rewrite <- List.app_assoc.
Qed.

Lemma configs_loop_parses (env : Env) (recurse : PathObj -> M (list PathObj))
    (p : PathObj) (configs : list string) (acc : list PathObj) (w w' : world)
    (r : list PathObj) :
  (forall q w r w', recurse q w = (Ok r, w') ->
     yaml_loads w' = yaml_loads w ++ path q :: map path r) ->
  Config.configs_loop env recurse p configs acc w = (Ok r, w') ->
  exists new, r = acc ++ new /\ yaml_loads w' = yaml_loads w ++ map path new.
Proof.
  intros Hr. revert acc w. induction configs as [|c configs IH]; intros acc w H.
  - injection H as <- <-. exists []. by rewrite !List.app_nil_r.
  - cbn [Config.configs_loop] in H. bind_ok H q w1 E1. bind_ok H sub w2 E2.
    injection E1 as _ <-.
    apply Hr in E2. apply IH in H as (new & -> & H).
    exists (q :: sub ++ new). split.
    + by rewrite <- !List.app_assoc.
    + rewrite H, E2. cbn [map]. rewrite map_app, <- !List.app_assoc. done.
Qed.

Lemma get_extra_configs_parses (env : Env) (depth : nat) (p : PathObj) (w : world)
    (r : list PathObj) (w' : world) :
  Config.get_extra_configs env depth p w = (Ok r, w') ->
  yaml_loads w' = yaml_loads w ++ path p :: map path r.
Proof.
  revert p w r w'. induction depth as [|depth IH]; intros p w r w' H; [done|].
  cbn [Config.get_extra_configs] in H.
  bind_ok H stack w1 E1. injection E1 as <- <-.
  bind_ok H u w2 E2. destruct u.
  assert (w2 = w) as ->.
  { destruct (Path.mem p (extra_config_stack w)).
    - rewrite report_cycle_run in E2. done.
    - by injection E2. }
  bind_ok H u1 w3 E3. destruct u1. injection E3 as <-.
  bind_ok H data w4 E4. apply load_parses in E4.
  bind_ok H configs w5 E5. injection E5 as _ <-.
  bind_ok H l w6 E6.
  apply (configs_loop_parses env _ p configs [] _ _ _ IH) in E6 as (new & -> & E6).
  bind_ok H u2 w7 E7. destruct u2. injection E7 as <-. injection H as <- <-.
  cbn [yaml_loads set_stack]. rewrite E6, E4. cbn [yaml_loads set_stack app].
  by rewrite <- List.app_assoc.
Qed.

Lemma expand_parses (env : Env) (depth : nat) (paths acc : list PathObj) (w w' : world)
    (r : list PathObj) :
  Config.expand env depth paths acc w = (Ok r, w') ->
  exists new, r = acc ++ new /\ yaml_loads w' = yaml_loads w ++ map path new.
Proof.
  revert acc w. induction paths as [|p paths IH]; intros acc w H.
  - injection H as <- <-. exists []. by rewrite !List.app_nil_r.
  - cbn [Config.expand] in H. bind_ok H sub w1 E.
    apply get_extra_configs_parses in E. apply IH in H as (new & -> & H).
    exists (p :: sub ++ new). split.
    + by rewrite <- !List.app_assoc.
    + rewrite H, E. cbn [map]. rewrite map_app, <- !List.app_assoc. done.
Qed.

End ComposeFacts.

(** X13: the paths of a composed configuration.  When [Config(paths)]
    returns, its main paths are [paths], and its list of all paths holds,
    for every main path in order, the path followed by its inclusions;
    the inclusions of a main path are those [get_extra_configs] finds
    for it on its own, whatever the other main paths include. *)
Theorem config_paths_layout (env : Env) (depth : nat) (paths : list PathObj)
    (w w' : world) (c : Config.t) :
  Config.init env depth paths w = (Ok c, w') ->
  Config.main_paths c = paths
  /\ Config.paths c = flat_map (fun p => p :: inclusions env depth w p) paths
  /\ Forall (fun p => is_ok (fst (Config.get_extra_configs env depth p w)) = true) paths.
Proof.
  intros H. apply ComposeFacts.init_inv in H as (all & w1 & w2 & board & E1 & E2 & _).
  apply ComposeFacts.merge_layers_keeps in E2 as [-> ->]. cbn [Config.main_paths Config.paths].
  apply (ComposeFacts.expand_layout env depth w) in E1 as (-> & Hall & _);
    [|apply ConfigFacts.sim_refl].
  done.
Qed.

(** X14: a configuration that [Config(paths)] returns has a string as
    its board identifier: the missing identifier is refused by the
    check, and any other value by the printing of the configuration. *)
Theorem config_fqbn_is_string (env : Env) (depth : nat) (paths : list PathObj)
    (w w' : world) (c : Config.t) :
  Config.init env depth paths w = (Ok c, w') ->
  exists board, Config.fqbn c = YStr board.
Proof.
  intros H. apply ComposeFacts.init_inv in H as (all & w1 & w2 & board & _ & _ & E & _).
  by exists board.
Qed.

(** X15: every configuration file is opened and parsed twice.  When
    [Config(paths)] returns, the files handed to [yaml.safe_load] are
    all the paths of the configuration in order, once while the
    inclusions are expanded and once more while the layers are merged. *)
Theorem config_files_parsed_twice (env : Env) (depth : nat) (paths : list PathObj)
    (w w' : world) (c : Config.t) :
  Config.init env depth paths w = (Ok c, w') ->
  yaml_loads w'
  = yaml_loads w ++ map path (Config.paths c) ++ map path (Config.paths c).
Proof.
  intros H. apply ComposeFacts.init_inv in H as (all & w1 & w2 & board & E1 & E2 & _ & ->).
  pose proof (ComposeFacts.merge_layers_keeps _ _ _ _ _ _ E2) as [_ ->].
  cbn [Config.paths].
  apply ComposeFacts.merge_layers_parse in E2.
  apply ComposeFacts.expand_parses in E1 as (new & -> & E1). cbn [app] in *.
  rewrite E2, E1. by rewrite <- List.app_assoc.
Qed.

(** X16: a board identifier that is neither missing nor a string.  When
    every layer of the expanded configuration can be read and merged and
    the last value given for [fqbn] is a number or a list, [Config(paths)]
    raises [TypeError] while it prints the loaded configuration: the
    check for a missing identifier lets the value pass.  The file system
    is as it was. *)
Theorem non_string_fqbn_raises_type_error (env : Env) (depth : nat) (paths : list PathObj)
    (w wl : world) (layers : list (PathObj * list (string * yvalue))) (v : yvalue) :
  Config.expand env depth paths [] w = (Ok (map fst layers), wl) ->
  Forall (layer_loads env (fs w)) layers ->
  forallb (layer_ok env (fs w)) layers = true ->
  last_value "fqbn" YNull (flatten layers) = v ->
  v <> YNull -> (forall s, v <> YStr s) ->
  exists w',
    Config.init env depth paths w = (Raise TypeError, w')
    /\ stdout w'
       = stdout wl ++ warnings env (flatten layers) ++ [EmptyString; "Loaded configuration:"]
    /\ fs w' = fs w.
Proof.
  intros He Hl Hok Hv Hnull Hstr.
  pose proof (ConfigFacts.fs_stable_expand env depth _ _ _ _ _ He) as Hf.
  rewrite <- Hf in Hl, Hok.
  set (self0 := Config.mk paths (map fst layers) YNull []
                  (YStr "cat $$SERIALPORT") (YStr "115200") [] [] []).
  destruct (MergeFacts.merge_layers_spec env self0 wl layers [] self0 wl
              (MergeFacts.merged_refl env self0 wl) Hl Hok) as (s' & w' & E & Hm).
  cbn [app] in Hm.
  pose proof (merged_fqbn _ _ _ _ _ _ Hm) as Hq. cbn [Config.fqbn self0] in Hq.
  rewrite Hv in Hq.
  eexists. split; [|split].
  - unfold Config.init. rewrite (CycleFacts.bind_ok _ _ _ _ _ He).
    fold self0. rewrite (CycleFacts.bind_ok _ _ _ _ _ E).
    unfold Config.to_str. rewrite Hq.
    destruct v as [|s|n|l]; [done|by destruct (Hstr s)|reflexivity|reflexivity].
  - destruct v as [|s|n|l]; [done|by destruct (Hstr s)| |];
      cbn [stdout]; rewrite (merged_stdout _ _ _ _ _ _ Hm);
      by rewrite <- !List.app_assoc.
  - destruct v as [|s|n|l]; [done|by destruct (Hstr s)| |];
      cbn [fs]; by rewrite (merged_fs _ _ _ _ _ _ Hm).
Qed.

Lemma non_string_fqbn_raises_type_error_witness :
  exists w',
    Config.init env_incl 10 [proj_path "n.yaml"] world_incl = (Raise TypeError, w')
    /\ stdout w' = [EmptyString; "Loaded configuration:"]
    /\ fs w' = fs_incl.
Proof.
  assert (H1 : Config.expand env_incl 10 [proj_path "n.yaml"] [] world_incl
               = (Ok (map fst [layer_N]), mkWorld fs_incl [] [] ["/proj/n.yaml"]))
    by (vm_compute; reflexivity).
  assert (H2 : Forall (layer_loads env_incl (fs world_incl)) [layer_N]).
  { repeat constructor. exists "N". split; vm_compute; reflexivity. }
  assert (H3 : forallb (layer_ok env_incl (fs world_incl)) [layer_N] = true)
    by (vm_compute; reflexivity).
  assert (H4 : last_value "fqbn" YNull (flatten [layer_N]) = YNum 328)
    by (vm_compute; reflexivity).
  exact (non_string_fqbn_raises_type_error env_incl 10 _ world_incl _ [layer_N] (YNum 328)
           H1 H2 H3 H4 ltac:(discriminate) ltac:(discriminate)).
Defined.

Module ComposeExamples.

Lemma init_returns :
  exists c w',
    Config.init env_incl 10 [proj_path "t.yaml"] world_incl = (Ok c, w')
    /\ map path (Config.paths c) = ["/proj/t.yaml"; "/proj/f.yaml"; "/proj/sub/d.yaml"]
    /\ Config.fqbn c = YStr "arduino:avr:uno".
Proof.
  destruct (Config.init env_incl 10 [proj_path "t.yaml"] world_incl) as [r w'] eqn:E.
  assert (Hr : exists c, r = Ok c
                 /\ map path (Config.paths c)
                    = ["/proj/t.yaml"; "/proj/f.yaml"; "/proj/sub/d.yaml"]
                 /\ Config.fqbn c = YStr "arduino:avr:uno").
  { apply (f_equal fst) in E. cbn [fst] in E. rewrite <- E. vm_compute. eauto. }
  destruct Hr as (c & -> & H1 & H2). clear E.
  exists c, w'. split; [reflexivity|]. split; [exact H1|exact H2].
Qed.

End ComposeExamples.

Lemma config_paths_layout_witness :
  exists c,
    Config.main_paths c = [proj_path "t.yaml"]
    /\ Config.paths c
       = flat_map (fun p => p :: inclusions env_incl 10 world_incl p) [proj_path "t.yaml"]
    /\ map path (Config.paths c) = ["/proj/t.yaml"; "/proj/f.yaml"; "/proj/sub/d.yaml"].
Proof.
  destruct ComposeExamples.init_returns as (c & w' & E & Hp & _).
  exists c.
  destruct (config_paths_layout env_incl 10 _ world_incl w' c E) as (H1 & H2 & _).
  clear E. split; [exact H1|]. split; [exact H2|exact Hp].
Defined.

Lemma config_fqbn_is_string_witness :
  exists c board,
    fst (Config.init env_incl 10 [proj_path "t.yaml"] world_incl) = Ok c
    /\ Config.fqbn c = YStr board.
Proof.
  destruct ComposeExamples.init_returns as (c & w' & E & _).
  destruct (config_fqbn_is_string env_incl 10 _ world_incl w' c E) as (board & H).
  exists c, board. split; [rewrite E; reflexivity|exact H].
Defined.

Lemma config_files_parsed_twice_witness :
  yaml_loads (snd (Config.init env_incl 10 [proj_path "t.yaml"] world_incl))
  = ["/proj/t.yaml"; "/proj/f.yaml"; "/proj/sub/d.yaml";
     "/proj/t.yaml"; "/proj/f.yaml"; "/proj/sub/d.yaml"].
Proof.
  destruct ComposeExamples.init_returns as (c & w' & E & Hp & _).
  rewrite E. cbn [snd].
  rewrite (config_files_parsed_twice env_incl 10 _ world_incl w' c E), Hp.
  reflexivity.
Defined.

(* ===================================================================== *)
(** * Generating the Makefile *)
(* ===================================================================== *)

Module MakefileFacts.

Import StrFacts FsFacts ArtifactFacts.

Lemma prefix_refl (s : string) : String.prefix s s = true.
Proof. induction s as [|c s IH]; [done|]. by rewrite prefix_cons, Ascii.eqb_refl. Qed.

Lemma concat_all_app (l1 l2 : list string) :
  Str.concat_all (l1 ++ l2) = Str.concat_all l1 +:+ Str.concat_all l2.
Proof.
  induction l1 as [|x l1 IH]; [reflexivity|].
  cbn [app]. rewrite !LineFacts.concat_all_cons, IH. by rewrite sapp_assoc.
Qed.

(** The lines of a text, put together again, are the text. *)
Lemma concat_lines_of (s : string) : Str.concat_all (lines_of s) = s.
Proof.
  induction s as [|c s IH]; [reflexivity|]. cbn [lines_of].
  destruct (Ascii.eqb c LF) eqn:E.
  - apply Ascii.eqb_eq in E as ->. rewrite LineFacts.concat_all_cons, IH. reflexivity.
  - destruct (lines_of s) as [|l ls].
    + change (Str.concat_all []) with EmptyString in IH. by subst s.
    + rewrite LineFacts.concat_all_cons in *. by rewrite sapp_cons, IH.
Qed.

Lemma concat_chars (s : string) : Str.concat_all (Str.chars s) = s.
Proof.
  induction s as [|c s IH]; [reflexivity|]. cbn [Str.chars].
  rewrite LineFacts.concat_all_cons, IH. reflexivity.
Qed.

Lemma concat_flat_chars (lines : list string) :
  Str.concat_all (flat_map Str.chars lines) = Str.concat_all lines.
Proof.
  induction lines as [|l lines IH]; [reflexivity|]. cbn [flat_map].
  by rewrite concat_all_app, concat_chars, LineFacts.concat_all_cons, IH.
Qed.

(** Lines that end with a line feed and hold no other line ending are
    read back as they were written. *)
Lemma readlines_terminated (lines : list string) :
  Forall terminated_line lines -> readlines (Str.concat_all lines) = lines.
Proof.
  induction 1 as [|l lines (m & -> & H1 & H2) _ IH]; [reflexivity|].
  rewrite LineFacts.concat_all_cons, sapp_assoc.
  rewrite LineFacts.readlines_line by done. by rewrite IH.
Qed.

(** A rendering whose steps are known. *)
Lemma render_steps (step : string -> result (list string)) (g : string -> list string)
    (lines acc : list string) :
  (forall l, In l lines -> step l = Ok (g l)) ->
  Makefile.render step lines acc = Ok (acc ++ flat_map g lines).
Proof.
  revert acc. induction lines as [|l lines IH]; intros acc H.
  - cbn. by rewrite List.app_nil_r.
  - cbn [Makefile.render flat_map]. rewrite (H l) by (by left). cbn [rbind].
    rewrite IH by (intros l' Hl'; apply H; by right). by rewrite List.app_assoc.
Qed.

Lemma flat_map_singleton (lines : list string) : flat_map (fun l => [l]) lines = lines.
Proof. induction lines as [|l lines IH]; [done|]. cbn [flat_map app]. by rewrite IH. Qed.

Lemma replace_tokens_plain (env : Env) (f : gmap string node) (self : Makefile.t)
    (line : string) (sketch : PathObj) :
  makefile_plain line = true ->
  Makefile.replace_tokens env f self line sketch = Ok [line].
Proof.
  unfold makefile_plain. rewrite !andb_true_iff, !negb_true_iff.
  intros (((((((H1 & H2) & H3) & H4) & H5) & H6) & H7) & H8).
  unfold Makefile.replace_tokens. by rewrite H1, H2, H3, H4, H5, H6, H7, H8.
Qed.

Lemma qmake_replace_tokens_plain (env : Env) (f : gmap string node) (self : Qmake.t)
    (line : string) (other_files headers sources includepaths : list PathObj)
    (defines : list string) (include_abs include_rel include_user : bool) :
  qmake_plain line = true ->
  Qmake.replace_tokens env f self line other_files headers sources includepaths defines
    include_abs include_rel include_user = Ok (Str.chars line).
Proof.
  unfold qmake_plain. rewrite !andb_true_iff, !negb_true_iff.
  intros (((((((H1 & H2) & H3) & H4) & H5) & H6) & H7) & H8).
  unfold Qmake.replace_tokens. by rewrite H1, H2, H3, H4, H5, H6, H7, H8.
Qed.



(** A file that starts with the header is removed. *)
Lemma safely_remove_ours (env : Env) (self : PathObj) (w : world) (c : string) :
  is_canonical (fs w) (path self) = true ->
  node_at (fs w) (path self) = Some (File c) ->
  headed env c ->
  Path.safely_remove_or_exit env self w
  = (Ok tt, set_fs (delete (path self) (fs w)) w).
Proof.
  intros Hc Hn Hh. rewrite safely_remove_run.
  unfold Path.isemptyfile, Path.generated_by_us, Path.os_remove.
  rewrite (read_lines_file env (fs w) self c Hc Hn).
  unfold Path.exists_, Path.isfile.
  rewrite !exists_canonical, !isfile_canonical, remove_canonical by done.
  rewrite Hn. cbn [negb rbind].
  destruct (GenerateFacts.headed_readlines env c Hh) as (rest & ->).
  cbn [existsb]. unfold Str.startswith at 1. rewrite prefix_refl.
  cbn [orb negb andb]. reflexivity.
Qed.

(** [Makefile.generate] in one piece. *)
Lemma generate_run (env : Env) (self : Makefile.t) (w : world) :
  Makefile.generate env self w
  = match Path.safely_remove_or_exit env (Makefile.path self) w with
    | (Raise e, w1) => (Raise e, w1)
    | (Ok _, w1) =>
        match Path.read_lines env (fs w1) (Makefile.template_path self) with
        | Raise e =>
            (Raise e,
             printed ("Generating " +:+ Path.to_string (Makefile.path self) +:+ "...") w1)
        | Ok in_lines =>
            match Makefile.render
                    (fun line => Makefile.replace_tokens env (fs w1) self line
                                   (Makefile.sketch_path self))
                    in_lines (Constants.header_strings env) with
            | Raise e =>
                (Raise e,
                 printed ("Generating " +:+ Path.to_string (Makefile.path self) +:+ "...")
                   w1)
            | Ok out_lines =>
                match Path.write_lines env (Makefile.path self) out_lines
                        (printed ("Generating " +:+ Path.to_string (Makefile.path self)
                                  +:+ "...") w1) with
                | (Raise e, w3) => (Raise e, w3)
                | (Ok _, w3) => (Ok tt, printed "Done" w3)
                end
            end
        end
    end.
Proof.
  unfold Makefile.generate, bind, print, modify, lift, printed.
  destruct (Path.safely_remove_or_exit env (Makefile.path self) w) as [[u|e] w1];
    [|reflexivity].
  cbv beta iota. cbn [fs].
  destruct (Path.read_lines env (fs w1) (Makefile.template_path self)) as [in_lines|e];
    [|reflexivity].
  cbv beta iota. cbn [fs].
  destruct (Makefile.render _ in_lines (Constants.header_strings env)) as [out|e];
    [|reflexivity].
  cbv beta iota.
  destruct (Path.write_lines env (Makefile.path self) out _) as [[u'|e] w3]; reflexivity.
Qed.


End MakefileFacts.



(** X18: generating again over the generated file.  When the target is
    a canonical location and [Makefile.generate] has returned, running
    it once more returns as well and leaves the same file system: the
    file of the first run is recognized by its header, removed, and
    written again with the same content. *)
Theorem makefile_generate_twice (env : Env) (self : Makefile.t) (w w1 : world) :
  is_canonical (fs w) (path (Makefile.path self)) = true ->
  Makefile.generate env self w = (Ok tt, w1) ->
  exists w2, Makefile.generate env self w1 = (Ok tt, w2) /\ fs w2 = fs w1.
Proof.
  intros Hc H. rewrite MakefileFacts.generate_run in H.
  destruct (Path.safely_remove_or_exit env (Makefile.path self) w) as [[u|e] wa] eqn:E1;
    [|done].
  destruct u.
  destruct (ArtifactFacts.safely_remove_ok env (Makefile.path self) w wa Hc E1)
    as (F1 & L1 & N1).
  destruct (Path.read_lines env (fs wa) (Makefile.template_path self))
    as [in_lines|e] eqn:E3; [|done].
  destruct (Makefile.render _ in_lines (Constants.header_strings env))
    as [out|e] eqn:E4; [|done].
  destruct (Path.write_lines env (Makefile.path self) out _) as [[u|e] wb] eqn:E5; [|done].
  destruct u. injection H as H.
  pose proof (ArtifactFacts.render_extends _ _ _ _ E4) as (tail & Hout).
  lazymatch type of E5 with
  | Path.write_lines _ _ _ ?wx = _ =>
      destruct (GenerateFacts.write_after_remove env (Makefile.path self) out (fs w) wx wb
                  Hc L1 N1 E5) as (F5 & L5 & Hr)
  end.
  assert (Fw1 : fs w1 = fs wb) by (by rewrite <- H).
  assert (Hc1 : is_canonical (fs w1) (path (Makefile.path self)) = true).
  { rewrite Fw1. by rewrite <- (FsFacts.is_canonical_same (fs w)). }
  assert (Hn1 : node_at (fs w1) (path (Makefile.path self))
                = Some (File (EmptyString +:+ Str.concat_all out))).
  { rewrite Fw1, F5. by apply GenerateFacts.node_at_insert_eq. }
  assert (Hh : headed env (EmptyString +:+ Str.concat_all out))
    by (rewrite Hout; apply GenerateFacts.headed_new).
  pose proof (MakefileFacts.safely_remove_ours env (Makefile.path self) w1 _ Hc1 Hn1 Hh)
    as E1'.
  assert (Ffs : delete (path (Makefile.path self)) (fs w1) = fs wa).
  { rewrite Fw1, F5. unfold printed. cbn [fs]. rewrite F1.
    by rewrite delete_insert_eq, delete_delete_eq. }
  rewrite MakefileFacts.generate_run, E1'. cbn [fs set_fs]. rewrite Ffs, E3, E4.
  unfold Path.write_lines in *. unfold printed in *. cbn [fs set_fs] in *. rewrite ?Ffs.
  destruct (FS.append (cwd env) (fs wa) (path (Makefile.path self)) (Str.concat_all out))
    as [f'|e]; [|done].
  injection E5 as E5. eexists. split; [reflexivity|].
  cbn [fs set_fs]. rewrite Fw1, <- E5. reflexivity.
Qed.

Lemma makefile_generate_twice_witness :
  exists w1 w2,
    Makefile.generate env_demo makefile_demo world_demo = (Ok tt, w1)
    /\ Makefile.generate env_demo makefile_demo w1 = (Ok tt, w2)
    /\ fs w2 = fs w1.
Proof.
  destruct (Makefile.generate env_demo makefile_demo world_demo) as [r w1] eqn:E.
  assert (Hr : r = Ok tt).
  { apply (f_equal fst) in E. cbn [fst] in E. rewrite <- E. vm_compute. reflexivity. }
  subst r.
  assert (Hc : is_canonical (fs world_demo) (path (Makefile.path makefile_demo)) = true)
    by (vm_compute; reflexivity).
  destruct (makefile_generate_twice env_demo makefile_demo world_demo w1 Hc E)
    as (w2 & E2 & F2).
  exists w1, w2. split; [reflexivity|]. split; [exact E2|exact F2].
Defined.

(** X19: a template without placeholders is copied.  When the target
    and the template are canonical locations, every line of the template
    is free of placeholders and [Makefile.generate] returns, the target
    holds the header followed by the text of the template, line endings
    translated to line feeds. *)
Theorem plain_template_is_copied (env : Env) (self : Makefile.t) (w w' : world)
    (c : string) :
  is_canonical (fs w) (path (Makefile.path self)) = true ->
  is_canonical (fs w) (path (Makefile.template_path self)) = true ->
  node_at (fs w) (path (Makefile.template_path self)) = Some (File c) ->
  forallb makefile_plain (readlines c) = true ->
  Makefile.generate env self w = (Ok tt, w') ->
  node_at (fs w') (path (Makefile.path self))
  = Some (File (Str.concat_all (Constants.header_strings env) +:+ universal_newlines c)).
Proof.
  intros HcP HcT HnT Hplain H. rewrite MakefileFacts.generate_run in H.
  destruct (Path.safely_remove_or_exit env (Makefile.path self) w) as [[u|e] wa] eqn:E1;
    [|done].
  destruct u.
  destruct (ArtifactFacts.safely_remove_ok env (Makefile.path self) w wa HcP E1)
    as (F1 & L1 & N1).
  assert (HcT' : is_canonical (fs wa) (path (Makefile.template_path self)) = true)
    by (by rewrite <- (FsFacts.is_canonical_same (fs w))).
  assert (HnT' : node_at (fs wa) (path (Makefile.template_path self)) = Some (File c)).
  { destruct (String.eqb_spec (path (Makefile.path self))
                (path (Makefile.template_path self))) as [E|E].
    - exfalso.
      assert (Hr : Path.read_lines env (fs wa) (Makefile.template_path self)
                   = Raise (FileNotFoundError (path (Makefile.template_path self)))).
      { unfold Path.read_lines. rewrite FsFacts.read_canonical by done.
        by rewrite <- E, N1. }
      rewrite Hr in H. done.
    - rewrite F1. by rewrite GenerateFacts.node_at_delete_ne. }
  rewrite (ArtifactFacts.read_lines_file env (fs wa) _ c HcT' HnT') in H.
  rewrite (MakefileFacts.render_steps _ (fun l => [l])) in H.
  2: { intros l Hl. apply MakefileFacts.replace_tokens_plain.
       rewrite forallb_forall in Hplain. by apply Hplain. }
  rewrite MakefileFacts.flat_map_singleton in H.
  destruct (Path.write_lines env (Makefile.path self) _ _) as [[u|e] wb] eqn:E5; [|done].
  destruct u. injection H as <-.
  lazymatch type of E5 with
  | Path.write_lines _ _ _ ?wx = _ =>
      destruct (GenerateFacts.write_after_remove env (Makefile.path self) _ (fs w) wx wb
                  HcP L1 N1 E5) as (F5 & _ & Hr)
  end.
  unfold printed. cbn [fs]. rewrite F5.
  rewrite GenerateFacts.node_at_insert_eq by done.
  rewrite MakefileFacts.concat_all_app. unfold readlines.
  by rewrite MakefileFacts.concat_lines_of.
Qed.

Lemma plain_template_is_copied_witness :
  node_at (fs (snd (Makefile.generate env_demo makefile_plain_demo world_plain)))
    "/proj/Makefile"
  = Some (File (Str.concat_all (Constants.header_strings env_demo)
                +:+ universal_newlines plain_template)).
Proof.
  destruct (Makefile.generate env_demo makefile_plain_demo world_plain) as [r w'] eqn:E.
  assert (Hr : r = Ok tt).
  { apply (f_equal fst) in E. cbn [fst] in E. rewrite <- E. vm_compute. reflexivity. }
  subst r. cbn [snd].
  apply (plain_template_is_copied env_demo makefile_plain_demo world_plain w' plain_template);
    [vm_compute; reflexivity..|exact E].
Defined.

(** X20: lines written are read back.  When lines that each end with a
    line feed, and hold no other line ending, are written with
    [write_lines] to a canonical location that is absent, or holds such
    lines already, [read_lines] returns the lines that were there
    followed by the lines written: [write_lines] appends. *)
Theorem written_lines_are_read_back (env : Env) (self : PathObj)
    (old_lines lines : list string) (w w' : world) :
  is_canonical (fs w) (path self) = true ->
  (node_at (fs w) (path self) = None /\ old_lines = []
   \/ node_at (fs w) (path self) = Some (File (Str.concat_all old_lines))) ->
  Forall terminated_line old_lines ->
  Forall terminated_line lines ->
  Path.write_lines env self lines w = (Ok tt, w') ->
  Path.read_lines env (fs w') self = Ok (old_lines ++ lines).
Proof.
  intros Hc Hold Ho Hl Hw.
  destruct (ArtifactFacts.write_lines_ok env self lines w w' Hc Hw)
    as (old & Hcase & F & L & Hr).
  assert (old = Str.concat_all old_lines) as ->.
  { destruct Hold as [[Hn ->]|Hn], Hcase as [[Hn' ->]|Hn']; [done|congruence..]. }
  rewrite (ArtifactFacts.read_lines_file env (fs w') self
             (Str.concat_all old_lines +:+ Str.concat_all lines)).
  - rewrite <- MakefileFacts.concat_all_app. f_equal.
    apply MakefileFacts.readlines_terminated. by apply Forall_app.
  - by rewrite <- (FsFacts.is_canonical_same (fs w)).
  - rewrite F. by apply GenerateFacts.node_at_insert_eq.
Qed.

Lemma written_lines_are_read_back_witness :
  exists w',
    Path.write_lines env_demo (proj_path "log") ["one" +:+ nl; "two" +:+ nl] world_demo
    = (Ok tt, w')
    /\ Path.read_lines env_demo (fs w') (proj_path "log")
       = Ok ([] ++ ["one" +:+ nl; "two" +:+ nl]).
Proof.
  destruct (Path.write_lines env_demo (proj_path "log") ["one" +:+ nl; "two" +:+ nl]
              world_demo) as [r w'] eqn:E.
  assert (Hr : r = Ok tt).
  { apply (f_equal fst) in E. cbn [fst] in E. rewrite <- E. vm_compute. reflexivity. }
  subst r. exists w'. split; [reflexivity|].
  apply (written_lines_are_read_back env_demo (proj_path "log") [] _ world_demo w').
  - vm_compute. reflexivity.
  - left. split; [vm_compute; reflexivity|reflexivity].
  - constructor.
  - constructor; [exists "one"; repeat split; reflexivity|].
    constructor; [exists "two"; repeat split; reflexivity|]. constructor.
  - exact E.
Defined.

(** X21: a line of a qmake template without a placeholder comes back
    from [Qmake.replace_tokens] as a string, not as a list, and the
    lines of the output receive its characters one by one; the text that
    is written is the same.  Rendering lines that are all free of
    placeholders returns, with every character as an element, and the
    concatenation of the result is that of the lines. *)
Theorem qmake_plain_lines_keep_text (env : Env) (f : gmap string node) (self : Qmake.t)
    (other_files headers sources includepaths : list PathObj) (defines : list string)
    (include_abs include_rel include_user : bool) (lines acc : list string) :
  forallb qmake_plain lines = true ->
  Makefile.render
    (fun line => Qmake.replace_tokens env f self line other_files headers sources
                   includepaths defines include_abs include_rel include_user)
    lines acc
  = Ok (acc ++ flat_map Str.chars lines)
  /\ Str.concat_all (acc ++ flat_map Str.chars lines)
     = Str.concat_all acc +:+ Str.concat_all lines.
Proof.
  intros H. split.
  - apply MakefileFacts.render_steps. intros l Hl.
    apply MakefileFacts.qmake_replace_tokens_plain.
    rewrite forallb_forall in H. by apply H.
  - by rewrite MakefileFacts.concat_all_app, MakefileFacts.concat_flat_chars.
Qed.

Lemma qmake_plain_lines_keep_text_witness :
  Makefile.render
    (fun line => Qmake.replace_tokens env_demo fs_demo qmake_demo line [] [] [] [] []
                   false true false)
    ["QT -= gui" +:+ nl] []
  = Ok ([] ++ flat_map Str.chars ["QT -= gui" +:+ nl])
  /\ Str.concat_all ([] ++ flat_map Str.chars ["QT -= gui" +:+ nl])
     = Str.concat_all [] +:+ Str.concat_all ["QT -= gui" +:+ nl].
Proof.
  apply (qmake_plain_lines_keep_text env_demo fs_demo qmake_demo [] [] [] [] []
           false true false ["QT -= gui" +:+ nl] []).
  vm_compute. reflexivity.
Defined.

(** X22: [Qmake.raw_path_in_paths] never finds a path: it compares the
    canonical location of the raw path, which is absolute, with
    [str(path)], the default text of an object, which begins with [<]. *)
Theorem raw_path_in_paths_never (env : Env) (f : gmap string node) (raw_path : string)
    (paths : list PathObj) :
  isabs (cwd env) = true ->
  Qmake.raw_path_in_paths env f raw_path paths = false.
Proof.
  intros Hc.
  pose proof (PathInvariant.realpath_isabs (cwd env) f raw_path Hc) as Hr.
  apply PathInvariant.isabs_inv in Hr as (s & Hs).
  induction paths as [|p paths IH]; [reflexivity|].
  cbn [Qmake.raw_path_in_paths]. rewrite Hs. unfold Path.str.
  change ("<__main__.Path object at " +:+ addr_of env p +:+ ">")
    with (String "<" ("__main__.Path object at " +:+ addr_of env p +:+ ">")).
  destruct (String.eqb_spec
              (String "<" ("__main__.Path object at " +:+ addr_of env p +:+ ">"))
              (String "/" s)) as [E|_]; [discriminate E|exact IH].
Qed.

Lemma raw_path_in_paths_never_witness :
  Qmake.raw_path_in_paths env_demo fs_demo "s.ino" [proj_path "s.ino"] = false.
Proof. apply (raw_path_in_paths_never env_demo fs_demo). reflexivity. Defined.

(** X23: the run script.  When the script and the Makefile are at
    canonical locations, the relative form of the Makefile from the
    directory of the script does not begin with [~/], and
    [create_runscript] returns, the script holds the line [#!/bin/sh],
    the header, and one command: [make -f] with the path of the Makefile
    relative to the directory of the script, and the rule [run]. *)
Theorem run_script_content (env : Env) (self : Qmake.t) (w w' : world) :
  is_canonical (fs w) (path (Qmake.script_path self)) = true ->
  is_canonical (fs w) (path (Qmake.makefile_path self)) = true ->
  Str.startswith (relpath (cwd env) (path (Qmake.makefile_path self))
                    (dirname (path (Qmake.script_path self)))) "~/" = false ->
  Qmake.create_runscript env self w = (Ok tt, w') ->
  node_at (fs w') (path (Qmake.script_path self))
  = Some (File (Str.concat_all
                  (["#!/bin/sh" +:+ nl] ++ Constants.header_strings env
                   ++ ["make -f "
                       +:+ relpath (cwd env) (path (Qmake.makefile_path self))
                             (dirname (path (Qmake.script_path self)))
                       +:+ " run" +:+ nl]))).
Proof.
  intros HcS HcM Htilde H. unfold Qmake.create_runscript in H.
  GenerateFacts.bind_step H u w1 E1. destruct u.
  destruct (ArtifactFacts.safely_remove_ok env _ w w1 HcS E1) as (F1 & L1 & N1).
  GenerateFacts.value_step H rel. rename E into Erel.
  GenerateFacts.value_step H r. rename E into Er.
  GenerateFacts.bind_step H u w2 E2. destruct u.
  destruct (GenerateFacts.write_after_remove env _ _ (fs w) _ w2 HcS L1 N1 E2)
    as (F2 & _ & Hr).
  apply GenerateFacts.fs_stable_chmod in H. rewrite H, F2.
  rewrite GenerateFacts.node_at_insert_eq by done.
  assert (Hbase : is_canonical (fs w1) (dirname (path (Qmake.script_path self))) = true).
  { rewrite <- (FsFacts.is_canonical_same (fs w)) by done.
    by apply FsFacts.dirname_canonical. }
  assert (HcM1 : is_canonical (fs w1) (path (Qmake.makefile_path self)) = true)
    by (by rewrite <- (FsFacts.is_canonical_same (fs w))).
  pose proof (RelativeFacts.to_relative_rel_path env (fs w1) _ rel _ Hbase HcM1 Htilde Erel)
    as Hrel.
  rewrite Er in Hrel. injection Hrel as ->. reflexivity.
Qed.

Lemma run_script_content_witness :
  node_at (fs (snd (Qmake.create_runscript env_demo qmake_demo world_demo))) "/proj/proj"
  = Some (File (Str.concat_all
                  (["#!/bin/sh" +:+ nl] ++ Constants.header_strings env_demo
                   ++ ["make -f " +:+ relpath "/proj" "/proj/Makefile" "/proj"
                       +:+ " run" +:+ nl]))).
Proof.
  destruct (Qmake.create_runscript env_demo qmake_demo world_demo) as [r w'] eqn:E.
  assert (Hr : r = Ok tt).
  { apply (f_equal fst) in E. cbn [fst] in E. rewrite <- E. vm_compute. reflexivity. }
  subst r. cbn [snd].
  apply (run_script_content env_demo qmake_demo world_demo w');
    [vm_compute; reflexivity..|exact E].
Defined.

(* ===================================================================== *)
(** * The checks of [main] *)
(* ===================================================================== *)

(** X24: what has been checked when the first part of [main] returns.
    Nothing has been printed or changed; the base name of the Makefile
    argument starts with [Makefile]; the sketch, every configuration
    file of the command line and the Makefile template are regular
    files; and when a qmake project is asked for, its argument ends with
    [.pro] and its template is a regular file. *)
Theorem main_checks_guarantee (env : Env) (args : Args) (w w' : world) (c : Checked) :
  main_checks env args w = (Ok c, w') ->
  w' = w
  /\ Str.startswith (basename (makefile args)) "Makefile" = true
  /\ Path.isfile env (fs w) (sketch_path c) = true
  /\ forallb (Path.isfile env (fs w)) (config_paths c) = true
  /\ Path.isfile env (fs w) (makefile_template_path c) = true
  /\ match qmake_paths c with
     | Some (_, t) =>
         Path.isfile env (fs w) t = true
         /\ Str.endswith (default EmptyString (qmake args)) ".pro" = true
     | None => True
     end.
Proof.
  intros H. pose proof (MainFacts.stateless_main_checks env args w _ _ H) as ->.
  split; [done|]. unfold main_checks, Error.exit_on_error, raise, ret in H.
  GenerateFacts.value_step H sk. clear E.
  GenerateFacts.value_step H cfgs. clear E.
  GenerateFacts.bind_step H u w3 E3.
  destruct (Str.startswith (basename (makefile args)) "Makefile") eqn:Hm;
    cbn [negb] in E3; cbv beta iota in E3; [|done].
  injection E3 as _ <-. clear u.
  GenerateFacts.value_step H mk. clear E.
  GenerateFacts.value_step H mt. clear E.
  GenerateFacts.value_step H qp. clear E.
  GenerateFacts.bind_step H qps w7 E7.
  assert (Hq : w7 = w
               /\ match qps with
                  | Some (_, t) => Str.endswith (default EmptyString (qmake args)) ".pro" = true
                  | None => True
                  end).
  { destruct qp as [q|].
    - GenerateFacts.bind_step E7 u3 w9 E9.
      destruct (Str.endswith (default EmptyString (qmake args)) ".pro") eqn:He;
        cbn [negb] in E9; cbv beta iota in E9; [|done].
      injection E9 as _ <-.
      GenerateFacts.value_step E7 t. clear E.
      by injection E7 as <- <-.
    - by injection E7 as <- <-. }
  destruct Hq as [-> Hq].
  GenerateFacts.value_step H u8.
  apply (CheckFacts.check_files_ok env (fs w)
           ((([sk] ++ cfgs) ++ [mt])
            ++ match qps with Some (_, t) => [t] | None => [] end) u8) in E.
  injection H as <-. cbn [sketch_path config_paths makefile_template_path qmake_paths].
  rewrite !forallb_app in E. cbn [forallb] in E.
  rewrite !andb_true_iff in E. destruct E as [[[[Hsk _] Hcf] [Hmt _]] Hqt].
  repeat (split; [done|]).
  destruct qps as [[q t]|]; [|done].
  cbn [forallb] in Hqt. rewrite andb_true_r in Hqt. done.
Qed.

Lemma main_checks_guarantee_witness :
  exists c w',
    main_checks env_demo args_no_fqbn world_demo = (Ok c, w')
    /\ w' = world_demo
    /\ Path.isfile env_demo (fs world_demo) (sketch_path c) = true.
Proof.
  assert (E : main_checks env_demo args_no_fqbn world_demo = (Ok checked_demo, world_demo))
    by (vm_compute; reflexivity).
  destruct (main_checks_guarantee env_demo args_no_fqbn world_demo world_demo checked_demo E)
    as (H1 & _ & H3 & _).
  exists checked_demo, world_demo. split; [exact E|]. split; [exact H1|exact H3].
Defined.

(* ===================================================================== *)
(** * The library options of the Makefile *)
(* ===================================================================== *)

Module LibraryFacts.

Lemma join_not_abs (a r : string) :
  a <> EmptyString -> Str.endswith a "/" = false -> isabs r = false ->
  join a r = a +:+ "/" +:+ r.
Proof.
  intros Ha He Hr. unfold join. unfold isabs in Hr. rewrite Hr, He.
  apply String.eqb_neq in Ha as ->. reflexivity.
Qed.

(** Between canonical locations [to_relative] returns. *)
Lemma to_relative_ok (env : Env) (f : gmap string node) (x : PathObj) (base : string) :
  Path.check_basedir_valid env f (Some base) = Ok true ->
  is_canonical f (path x) = true ->
  exists y, Path.to_relative env f x base = Ok y.
Proof.
  intros Hv Hx.
  apply CanonicalFacts.is_canonical_spec in Hx as (ps & Hp & _).
  unfold Path.to_relative, Path.relpath_checked. rewrite Hv, Hp. cbn [rbind].
  change (String.eqb (abs_of ps) EmptyString) with false. cbv iota. cbn [rbind].
  unfold Path.init. rewrite RelativeFacts.relpath_never_abs.
  destruct (Str.startswith _ "~/"); [by eexists|].
  rewrite Hv. cbn [rbind]. by eexists.
Qed.

End LibraryFacts.

(** X25: the text of a library option in the Makefile.  A library in
    the home directory is written as [$(HOME)/] followed by its path
    from the home directory, and a library given relative to its
    configuration file as [$(MAKEFILE_DIR)/] followed by its path from
    the directory of the Makefile (for canonical locations, a valid
    directory of the Makefile, and a relative form that does not begin
    with [~/]).  A library given by an absolute path is written as
    [str(lib_path)], which is the default text of an object and not its
    location. *)
Theorem library_option_text (env : Env) (f : gmap string node) (self : Makefile.t)
    (lib : PathObj) :
  match _type lib with
  | User =>
      path lib <> EmptyString ->
      Makefile.lib_path_string env f self lib
      = Ok ("$(HOME)/" +:+ relpath (cwd env) (path lib) (default "." (basedir lib)))
  | Absolute =>
      Makefile.lib_path_string env f self lib
      = Ok ("<__main__.Path object at " +:+ addr_of env lib +:+ ">")
  | Relative =>
      Path.check_basedir_valid env f (Some (dirname (path (Makefile.path self)))) = Ok true ->
      is_canonical f (dirname (path (Makefile.path self))) = true ->
      is_canonical f (path lib) = true ->
      Str.startswith (relpath (cwd env) (path lib) (dirname (path (Makefile.path self))))
        "~/" = false ->
      Makefile.lib_path_string env f self lib
      = Ok ("$(MAKEFILE_DIR)/"
            +:+ relpath (cwd env) (path lib) (dirname (path (Makefile.path self))))
  end.
Proof.
  unfold Makefile.lib_path_string, Path.isuser, Path.isrel.
  destruct (_type lib) eqn:Ht.
  - intros Hv Hb Hl Htilde.
    destruct (LibraryFacts.to_relative_ok env f lib _ Hv Hl) as (y & Hy).
    change (Path.to_string (Path.parent_dir (Makefile.path self)))
      with (dirname (path (Makefile.path self))).
    rewrite Hy. cbn [rbind].
    rewrite (RelativeFacts.to_relative_rel_path env f lib y _ Hb Hl Htilde Hy). cbn [rbind].
    rewrite LibraryFacts.join_not_abs; [done..|apply RelativeFacts.relpath_never_abs].
  - reflexivity.
  - intros Hne. unfold Path.rel_path, Path.relpath_checked. rewrite Ht.
    apply String.eqb_neq in Hne as ->. cbn [rbind].
    rewrite LibraryFacts.join_not_abs; [done..|apply RelativeFacts.relpath_never_abs].
Qed.

Lemma library_option_text_witness :
  Makefile.lib_path_string env_demo fs_demo makefile_demo user_lib
  = Ok ("$(HOME)/" +:+ relpath (cwd env_demo) (path user_lib) (default "." (basedir user_lib))).
Proof.
  apply (library_option_text env_demo fs_demo makefile_demo user_lib). discriminate.
Defined.

(* ===================================================================== *)
(** * The scan for sources and headers *)
(* ===================================================================== *)

Module ScanFacts.

Lemma rfold_app {A B} (step : A -> B -> result A) (l1 l2 : list B) (acc : A) :
  Qmake.rfold step (l1 ++ l2) acc = rbind (Qmake.rfold step l1 acc) (Qmake.rfold step l2).
Proof.
  revert acc. induction l1 as [|x l1 IH]; intros acc; [reflexivity|].
  cbn [app Qmake.rfold]. destruct (step acc x) as [a|e]; [|reflexivity].
  cbn [rbind]. apply IH.
Qed.

Section WithScan.
Variable env : Env.
Variable f : gmap string node.
Variable self : Qmake.t.
Variable extensions : list string.
Hypothesis Hcwd : isabs (cwd env) = true.

(** The step of the scan on a name that is resolved already. *)
Lemma step_resolved (d : PathObj) (acc : list PathObj * list string) (raw : string) :
  realpath (cwd env) f (realpath (cwd env) f raw) = realpath (cwd env) f raw ->
  Qmake.get_files_step env f self extensions d acc raw
  = Qmake.get_files_step env f self extensions d acc (realpath (cwd env) f raw).
Proof.
  intros H. unfold Qmake.get_files_step. destruct acc as [ret raw_paths]. by rewrite !H.
Qed.

Lemma inner_resolved (d : PathObj) (raws : list string) (acc : list PathObj * list string) :
  (forall raw, In raw raws ->
     realpath (cwd env) f (realpath (cwd env) f raw) = realpath (cwd env) f raw) ->
  Qmake.rfold (Qmake.get_files_step env f self extensions d) raws acc
  = Qmake.rfold
      (fun acc c => Qmake.get_files_step env f self extensions (fst c) acc (snd c))
      (map (fun raw => (d, realpath (cwd env) f raw)) raws) acc.
Proof.
  revert acc. induction raws as [|raw raws IH]; intros acc H; [reflexivity|].
  cbn [map Qmake.rfold fst snd].
  rewrite <- step_resolved by (apply H; by left).
  destruct (Qmake.get_files_step env f self extensions d acc raw) as [a|e]; [|reflexivity].
  cbn [rbind]. apply IH. intros r Hr. apply H. by right.
Qed.

Lemma nested_resolved (dirs : list PathObj) (h : PathObj -> list string)
    (acc : list PathObj * list string) :
  (forall d raw, In d dirs -> In raw (h d) ->
     realpath (cwd env) f (realpath (cwd env) f raw) = realpath (cwd env) f raw) ->
  Qmake.rfold
    (fun acc d => Qmake.rfold (Qmake.get_files_step env f self extensions d) (h d) acc)
    dirs acc
  = Qmake.rfold
      (fun acc c => Qmake.get_files_step env f self extensions (fst c) acc (snd c))
      (flat_map (fun d => map (fun raw => (d, realpath (cwd env) f raw)) (h d)) dirs) acc.
Proof.
  revert acc. induction dirs as [|d dirs IH]; intros acc H; [reflexivity|].
  cbn [flat_map Qmake.rfold]. rewrite rfold_app.
  rewrite inner_resolved by (intros raw Hr; apply (H d); [by left|done]).
  destruct (Qmake.rfold _ (map _ (h d)) acc) as [a|e]; [|reflexivity].
  cbn [rbind]. apply IH. intros d' raw Hd Hr. apply (H d'); [by right|done].
Qed.

(** The scan over resolved names keeps the first occurrence of every
    wanted location. *)
Lemma fold_pairs (l : list (PathObj * string)) (ret : list PathObj) (seen : list string) :
  (forall c, In c l -> realpath (cwd env) f (snd c) = snd c) ->
  Qmake.rfold
    (fun acc c => Qmake.get_files_step env f self extensions (fst c) acc (snd c))
    l (ret, seen)
  = rbind
      (rmap_list
         (fun c => Qmake.path_from_ancestor env f (fst c) (Qmake.path self) (snd c))
         (first_by_location (List.filter (wanted env f extensions) l) seen))
      (fun ps =>
         Ok (ret ++ ps,
             seen ++ map snd (first_by_location
                                (List.filter (wanted env f extensions) l) seen))).
Proof.
  revert ret seen. induction l as [|[d rr] l IH]; intros ret seen H.
  - cbn. by rewrite !List.app_nil_r.
  - assert (Hrr : realpath (cwd env) f rr = rr) by (apply (H (d, rr)); by left).
    assert (Hl : forall c, In c l -> realpath (cwd env) f (snd c) = snd c)
      by (intros c Hc; apply H; by right).
    assert (Habs : isabs rr = true)
      by (rewrite <- Hrr; by apply PathInvariant.realpath_isabs).
    cbn [Qmake.rfold List.filter fst snd]. unfold Qmake.get_files_step at 1.
    rewrite !Hrr. rewrite is_rawpath_excluded_never by done.
    assert (Hw : wanted env f extensions (d, rr)
                 = FS.isfile (cwd env) f rr
                   && existsb (String.eqb (snd (splitext rr))) extensions) by reflexivity.
    rewrite Hw. clear Hw.
    destruct (FS.isfile (cwd env) f rr); cbn [negb andb rbind]; [|by apply IH].
    destruct (existsb (String.eqb (snd (splitext rr))) extensions);
      cbn [negb rbind]; [|by apply IH].
    cbn [first_by_location snd].
    destruct (existsb (String.eqb rr) seen); cbn [rbind]; [by apply IH|].
    cbn [rmap_list fst snd].
    destruct (Qmake.path_from_ancestor env f d (Qmake.path self) rr) as [p|e];
      [|reflexivity].
    cbn [rbind]. rewrite IH by done.
    destruct (rmap_list _ (first_by_location _ (seen ++ [rr]))) as [ps|e]; [|reflexivity].
    cbn [rbind map snd]. by rewrite <- !List.app_assoc.
Qed.

End WithScan.

End ScanFacts.

(** X26: what [Qmake.get_files] returns.  With an absolute working
    directory, and when the canonical location of every name the scan
    meets resolves to itself, the files returned are, in scan order
    (root after root, and within a root the order of the traversal), the
    first occurrence of every canonical location that is a regular file
    with one of the extensions, each made into a path by
    [path_from_ancestor] with the root that reached it first: a file
    that two roots reach is returned once.  The excluded directories
    play no part. *)
Theorem get_files_first_occurrences (env : Env) (f : gmap string node) (self : Qmake.t)
    (extensions : list string) :
  isabs (cwd env) = true ->
  (forall c, In c (scanned env f self) ->
     realpath (cwd env) f (snd c) = snd c) ->
  Qmake.get_files env f self extensions
  = rmap_list
      (fun c => Qmake.path_from_ancestor env f (fst c) (Qmake.path self) (snd c))
      (first_by_location (List.filter (wanted env f extensions) (scanned env f self)) []).
Proof.
  intros Hcwd Hid. unfold Qmake.get_files.
  rewrite (ScanFacts.nested_resolved env f self extensions).
  - fold (scanned env f self).
    rewrite (ScanFacts.fold_pairs env f self extensions Hcwd _ [] [] Hid).
    destruct (rmap_list _ _) as [ps|e]; reflexivity.
  - intros d raw Hd Hr. apply (Hid (d, realpath (cwd env) f raw)).
    unfold scanned. apply in_flat_map. exists d. split; [done|].
    apply in_map_iff. by exists raw.
Qed.

Lemma get_files_first_occurrences_witness :
  Qmake.get_files env_roots fs_roots qmake_roots [".h"; ".hpp"]
  = Ok [proj_path "a.h"; mkPath Absolute None "/libs/b.h"].
Proof.
  rewrite (get_files_first_occurrences env_roots fs_roots qmake_roots [".h"; ".hpp"]).
  - vm_compute. reflexivity.
  - reflexivity.
  - assert (H : forallb (fun c => String.eqb (realpath (cwd env_roots) fs_roots (snd c))
                                    (snd c))
                  (scanned env_roots fs_roots qmake_roots) = true)
      by (vm_compute; reflexivity).
    intros c Hc. rewrite forallb_forall in H. by apply String.eqb_eq, H.
Defined.

(* ===================================================================== *)
(** * The keys of the configuration files *)
(* ===================================================================== *)

Module KeyFacts.

Import ConfigFacts.

(** A key that is not a string is no recognized key, and the text of
    the warning cannot be built from it. *)
Lemma merge_key_not_string (env : Env) (p : PathObj) (self : Config.t) (key : ykey)
    (v : yvalue) (w : world) :
  (forall name, key <> KStr name) ->
  Config.merge_key env p self (key, v) w = (Raise TypeError, w).
Proof. intros H. destruct key as [name| | | |]; [by destruct (H name)|done..]. Qed.

Lemma merge_key_string (env : Env) (p : PathObj) (self s : Config.t) (key : ykey)
    (v : yvalue) (w w' : world) :
  Config.merge_key env p self (key, v) w = (Ok s, w') -> exists name, key = KStr name.
Proof.
  destruct key as [name| | | |]; [by exists name|..];
    rewrite merge_key_not_string; done.
Qed.

Lemma merge_keys_string_keys (env : Env) (p : PathObj) (entries : list (ykey * yvalue))
    (self s : Config.t) (w w' : world) :
  Config.merge_keys env p entries self w = (Ok s, w') ->
  exists es, entries = string_keyed es.
Proof.
  revert self w. induction entries as [|[key v] entries IH]; intros self w H.
  - by exists [].
  - cbn [Config.merge_keys] in H.
    apply bind_inv in H as [(s1 & w1 & E & H)|(? & _ & [=])].
    apply merge_key_string in E as (name & ->). apply IH in H as (es & ->).
    by exists ((name, v) :: es).
Qed.

Lemma load_inv (env : Env) (p : PathObj) (w w' : world) (data : yaml) :
  Config.load env p w = (Ok data, w') ->
  fs w' = fs w
  /\ exists content,
       FS.read (cwd env) (fs w) (path p) = Ok content /\ safe_load env content = Some data.
Proof.
  intros H. split; [exact (fs_stable_load env p w _ w' H)|].
  unfold Config.load in H.
  apply bind_inv in H as [(content & w1 & E1 & H)|(? & _ & [=])].
  apply bind_inv in H as [(u & w2 & E2 & H)|(? & _ & [=])].
  unfold lift in E1.
  destruct (FS.read (cwd env) (fs w) (path p)) as [c|] eqn:Er; [|done].
  injection E1 as -> <-. exists content. split; [done|].
  destruct (safe_load env content) as [d|]; [|done]. by injection H as ->.
Qed.

Lemma merge_layer_loads (env : Env) (self s : Config.t) (p : PathObj) (w w' : world) :
  Config.merge_layer env self p w = (Ok s, w') ->
  exists es, layer_loads env (fs w) (p, es).
Proof.
  unfold Config.merge_layer. intros H.
  apply bind_inv in H as [(data & w1 & E & H)|(? & _ & [=])].
  destruct data as [entries|]; [|done].
  apply merge_keys_string_keys in H as (es & ->). exists es.
  destruct (Config.load env p w) as [[d|e] w2] eqn:El.
  - injection E as -> <-. by apply load_inv in El as [_ Hl].
  - unfold Error.exit_on_exception, bind, print, modify, raise in E. by destruct e.
Qed.

Lemma merge_layers_load (env : Env) (layers : list PathObj) (self s : Config.t)
    (w w' : world) :
  Config.merge_layers env layers self w = (Ok s, w') ->
  Forall (fun p => exists es, layer_loads env (fs w) (p, es)) layers.
Proof.
  revert self w. induction layers as [|p layers IH]; intros self w H; [constructor|].
  cbn [Config.merge_layers] in H.
  apply bind_inv in H as [(s1 & w1 & E & H)|(? & _ & [=])].
  constructor; [by apply merge_layer_loads in E|].
  apply IH in H. by rewrite (fs_stable_merge_layer env self p w _ w1 E) in H.
Qed.

End KeyFacts.

(** X28: the files of a composed configuration have string keys only.
    When [Config(paths)] returns, every file among the paths of the
    configuration can be read and parses to a mapping whose keys are all
    strings: a key of another type is no recognized key, and the
    warning about it cannot be put together. *)
Theorem composed_files_have_string_keys (env : Env) (depth : nat) (paths : list PathObj)
    (w w' : world) (c : Config.t) :
  Config.init env depth paths w = (Ok c, w') ->
  Forall (fun p => exists entries, layer_loads env (fs w) (p, entries)) (Config.paths c).
Proof.
  intros H. apply ComposeFacts.init_inv in H as (all & w1 & w2 & board & E1 & E2 & _).
  pose proof (ComposeFacts.merge_layers_keeps _ _ _ _ _ _ E2) as [_ ->].
  cbn [Config.paths].
  apply KeyFacts.merge_layers_load in E2.
  by rewrite (ConfigFacts.fs_stable_expand env depth _ _ _ _ _ E1) in E2.
Qed.

Lemma composed_files_have_string_keys_witness :
  exists c,
    fst (Config.init env_incl 10 [proj_path "t.yaml"] world_incl) = Ok c
    /\ Forall (fun p => exists entries, layer_loads env_incl fs_incl (p, entries))
         (Config.paths c).
Proof.
  destruct ComposeExamples.init_returns as (c & w' & E & _).
  pose proof (composed_files_have_string_keys env_incl 10 _ world_incl w' c E) as H.
  exists c. split; [rewrite E; reflexivity|exact H].
Defined.
